(** * Dayflow (Windows port): capture-to-timeline pipeline

    A shallow embedding of [dayflow_windows/timeline.py], [ai.py],
    [database.py], [capture.py] and the pure parts of [app.py] (interval,
    storage limit, categories, filters), followed by the properties of the
    pipeline that the specification states about them (Part II) and by
    further properties of the same code (Part III).

    Conventions of the embedding.
    - A Python [str] is a [string]; each character stands for one code
      point below 256.  Character classes ([isspace], [isdigit], [lower])
      follow CPython on that range.  A text decoded from JSON may hold any
      code point and is a list of code points ([UText.ustring]).
    - A timezone-aware [datetime] is the number of microseconds on the UTC
      time line ([Z]); a [timedelta] is a number of microseconds.  The
      text a row stores for it is [isoformat] of the instant at the UTC
      offset of the zone at that time.
    - [json.loads] is given the number of nested containers the
      interpreter allows before [RecursionError]; it raises [ValueError]
      on an integer of more than 4300 digits.
    - A Python [float] is a rational, or one of the two infinities, or NaN;
      only comparisons, rounding to an integer and scaling by 1024 (exact
      on doubles) are performed on floats.
    - A raised exception is the [Raise] case of [result]; the modules that
      meet further exceptions carry a result type of their own.
    - An SQLite table is the list of its rows in rowid order together with
      the AUTOINCREMENT counter; a table with a TEXT primary key is a
      [gmap]. *)

From Stdlib Require Import ZArith QArith String Ascii List Lia Bool.
From Stdlib Require Import Sorting.Sorted Permutation DecimalString.
From stdpp Require Import gmap strings list sorting.

Local Open Scope string_scope.
Local Open Scope Z_scope.
Local Open Scope list_scope.

(* ===================================================================== *)
(** * Part I. The embedding                                              *)
(* ===================================================================== *)

(** ** Exceptions *)

Inductive exn : Type :=
| ValueError (msg : string)
| RuntimeError (msg : string)
| ZeroDivisionError
| JSONDecodeError
| RecursionError.

Inductive result (A : Type) : Type :=
| Ok (a : A)
| Raise (e : exn).
Arguments Ok {A} a.
Arguments Raise {A} e.

Definition rbind {A B} (r : result A) (k : A -> result B) : result B :=
  match r with
  | Ok a => k a
  | Raise e => Raise e
  end.

Notation "'let*' x ':=' r 'in' k" := (rbind r (fun x => k))
  (at level 10, x name, r at level 100, k at level 200).

(** ** Python text *)

Module PyText.

Definition code (c : ascii) : N := N_of_ascii c.

(** [str.isspace] on one character: TAB..CR, FS..US, SPACE, NEL, NBSP. *)
Definition isspace (c : ascii) : bool :=
  let n := code c in
  (((9 <=? n) && (n <=? 13)) || ((28 <=? n) && (n <=? 32))
   || (n =? 133) || (n =? 160))%N.

(** The characters [int()] reads as decimal digits. *)
Definition isdecimal (c : ascii) : bool :=
  let n := code c in ((48 <=? n) && (n <=? 57))%N.

(** [str.isdigit] on one character: the decimal digits and the
    superscripts two, three and one. *)
Definition isdigit_char (c : ascii) : bool :=
  let n := code c in
  (isdecimal c || (n =? 178) || (n =? 179) || (n =? 185))%N.

Definition lower_char (c : ascii) : ascii :=
  let n := code c in
  if (((65 <=? n) && (n <=? 90))
      || ((192 <=? n) && (n <=? 222) && negb (n =? 215)))%N
  then ascii_of_N (n + 32) else c.

Fixpoint all_chars (p : ascii -> bool) (s : string) : bool :=
  match s with
  | EmptyString => true
  | String c r => p c && all_chars p r
  end.

(** [s.isdigit()]: non-empty and every character is a digit. *)
Definition isdigit (s : string) : bool :=
  match s with
  | EmptyString => false
  | _ => all_chars isdigit_char s
  end.

Fixpoint lower (s : string) : string :=
  match s with
  | EmptyString => EmptyString
  | String c r => String (lower_char c) (lower r)
  end.

Fixpoint lstrip (s : string) : string :=
  match s with
  | EmptyString => EmptyString
  | String c r => if isspace c then lstrip r else s
  end.

Fixpoint rstrip (s : string) : string :=
  match s with
  | EmptyString => EmptyString
  | String c r =>
      match rstrip r with
      | EmptyString => if isspace c then EmptyString else String c EmptyString
      | r' => String c r'
      end
  end.

(** [s.strip()] *)
Definition strip (s : string) : string := rstrip (lstrip s).

Definition starts_word (s : string) : bool :=
  match s with
  | EmptyString => false
  | String c _ => negb (isspace c)
  end.

(** [s.split()]: the maximal runs of non-whitespace characters. *)
Fixpoint split (s : string) : list string :=
  match s with
  | EmptyString => []
  | String c r =>
      if isspace c then split r
      else if starts_word r then
        match split r with
        | w :: ws => String c w :: ws
        | [] => [String c EmptyString]
        end
      else String c EmptyString :: split r
  end.

(** [sep.join(parts)] *)
Definition join (sep : string) (parts : list string) : string :=
  String.concat sep parts.

(** [s.replace(c, "")] for a one-character [c]. *)
Fixpoint remove_char (c : ascii) (s : string) : string :=
  match s with
  | EmptyString => EmptyString
  | String x r => if Ascii.eqb x c then remove_char c r
                  else String x (remove_char c r)
  end.

Fixpoint take (n : nat) (s : string) : string :=
  match n, s with
  | S n', String c r => String c (take n' r)
  | _, _ => EmptyString
  end.

Fixpoint drop (n : nat) (s : string) : string :=
  match n, s with
  | S n', String _ r => drop n' r
  | _, _ => s
  end.

(** [s[a:b]] for indices [0 <= a], [0 <= b]. *)
Definition slice (a b : Z) (s : string) : string :=
  take (Z.to_nat (b - a)) (drop (Z.to_nat a) s).

(** [s.find(c)] for a one-character [c]: first index, or -1. *)
Fixpoint find_from (i : Z) (c : ascii) (s : string) : Z :=
  match s with
  | EmptyString => -1
  | String x r => if Ascii.eqb x c then i else find_from (i + 1) c r
  end.
Definition find (c : ascii) (s : string) : Z := find_from 0 c s.

(** [s.rfind(c)] for a one-character [c]: last index, or -1. *)
Fixpoint rfind_from (i : Z) (c : ascii) (s : string) : Z :=
  match s with
  | EmptyString => -1
  | String x r =>
      let later := rfind_from (i + 1) c r in
      if later =? -1 then (if Ascii.eqb x c then i else -1) else later
  end.
Definition rfind (c : ascii) (s : string) : Z := rfind_from 0 c s.

Definition digit_value (c : ascii) : Z := Z.of_N (code c) - 48.

Fixpoint decimal_value (acc : Z) (s : string) : Z :=
  match s with
  | EmptyString => acc
  | String c r => decimal_value (acc * 10 + digit_value c) r
  end.

(** [int(s)] on a text without whitespace, sign or underscore (every call
    below passes a piece of a text that passed [isdigit] once its colons
    were removed): the value when all characters are decimal digits,
    [ValueError] otherwise. *)
Definition int (s : string) : result Z :=
  match s with
  | EmptyString => Raise (ValueError "invalid literal for int()")
  | _ => if all_chars isdecimal s then Ok (decimal_value 0 s)
         else Raise (ValueError "invalid literal for int()")
  end.

(** [str(n)] for an integer. *)
Definition str_of_int (n : Z) : string := NilZero.string_of_int (Z.to_int n).

(** [f"{n:02d}"] *)
Definition format_02d (n : Z) : string :=
  let s := str_of_int n in
  if (String.length s <? 2)%nat then ("0" ++ s)%string else s.

End PyText.

(** ** Python floats and rounding *)

Module PyFloat.

Inductive pyfloat : Type :=
| Finite (q : Q)
| PosInf
| NegInf
| NaN.

(** [a < b] on floats; every comparison with NaN is false. *)
Definition flt (a b : pyfloat) : bool :=
  match a, b with
  | NaN, _ | _, NaN => false
  | Finite x, Finite y => negb (Qle_bool y x)
  | NegInf, NegInf => false
  | NegInf, _ => true
  | _, PosInf => match a with PosInf => false | _ => true end
  | _, _ => false
  end.

Definition fle (a b : pyfloat) : bool :=
  match a, b with
  | NaN, _ | _, NaN => false
  | Finite x, Finite y => Qle_bool x y
  | NegInf, _ => true
  | _, PosInf => true
  | _, _ => false
  end.

(** The builtin [max(a, b)]: the first argument unless the second is
    greater. *)
Definition fmax (a b : pyfloat) : pyfloat := if flt a b then b else a.

(** The builtin [min(a, b)]: the first argument unless the second is
    smaller. *)
Definition fmin (a b : pyfloat) : pyfloat := if flt b a then b else a.

(** [lo <= x <= hi] *)
Definition within (lo hi : Q) (x : pyfloat) : Prop :=
  fle (Finite lo) x = true /\ fle x (Finite hi) = true.

(** [round(x)] for a finite float: nearest integer, ties to even. *)
Definition round (x : Q) : Z :=
  let n := Qnum x in
  let d := Zpos (Qden x) in
  let f := n / d in
  let r := n mod d in
  if 2 * r <? d then f
  else if d <? 2 * r then f + 1
  else if Z.even f then f else f + 1.

(** [int(x)] for a finite float: truncation towards zero. *)
Definition trunc (x : Q) : Z := Z.quot (Qnum x) (Zpos (Qden x)).

End PyFloat.

(** ** models.py *)

Module Models.

(** A [datetime] is a count of microseconds, and so is a [timedelta]. *)
Definition datetime := Z.
Definition timedelta := Z.

(** [timedelta(seconds=n)] *)
Definition timedelta_seconds (n : Z) : timedelta := n * 1000000.

(** [td.total_seconds()], as the exact quotient.  The float the code gets
    is the double nearest to it; a span that is not a whole (or half) number
    of seconds is at least a microsecond away from one, more than the
    rounding error of a double below 2^33 seconds, so [int()] and [round()]
    give the same integer on both. *)
Definition total_seconds (td : timedelta) : Q := td # 1000000.

Record ScreenshotRecord : Type := mkScreenshotRecord {
  sr_id : Z;
  sr_captured_at : datetime;
  sr_file_path : string;
  sr_file_size : Z;
  sr_window_title : string;
  sr_process_name : string
}.

Record TimelineCard : Type := mkTimelineCard {
  tc_start : datetime;
  tc_end : datetime;
  tc_duration_seconds : Z;
  tc_process_name : string;
  tc_window_title : string;
  tc_screenshot_count : Z
}.

Record AITimelineCard : Type := mkAITimelineCard {
  ac_id : Z;
  ac_day : string;
  ac_start : string;
  ac_end : string;
  ac_title : string;
  ac_summary : string;
  ac_category : string
}.

(** *** The text of an instant

    [t.isoformat()] for a timezone-aware [t] whose UTC offset is a whole
    number of minutes and whose local year has four digits: the local
    date and time of day, the microseconds when they are not zero, and the
    offset, as in 2026-10-25T02:30:00+02:00.  Instants count from
    1970-01-01T00:00:00 UTC; [utcoffset] is in minutes. *)

(** The date of a day number, in the proleptic Gregorian calendar:
    day 0 is 1970-01-01. *)
Definition civil_from_days (days : Z) : Z * Z * Z :=
  let z := days + 719468 in
  let era := z / 146097 in
  let doe := z mod 146097 in
  let yoe := (doe - doe / 1460 + doe / 36524 - doe / 146096) / 365 in
  let doy := doe - (365 * yoe + yoe / 4 - yoe / 100) in
  let mp := (5 * doy + 2) / 153 in
  let d := doy - (153 * mp + 2) / 5 + 1 in
  let m := if mp <? 10 then mp + 3 else mp - 9 in
  let y := yoe + era * 400 + (if m <=? 2 then 1 else 0) in
  (y, m, d).

(** [n] in decimal, padded with zeros to [width] characters. *)
Definition zero_padded (width : nat) (n : Z) : string :=
  let digits := PyText.str_of_int n in
  (string_of_list_ascii (repeat "0"%char (width - String.length digits))
   ++ digits)%string.

Definition isoformat (t : datetime) (utcoffset : Z) : string :=
  let local := t + utcoffset * 60000000 in
  let '(y, m, d) := civil_from_days (local / 86400000000) in
  let rest := local mod 86400000000 in
  let us := rest mod 1000000 in
  let offset := Z.abs utcoffset in
  (zero_padded 4 y ++ "-" ++ zero_padded 2 m ++ "-" ++ zero_padded 2 d
   ++ "T" ++ zero_padded 2 (rest / 3600000000)
   ++ ":" ++ zero_padded 2 (rest / 60000000 mod 60)
   ++ ":" ++ zero_padded 2 (rest / 1000000 mod 60)
   ++ (if (us =? 0)%Z then "" else "." ++ zero_padded 6 us)
   ++ (if (utcoffset <? 0)%Z then "-" else "+")
   ++ zero_padded 2 (offset / 60) ++ ":"
   ++ zero_padded 2 (offset mod 60))%string.

End Models.

(** ** Stable sorting

    [sorted(xs, key=...)] and SQL's ORDER BY over rows in rowid order are
    both modelled by a stable insertion sort on a boolean order. *)

Section StableSort.
Context {A : Type} (leb : A -> A -> bool).

Fixpoint insert_sorted (x : A) (l : list A) : list A :=
  match l with
  | [] => [x]
  | y :: l' => if leb x y then x :: l else y :: insert_sorted x l'
  end.

Fixpoint stable_sort (l : list A) : list A :=
  match l with
  | [] => []
  | x :: l' => insert_sorted x (stable_sort l')
  end.

End StableSort.

(** ** timeline.py *)

Module Timeline.
Import Models.

(** One entry of the list [grouped]. *)
Record Group : Type := mkGroup {
  g_key : string * string;
  g_start : datetime;
  g_end : datetime;
  g_process_name : string;
  g_window_title : string;
  g_screenshot_count : Z
}.

Definition _normalize (value : string) : string :=
  PyText.join " " (PyText.split (PyText.lower value)).

Definition _segment_duration_seconds
    (start : datetime) (next_timestamp : option datetime)
    (fallback max_gap : Z) : Z :=
  match next_timestamp with
  | None => fallback
  | Some next =>
      let raw_seconds := PyFloat.trunc (total_seconds (next - start)) in
      if raw_seconds <=? 0 then fallback
      else Z.min raw_seconds max_gap
  end.

(** [x or default] on texts *)
Definition or_text (x fallback : string) : string :=
  match x with EmptyString => fallback | _ => x end.

(** Lines 23-26: the start and the estimated end of one record, given the
    records that follow it in [ordered]. *)
Definition segment_end (fallback max_gap : Z)
    (record : ScreenshotRecord) (rest : list ScreenshotRecord) : datetime :=
  let start := sr_captured_at record in
  let next_timestamp := sr_captured_at <$> head rest in
  let segment_seconds :=
    _segment_duration_seconds start next_timestamp fallback max_gap in
  start + timedelta_seconds segment_seconds.

(** Lines 28-30: the displayed names of a record and its grouping key. *)
Definition process_name_of (record : ScreenshotRecord) : string :=
  or_text (PyText.strip (sr_process_name record)) "unknown".

Definition window_title_of (record : ScreenshotRecord) : string :=
  or_text (PyText.strip (sr_window_title record)) "Unknown Window".

Definition record_key (record : ScreenshotRecord) : string * string :=
  (_normalize (process_name_of record), _normalize (window_title_of record)).

(** Lines 37-46: the group a record opens. *)
Definition new_group (record : ScreenshotRecord) (end_ : datetime) : Group :=
  {| g_key := record_key record; g_start := sr_captured_at record;
     g_end := end_;
     g_process_name := process_name_of record;
     g_window_title := window_title_of record;
     g_screenshot_count := 1 |}.

(** Lines 33-34: the update of [grouped[-1]] on a merge. *)
Definition extend_group (end_ : datetime) (g : Group) : Group :=
  {| g_key := g_key g; g_start := g_start g;
     g_end := Z.max (g_end g) end_;
     g_process_name := g_process_name g; g_window_title := g_window_title g;
     g_screenshot_count := g_screenshot_count g + 1 |}.

(** Line 32: the merge test against the open group [grouped[-1]]. *)
Definition merges (merge_tolerance : timedelta)
    (open : Group) (key : string * string) (start : datetime) : bool :=
  bool_decide (g_key open = key) && (start <=? g_end open + merge_tolerance).

(** Lines 32-46: one iteration of the loop on [grouped]. *)
Definition group_step (merge_tolerance : timedelta) (grouped : list Group)
    (record : ScreenshotRecord) (end_ : datetime) : list Group :=
  match last grouped with
  | Some open =>
      if merges merge_tolerance open (record_key record) (sr_captured_at record)
      then alter (extend_group end_) (pred (length grouped)) grouped
      else grouped ++ [new_group record end_]
  | None => grouped ++ [new_group record end_]
  end.

(** Lines 21-46: the loop over [ordered]. *)
Fixpoint group_loop (fallback max_gap : Z) (merge_tolerance : timedelta)
    (ordered : list ScreenshotRecord) (grouped : list Group) : list Group :=
  match ordered with
  | [] => grouped
  | record :: rest =>
      let end_ := segment_end fallback max_gap record rest in
      group_loop fallback max_gap merge_tolerance rest
        (group_step merge_tolerance grouped record end_)
  end.

(** The value of [end] in each iteration of the loop, in order. *)
Fixpoint segment_ends (fallback max_gap : Z) (ordered : list ScreenshotRecord)
    : list datetime :=
  match ordered with
  | [] => []
  | record :: rest =>
      segment_end fallback max_gap record rest
      :: segment_ends fallback max_gap rest
  end.

(** Lines 48-62 *)
Definition card_of_group (group : Group) : TimelineCard :=
  let start := g_start group in
  let end_ := g_end group in
  let duration_seconds :=
    Z.max 1 (PyFloat.round (total_seconds (end_ - start))) in
  {| tc_start := start; tc_end := end_;
     tc_duration_seconds := duration_seconds;
     tc_process_name := g_process_name group;
     tc_window_title := g_window_title group;
     tc_screenshot_count := g_screenshot_count group |}.

Definition captured_at_leb (a b : ScreenshotRecord) : bool :=
  sr_captured_at a <=? sr_captured_at b.

Definition build_timeline_cards (records : list ScreenshotRecord)
    (fallback_interval_seconds : Q) : list TimelineCard :=
  match records with
  | [] => []
  | _ =>
      let ordered := stable_sort captured_at_leb records in
      let fallback := Z.max 1 (PyFloat.round fallback_interval_seconds) in
      let max_gap := Z.max 30 (fallback * 2) in
      let merge_tolerance := timedelta_seconds 5 in
      let grouped := group_loop fallback max_gap merge_tolerance ordered [] in
      card_of_group <$> grouped
  end.

Definition format_duration (total_seconds : Z) : string :=
  let seconds := Z.max 0 total_seconds in
  let hours := seconds / 3600 in
  let remainder := seconds mod 3600 in
  let minutes := remainder / 60 in
  let secs := remainder mod 60 in
  if negb (hours =? 0)
  then (PyText.str_of_int hours ++ "h " ++ PyText.format_02d minutes ++ "m")%string
  else if negb (minutes =? 0)
  then (PyText.str_of_int minutes ++ "m " ++ PyText.format_02d secs ++ "s")%string
  else (PyText.str_of_int secs ++ "s")%string.

End Timeline.

(** ** Texts of arbitrary code points

    A text a decoder builds can hold any code point: an escape in a reply
    may name one of 256 or more.  Such a text is the list of its code
    points. *)

Module UText.

Definition ustring : Type := list N.

Definition of_string (s : string) : ustring :=
  PyText.code <$> list_ascii_of_string s.

(** The text as a [string], when every code point is below 256. *)
Fixpoint to_string (u : ustring) : option string :=
  match u with
  | [] => Some EmptyString
  | n :: r =>
      if (n <? 256)%N
      then match to_string r with
           | Some s => Some (String (ascii_of_N n) s)
           | None => None
           end
      else None
  end.

(** [str.isspace] on one code point: below 256 as [PyText.isspace], and
    above it the spaces of the general punctuation block and their kin:
    U+1680, U+2000..U+200A, U+2028, U+2029, U+202F, U+205F, U+3000. *)
Definition isspace (n : N) : bool :=
  (((9 <=? n) && (n <=? 13)) || ((28 <=? n) && (n <=? 32))
   || (n =? 133) || (n =? 160) || (n =? 5760)
   || ((8192 <=? n) && (n <=? 8202))
   || (n =? 8232) || (n =? 8233) || (n =? 8239) || (n =? 8287)
   || (n =? 12288))%N.

Fixpoint lstrip (u : ustring) : ustring :=
  match u with
  | [] => []
  | n :: r => if isspace n then lstrip r else u
  end.

Fixpoint rstrip (u : ustring) : ustring :=
  match u with
  | [] => []
  | n :: r =>
      match rstrip r with
      | [] => if isspace n then [] else [n]
      | r' => n :: r'
      end
  end.

(** [s.strip()] *)
Definition strip (u : ustring) : ustring := rstrip (lstrip u).

(** [sep.join(parts)] *)
Fixpoint join (sep : ustring) (parts : list ustring) : ustring :=
  match parts with
  | [] => []
  | [p] => p
  | p :: rest => p ++ sep ++ join sep rest
  end.

End UText.

(** ** The decoder [json.loads]

    The standard library's decoder, written out from its grammar: values
    are objects, arrays, strings, numbers, [true], [false], [null] and the
    three non-finite literals; white space is space, tab, line feed and
    carriage return; a text decodes when one value spans it up to white
    space.  A float is kept as its literal.  A string is the list of its
    code points: [\uXXXX] escapes are decoded, a high surrogate followed
    by the escape of a low one giving the code point of the pair.

    The decoder raises [JSONDecodeError] on a text outside the grammar,
    and two more exceptions.  An integer literal of more than 4300 digits
    raises [ValueError] (the default of [sys.get_int_max_str_digits]; the
    message is abridged).  Every array and object takes one level of the
    interpreter's recursion, and [RecursionError] is raised when none is
    left: [depth] is the number of levels left when the decoder is called.

    The recursion of the scanner is bounded by a fuel of twice the length
    of the text, which the grammar cannot exhaust (lemma [loads_fuel]). *)

Module Json.

#[warnings="-register-all"]
Inductive json : Type :=
| JNull
| JBool (b : bool)
| JInt (n : Z)
| JFloat (literal : string)
| JStr (s : UText.ustring)
| JArr (items : list json)
| JObj (members : list (UText.ustring * json)).

(** [obj[key]] of the [dict] built from the members: the last binding of a
    repeated key wins. *)
Fixpoint obj_get (key : string) (members : list (UText.ustring * json))
    : option json :=
  match members with
  | [] => None
  | (k, v) :: rest =>
      match obj_get key rest with
      | Some v' => Some v'
      | None => if bool_decide (k = UText.of_string key) then Some v else None
      end
  end.

Definition is_object (v : json) : Prop := exists members, v = JObj members.

Definition json_ws (c : ascii) : bool :=
  (Ascii.eqb c " " || Ascii.eqb c "009" || Ascii.eqb c "010" || Ascii.eqb c "013")%char.

Fixpoint skip_ws (s : list ascii) : list ascii :=
  match s with
  | c :: r => if json_ws c then skip_ws r else s
  | [] => []
  end.

Fixpoint strip_prefix (lit s : list ascii) : option (list ascii) :=
  match lit, s with
  | [], _ => Some s
  | a :: lit', b :: s' => if Ascii.eqb a b then strip_prefix lit' s' else None
  | _ :: _, [] => None
  end.

Definition hex_value (c : ascii) : option N :=
  let n := PyText.code c in
  (if (48 <=? n) && (n <=? 57) then Some (n - 48)
   else if (65 <=? n) && (n <=? 70) then Some (n - 55)
   else if (97 <=? n) && (n <=? 102) then Some (n - 87)
   else None)%N.

Definition hex4 (a b c d : ascii) : option N :=
  match hex_value a, hex_value b, hex_value c, hex_value d with
  | Some x, Some y, Some z, Some w => Some (((x * 16 + y) * 16 + z) * 16 + w)%N
  | _, _, _, _ => None
  end.

(** U+D800..U+DBFF and U+DC00..U+DFFF *)
Definition is_high_surrogate (n : N) : bool := ((55296 <=? n) && (n <=? 56319))%N.
Definition is_low_surrogate (n : N) : bool := ((56320 <=? n) && (n <=? 57343))%N.

Definition join_surrogates (high low : N) : N :=
  (65536 + (high - 55296) * 1024 + (low - 56320))%N.

(** One escape, from the character after the backslash: the code point
    it names and the text left.  A high surrogate directly followed by the
    escape of a low surrogate names the code point of the pair. *)
Definition scan_escape (s : list ascii) : option (N * list ascii) :=
  match s with
  | [] => None
  | e :: r =>
      if Ascii.eqb e "034" then Some (34%N, r)
      else if Ascii.eqb e "\" then Some (92%N, r)
      else if Ascii.eqb e "/" then Some (47%N, r)
      else if Ascii.eqb e "b" then Some (8%N, r)
      else if Ascii.eqb e "f" then Some (12%N, r)
      else if Ascii.eqb e "n" then Some (10%N, r)
      else if Ascii.eqb e "r" then Some (13%N, r)
      else if Ascii.eqb e "t" then Some (9%N, r)
      else if Ascii.eqb e "u" then
        match r with
        | a :: b :: c :: d :: r' =>
            match hex4 a b c d with
            | None => None
            | Some n =>
                match r' with
                | e1 :: e2 :: a2 :: b2 :: c2 :: d2 :: r'' =>
                    if is_high_surrogate n && Ascii.eqb e1 "\" && Ascii.eqb e2 "u"
                    then
                      match hex4 a2 b2 c2 d2 with
                      | None => None
                      | Some n2 =>
                          if is_low_surrogate n2
                          then Some (join_surrogates n n2, r'')
                          else Some (n, r')
                      end
                    else Some (n, r')
                | _ => Some (n, r')
                end
            end
        | _ => None
        end
      else None
  end.

(** The body of a string after its opening quote.  Every step takes at
    least one character, so a fuel of the length of the text is never
    used up (lemma [scan_string_fuel]). *)
Fixpoint scan_string (fuel : nat) (s : list ascii) (acc : list N)
    : result (UText.ustring * list ascii) :=
  match fuel, s with
  | S fuel', c :: r =>
      if Ascii.eqb c "034" then Ok (rev acc, r)
      else if Ascii.eqb c "\" then
        match scan_escape r with
        | Some (n, r') => scan_string fuel' r' (n :: acc)
        | None => Raise JSONDecodeError
        end
      else if (PyText.code c <? 32)%N then Raise JSONDecodeError
      else scan_string fuel' r (PyText.code c :: acc)
  | _, _ => Raise JSONDecodeError
  end.

Definition scan_text (s : list ascii) : result (UText.ustring * list ascii) :=
  scan_string (length s) s [].

Fixpoint span_digits (s : list ascii) : list ascii * list ascii :=
  match s with
  | c :: r => if PyText.isdecimal c
              then let '(ds, r') := span_digits r in (c :: ds, r')
              else ([], s)
  | [] => ([], [])
  end.

(** The integer part of a number: an optional minus sign, then either a
    single zero or a non-zero digit followed by digits. *)
Definition scan_integer (s : list ascii) : option (list ascii * list ascii) :=
  let '(sign, s1) :=
    match s with
    | "-"%char :: r => (["-"%char], r)
    | _ => ([], s)
    end in
  match s1 with
  | c :: r =>
      if Ascii.eqb c "0" then Some (sign ++ [c], r)
      else if PyText.isdecimal c
      then let '(ds, r') := span_digits r in Some (sign ++ c :: ds, r')
      else None
  | [] => None
  end.

(** The optional fraction: a dot followed by at least one digit. *)
Definition scan_fraction (s : list ascii) : list ascii * list ascii :=
  match s with
  | "."%char :: r =>
      match span_digits r with
      | ([], _) => ([], s)
      | (ds, r') => ("."%char :: ds, r')
      end
  | _ => ([], s)
  end.

(** The optional exponent: e or E, an optional sign, at least one digit. *)
Definition scan_exponent (s : list ascii) : list ascii * list ascii :=
  match s with
  | e :: r =>
      if Ascii.eqb e "e" || Ascii.eqb e "E" then
        let '(sign, r1) :=
          match r with
          | c :: r' => if Ascii.eqb c "-" || Ascii.eqb c "+"
                       then ([c], r') else ([], r)
          | [] => ([], r)
          end in
        match span_digits r1 with
        | ([], _) => ([], s)
        | (ds, r2) => (e :: sign ++ ds, r2)
        end
      else ([], s)
  | [] => ([], s)
  end.

Definition integer_value (digits : list ascii) : Z :=
  match digits with
  | "-"%char :: ds => - PyText.decimal_value 0 (string_of_list_ascii ds)
  | _ => PyText.decimal_value 0 (string_of_list_ascii digits)
  end.

(** The digits of an integer literal, its sign apart. *)
Definition digit_count (digits : list ascii) : nat :=
  match digits with
  | "-"%char :: ds => length ds
  | _ => length digits
  end.

Definition int_max_str_digits : nat := 4300.

Definition scan_number (s : list ascii) : result (json * list ascii) :=
  match scan_integer s with
  | None => Raise JSONDecodeError
  | Some (int_part, r) =>
      let '(frac, r1) := scan_fraction r in
      let '(exp, r2) := scan_exponent r1 in
      match frac, exp with
      | [], [] =>
          if (int_max_str_digits <? digit_count int_part)%nat
          then Raise (ValueError
                 "Exceeds the limit (4300 digits) for integer string conversion")
          else Ok (JInt (integer_value int_part), r2)
      | _, _ => Ok (JFloat (string_of_list_ascii (int_part ++ frac ++ exp)), r2)
      end
  end.

Definition scan_literal (s : list ascii) : result (json * list ascii) :=
  let lit (text : string) (v : json) :=
    match strip_prefix (list_ascii_of_string text) s with
    | Some r => Some (v, r)
    | None => None
    end in
  match lit "null" JNull with
  | Some x => Ok x
  | None =>
  match lit "true" (JBool true) with
  | Some x => Ok x
  | None =>
  match lit "false" (JBool false) with
  | Some x => Ok x
  | None =>
  match scan_number s with
  | Ok x => Ok x
  | Raise JSONDecodeError =>
      match lit "NaN" (JFloat "NaN") with
      | Some x => Ok x
      | None =>
      match lit "Infinity" (JFloat "Infinity") with
      | Some x => Ok x
      | None =>
      match lit "-Infinity" (JFloat "-Infinity") with
      | Some x => Ok x
      | None => Raise JSONDecodeError
      end end end
  | Raise e => Raise e
  end end end end.

(** One value at the head of [s] (no leading white space), and the text
    left after it. *)
Fixpoint scan_once (fuel depth : nat) (s : list ascii)
    : result (json * list ascii) :=
  match fuel with
  | O => Raise JSONDecodeError
  | S fuel' =>
      match s with
      | "034"%char :: r =>
          match scan_text r with
          | Ok (str, r') => Ok (JStr str, r')
          | Raise e => Raise e
          end
      | "{"%char :: r =>
          match depth with
          | O => Raise RecursionError
          | S depth' =>
              match skip_ws r with
              | "}"%char :: r' => Ok (JObj [], r')
              | "034"%char :: r' => scan_members fuel' depth' r' []
              | _ => Raise JSONDecodeError
              end
          end
      | "["%char :: r =>
          match depth with
          | O => Raise RecursionError
          | S depth' =>
              match skip_ws r with
              | "]"%char :: r' => Ok (JArr [], r')
              | r' => scan_items fuel' depth' r' []
              end
          end
      | _ => scan_literal s
      end
  end

(** The items of an array, from the first character of an item. *)
with scan_items (fuel depth : nat) (s : list ascii) (acc : list json)
    : result (json * list ascii) :=
  match fuel with
  | O => Raise JSONDecodeError
  | S fuel' =>
      match scan_once fuel' depth s with
      | Ok (v, r) =>
          match skip_ws r with
          | ","%char :: r' => scan_items fuel' depth (skip_ws r') (v :: acc)
          | "]"%char :: r' => Ok (JArr (rev (v :: acc)), r')
          | _ => Raise JSONDecodeError
          end
      | Raise e => Raise e
      end
  end

(** The members of an object, from just after the opening quote of a key. *)
with scan_members (fuel depth : nat) (s : list ascii)
    (acc : list (UText.ustring * json)) : result (json * list ascii) :=
  match fuel with
  | O => Raise JSONDecodeError
  | S fuel' =>
      match scan_text s with
      | Ok (key, r) =>
          match skip_ws r with
          | ":"%char :: r1 =>
              match scan_once fuel' depth (skip_ws r1) with
              | Ok (v, r2) =>
                  match skip_ws r2 with
                  | "}"%char :: r3 => Ok (JObj (rev ((key, v) :: acc)), r3)
                  | ","%char :: r3 =>
                      match skip_ws r3 with
                      | "034"%char :: r4 =>
                          scan_members fuel' depth r4 ((key, v) :: acc)
                      | _ => Raise JSONDecodeError
                      end
                  | _ => Raise JSONDecodeError
                  end
              | Raise e => Raise e
              end
          | _ => Raise JSONDecodeError
          end
      | Raise e => Raise e
      end
  end.

(** [json.loads(text)], called with [depth] levels of recursion left. *)
Definition loads (depth : nat) (text : string) : result json :=
  let s := list_ascii_of_string text in
  match scan_once (S (2 * length s)) depth (skip_ws s) with
  | Ok (v, r) =>
      match skip_ws r with
      | [] => Ok v
      | _ => Raise JSONDecodeError
      end
  | Raise e => Raise e
  end.

(** The exceptions of the decoder. *)
Definition decoder_error (e : exn) : Prop :=
  e = JSONDecodeError \/ (exists msg, e = ValueError msg) \/ e = RecursionError.

End Json.

(** ** ai.py *)

Module Ai.
Import Models.

(** *** Downsampling *)

(** [rows[::step]], entered with [skip = 0]: [skip] counts the elements to
    pass over before the next one is taken. *)
Fixpoint stride {A} (step skip : nat) (rows : list A) : list A :=
  match rows with
  | [] => []
  | x :: rest =>
      match skip with
      | O => x :: stride step (pred step) rest
      | S k => stride step k rest
      end
  end.

(** [max_items] is a natural number; a negative cap is not modelled. *)
Definition _sample_screenshots (rows : list ScreenshotRecord) (max_items : nat)
    : result (list ScreenshotRecord) :=
  if (length rows <=? max_items)%nat then Ok rows
  else match max_items with
  | O => Raise ZeroDivisionError
  | _ =>
    let step := Nat.max 1 (length rows / max_items) in
    let sampled := stride step 0 rows in
    let sampled :=
      if (max_items <? length sampled)%nat then firstn max_items sampled
      else sampled in
    match last sampled, last rows with
    | Some s_last, Some r_last =>
        if negb (sr_id s_last =? sr_id r_last)
        then Ok (<[pred (length sampled) := r_last]> sampled)
        else Ok sampled
    | _, _ => Ok sampled
    end
  end.

(** Line 39 of [AITimelineGenerator.generate] *)
Definition generate_sample (screenshots : list ScreenshotRecord)
    : result (list ScreenshotRecord) :=
  _sample_screenshots screenshots 20.

(** *** Untrusted values

    A field of a candidate card is any decoded value.  [str()] is written
    out for texts, [None], booleans and integers; a value of another type
    (float, list, dict) is carried by the text [str()] gives for it. *)

Inductive pyval : Type :=
| PStr (s : string)
| PNone
| PBool (b : bool)
| PInt (n : Z)
| POther (str_text : string).

Definition str (v : pyval) : string :=
  match v with
  | PStr s => s
  | PNone => "None"
  | PBool true => "True"
  | PBool false => "False"
  | PInt n => PyText.str_of_int n
  | POther t => t
  end.

(** An element of [raw_cards]: a dict, or something that is not one. *)
Inductive entry : Type :=
| EntryDict (d : gmap string pyval)
| EntryOther.

(** The argument of [_normalize_cards]: a list, or something that is not. *)
Inductive raw_cards : Type :=
| CardsList (entries : list entry)
| CardsOther.

(** [d.get(key, default)] *)
Definition get {V} (d : gmap string V) (key : string) (fallback : V) : V :=
  default fallback (d !! key).

Definition _norm_hhmm (value : string) : result string :=
  let value := PyText.strip value in
  if (String.length value =? 5)%nat
     && bool_decide (String.get 2 value = Some ":"%char)
     && PyText.isdigit (PyText.remove_char ":" value)
  then
    let* hh := PyText.int (PyText.take 2 value) in
    let* mm := PyText.int (PyText.drop 3 value) in
    if (0 <=? hh) && (hh <=? 23) && (0 <=? mm) && (mm <=? 59)
    then Ok (PyText.format_02d hh ++ ":" ++ PyText.format_02d mm)%string
    else Ok ""
  else Ok "".

Definition is_empty (s : string) : bool :=
  match s with EmptyString => true | _ => false end.

Definition card_dict (start end_ title summary category : string)
    : gmap string string :=
  <["start" := start]> (<["end" := end_]> (<["title" := title]>
    (<["summary" := summary]> (<["category" := category]> ∅)))).

(** Lines 423-441: the loop over [raw_cards]. *)
Fixpoint normalize_loop (raw : list entry) (cards : list (gmap string string))
    : result (list (gmap string string)) :=
  match raw with
  | [] => Ok cards
  | EntryOther :: rest => normalize_loop rest cards
  | EntryDict e :: rest =>
      let* start := _norm_hhmm (PyText.strip (str (get e "start" (PStr "")))) in
      let* end_ := _norm_hhmm (PyText.strip (str (get e "end" (PStr "")))) in
      let title := PyText.strip (str (get e "title" (PStr ""))) in
      let summary := PyText.strip (str (get e "summary" (PStr ""))) in
      let category :=
        Timeline.or_text (PyText.strip (str (get e "category" (PStr "Other"))))
          "Other" in
      if is_empty start || is_empty end_ || is_empty title
      then normalize_loop rest cards
      else normalize_loop rest
             (cards ++ [card_dict start end_ title summary category])
  end.

Definition _normalize_cards (raw : raw_cards) : result (list (gmap string string)) :=
  match raw with
  | CardsOther => Ok []
  | CardsList entries => normalize_loop entries []
  end.

(** *** Extraction of the JSON object *)

(** [depth] is the number of levels of recursion left for the decoder.
    Only [json.JSONDecodeError] is caught: what else the decoder raises
    leaves the function as it is. *)
Definition _parse_ai_json (depth : nat) (text : string) : result Json.json :=
  let trimmed := PyText.strip text in
  if is_empty trimmed then Raise (RuntimeError "AI response was empty.")
  else
    match Json.loads depth trimmed with
    | Ok v => Ok v
    | Raise JSONDecodeError =>
        let start := PyText.find "{" trimmed in
        let end_ := PyText.rfind "}" trimmed in
        if (start =? -1) || (end_ =? -1) || (end_ <=? start)
        then Raise (RuntimeError "AI response did not contain valid JSON.")
        else
          match Json.loads depth (PyText.slice start (end_ + 1) trimmed) with
          | Ok v => Ok v
          | Raise JSONDecodeError =>
              Raise (RuntimeError "AI response contained invalid JSON.")
          | Raise e => Raise e
          end
    | Raise e => Raise e
    end.

End Ai.

(** ** database.py *)

Module Database.
Import Models.

Record ScreenshotRow : Type := mkScreenshotRow {
  ss_id : Z;
  ss_captured_at : string;
  ss_file_path : string;
  ss_file_size : Z;
  ss_window_title : string;
  ss_process_name : string
}.

Record CardRow : Type := mkCardRow {
  cr_id : Z;
  cr_day : string;
  cr_start_time : string;
  cr_end_time : string;
  cr_title : string;
  cr_summary : string;
  cr_category : string
}.

(** The tables the pipeline uses, and the screenshot files on disk.  A
    row of [ai_daily_summaries] is the pair of its summary and its
    [updated_at]. *)
Record Store : Type := mkStore {
  screenshots : list ScreenshotRow;
  screenshots_seq : Z;
  ai_timeline_cards : list CardRow;
  ai_timeline_cards_seq : Z;
  ai_daily_summaries : gmap string (string * string);
  files : gset string
}.

Definition empty_store : Store :=
  {| screenshots := []; screenshots_seq := 0;
     ai_timeline_cards := []; ai_timeline_cards_seq := 0;
     ai_daily_summaries := ∅; files := ∅ |}.

(** [captured_at] is passed as the text [captured_at.isoformat()]. *)
Definition insert_screenshot (captured_at file_path : string) (file_size : Z)
    (window_title process_name : string) (db : Store) : Store * Z :=
  let rowid := screenshots_seq db + 1 in
  let row := {| ss_id := rowid; ss_captured_at := captured_at;
                ss_file_path := file_path; ss_file_size := file_size;
                ss_window_title := window_title;
                ss_process_name := process_name |} in
  ({| screenshots := screenshots db ++ [row]; screenshots_seq := rowid;
      ai_timeline_cards := ai_timeline_cards db;
      ai_timeline_cards_seq := ai_timeline_cards_seq db;
      ai_daily_summaries := ai_daily_summaries db;
      files := files db |}, rowid).

(** [insert_screenshot] as the recorder calls it: [captured_at] is the
    instant of the capture with its UTC offset in minutes, stored as the
    text of [captured_at.isoformat()]. *)
Definition insert_screenshot_at (captured_at : datetime) (utcoffset : Z)
    (file_path : string) (file_size : Z) (window_title process_name : string)
    (db : Store) : Store * Z :=
  insert_screenshot (isoformat captured_at utcoffset) file_path file_size
    window_title process_name db.

(** Lines 184-200: one INSERT per card. *)
Fixpoint insert_cards (day : string) (cards : list (gmap string string))
    (table : list CardRow) (seq : Z) : list CardRow * Z :=
  match cards with
  | [] => (table, seq)
  | card :: rest =>
      let row :=
        {| cr_id := seq + 1; cr_day := day;
           cr_start_time := PyText.strip (Ai.get card "start" "");
           cr_end_time := PyText.strip (Ai.get card "end" "");
           cr_title := PyText.strip (Ai.get card "title" "");
           cr_summary := PyText.strip (Ai.get card "summary" "");
           cr_category := PyText.strip (Ai.get card "category" "") |} in
      insert_cards day rest (table ++ [row]) (seq + 1)
  end.

(** The rows those INSERTs add, in order. *)
Fixpoint new_rows (day : string) (cards : list (gmap string string)) (seq : Z)
    : list CardRow :=
  match cards with
  | [] => []
  | card :: rest =>
      {| cr_id := seq + 1; cr_day := day;
         cr_start_time := PyText.strip (Ai.get card "start" "");
         cr_end_time := PyText.strip (Ai.get card "end" "");
         cr_title := PyText.strip (Ai.get card "title" "");
         cr_summary := PyText.strip (Ai.get card "summary" "");
         cr_category := PyText.strip (Ai.get card "category" "") |}
      :: new_rows day rest (seq + 1)
  end.

(** [now] is the text of [datetime.now().astimezone().isoformat()]. *)
Definition replace_ai_timeline_for_day (day : string)
    (cards : list (gmap string string)) (daily_summary : string)
    (now : string) (db : Store) : Store :=
  let deleted := filter (fun r => cr_day r ≠ day) (ai_timeline_cards db) in
  let '(table, seq) :=
    insert_cards day cards deleted (ai_timeline_cards_seq db) in
  {| screenshots := screenshots db; screenshots_seq := screenshots_seq db;
     ai_timeline_cards := table; ai_timeline_cards_seq := seq;
     ai_daily_summaries :=
       <[day := (PyText.strip daily_summary, now)]> (ai_daily_summaries db);
     files := files db |}.

(** ORDER BY start_time ASC, id ASC *)
Definition card_row_leb (a b : CardRow) : bool :=
  String.ltb (cr_start_time a) (cr_start_time b)
  || (String.eqb (cr_start_time a) (cr_start_time b) && (cr_id a <=? cr_id b)).

Definition card_of_row (row : CardRow) : AITimelineCard :=
  {| ac_id := cr_id row; ac_day := cr_day row;
     ac_start := cr_start_time row; ac_end := cr_end_time row;
     ac_title := cr_title row; ac_summary := cr_summary row;
     ac_category := cr_category row |}.

Definition list_ai_timeline_for_day (day : string) (db : Store)
    : list AITimelineCard :=
  let rows :=
    stable_sort card_row_leb
      (filter (fun r => cr_day r = day) (ai_timeline_cards db)) in
  card_of_row <$> rows.

Definition get_ai_daily_summary (day : string) (db : Store) : string :=
  match ai_daily_summaries db !! day with
  | None => ""
  | Some row => fst row
  end.

(** SELECT COALESCE(SUM(file_size), 0) *)
Definition sum_file_size (rows : list ScreenshotRow) : Z :=
  foldr (fun r acc => ss_file_size r + acc) 0 rows.

Definition total_screenshot_bytes (db : Store) : Z :=
  sum_file_size (screenshots db).

(** ORDER BY captured_at ASC *)
Definition captured_at_leb (a b : ScreenshotRow) : bool :=
  String.leb (ss_captured_at a) (ss_captured_at b).

(** Lines 404-419: the sweep over the rows selected before it began.  The
    state is the table, the files, [current] and the two counters. *)
Fixpoint enforce_loop (max_bytes : Z) (rows : list ScreenshotRow)
    (table : list ScreenshotRow) (fs : gset string)
    (current removed_count removed_bytes : Z)
    : list ScreenshotRow * gset string * (Z * Z) :=
  match rows with
  | [] => (table, fs, (removed_count, removed_bytes))
  | row :: rest =>
      if current <=? max_bytes then (table, fs, (removed_count, removed_bytes))
      else
        let file_size := ss_file_size row in
        let fs := fs ∖ {[ss_file_path row]} in
        let table := filter (fun r => ss_id r ≠ ss_id row) table in
        enforce_loop max_bytes rest table fs
          (current - file_size) (removed_count + 1) (removed_bytes + file_size)
  end.

Definition enforce_storage_limit (max_bytes : Z) (db : Store)
    : Store * (Z * Z) :=
  if max_bytes <=? 0 then (db, (0, 0))
  else
    let current := sum_file_size (screenshots db) in
    if current <=? max_bytes then (db, (0, 0))
    else
      let rows := stable_sort captured_at_leb (screenshots db) in
      let '(table, fs, counts) :=
        enforce_loop max_bytes rows (screenshots db) (files db) current 0 0 in
      ({| screenshots := table; screenshots_seq := screenshots_seq db;
          ai_timeline_cards := ai_timeline_cards db;
          ai_timeline_cards_seq := ai_timeline_cards_seq db;
          ai_daily_summaries := ai_daily_summaries db;
          files := fs |}, counts).


(** *** Screenshots of a day *)

(** WHERE substr(captured_at, 1, 10) = ? ORDER BY captured_at ASC, the
    parameter being the text [day.isoformat()]. *)
Definition rows_for_day (day : string) (db : Store) : list ScreenshotRow :=
  stable_sort captured_at_leb
    (filter (fun r => PyText.take 10 (ss_captured_at r) = day) (screenshots db)).

Definition list_screenshot_paths_for_day (day : string) (db : Store)
    : list string :=
  ss_file_path <$> rows_for_day day db.

(** [fromisoformat] is [datetime.fromisoformat] and [now] the instant
    [datetime.now().astimezone()] the fallback reads. *)
Definition _row_to_record (fromisoformat : string -> result datetime)
    (now : datetime) (row : ScreenshotRow) : ScreenshotRecord :=
  let captured_at :=
    match fromisoformat (ss_captured_at row) with
    | Ok t => t
    | Raise _ => now
    end in
  {| sr_id := ss_id row; sr_captured_at := captured_at;
     sr_file_path := ss_file_path row; sr_file_size := ss_file_size row;
     sr_window_title := ss_window_title row;
     sr_process_name := ss_process_name row |}.

Definition list_screenshots_for_date (fromisoformat : string -> result datetime)
    (now : datetime) (day : string) (db : Store) : list ScreenshotRecord :=
  _row_to_record fromisoformat now <$> rows_for_day day db.

End Database.

(** ** capture.py and the interval handling of app.py *)

Module Capture.
Import PyFloat.

(** The fields of [ScreenCaptureService] that [start] reads and writes;
    [running] is [is_running]. *)
Record ScreenCaptureService : Type := mkService {
  _interval_seconds : pyfloat;
  running : bool
}.

(** [__init__] *)
Definition new_service : ScreenCaptureService :=
  {| _interval_seconds := Finite 10; running := false |}.

Definition start (interval_seconds : pyfloat) (svc : ScreenCaptureService)
    : ScreenCaptureService * bool :=
  let interval_seconds := fmax (Finite 1) interval_seconds in
  if running svc then (svc, false)
  else ({| _interval_seconds := interval_seconds; running := true |}, true).

End Capture.

Module App.
Import PyFloat.

(** [typed] is the outcome of [float(self.interval_var.get().strip())] and
    [setting] the value of [get_setting_float(INTERVAL_SETTING_KEY, 10.0)]. *)
Definition _current_interval (typed : result pyfloat) (setting : pyfloat)
    : pyfloat :=
  match typed with
  | Raise _ => fmax (Finite 2) (fmin (Finite 300) setting)
  | Ok value => fmax (Finite 2) (fmin (Finite 300) value)
  end.

(** [_start_capture], up to the call of [start]; the interval is also
    written to the settings table. *)
Definition _start_capture (typed : result pyfloat) (setting : pyfloat)
    (svc : Capture.ScreenCaptureService) : Capture.ScreenCaptureService * bool :=
  let interval := _current_interval typed setting in
  Capture.start interval svc.

(** *** Storage limit and cleanup *)

(** [int()] of a float fails in two ways; [Exn] carries the exceptions
    shared with the other modules. *)
Inductive failure : Type :=
| Exn (e : exn)
| OverflowError.

Inductive outcome (A : Type) : Type :=
| Returns (a : A)
| Raises (f : failure).
Arguments Returns {A} a.
Arguments Raises {A} f.

(** [x * 1024] on a double: scaling by a power of two is exact, and a
    product of 2^1024 or more is infinite. *)
Definition times_1024 (x : pyfloat) : pyfloat :=
  match x with
  | Finite q =>
      let p := (q * 1024)%Q in
      if Qle_bool (2 ^ 1024) p then PosInf
      else if Qle_bool p (- 2 ^ 1024) then NegInf
      else Finite p
  | other => other
  end.

(** [int(x)] *)
Definition int_of_float (x : pyfloat) : outcome Z :=
  match x with
  | Finite q => Returns (trunc q)
  | NaN => Raises (Exn (ValueError "cannot convert float NaN to integer"))
  | _ => Raises OverflowError
  end.

(** [typed] is the outcome of [float(self.storage_limit_gb_var.get().strip())]. *)
Definition _storage_limit_bytes (typed : result pyfloat) : outcome Z :=
  match typed with
  | Raise (ValueError _) => Returns 0
  | Raise e => Raises (Exn e)
  | Ok gb =>
      if fle gb (Finite 0) then Returns 0
      else int_of_float (times_1024 (times_1024 (times_1024 gb)))
  end.

(** [_cleanup_now], without the log line and the refresh: the store and the
    counts the line reports. *)
Definition _cleanup_now (typed : result pyfloat) (db : Database.Store)
    : outcome (Database.Store * (Z * Z)) :=
  match _storage_limit_bytes typed with
  | Raises f => Raises f
  | Returns limit_bytes => Returns (Database.enforce_storage_limit limit_bytes db)
  end.

(** [_maybe_cleanup_storage]: the store, and the counts when a line is
    logged. *)
Definition _maybe_cleanup_storage (typed : result pyfloat) (db : Database.Store)
    : outcome (Database.Store * option (Z * Z)) :=
  match _storage_limit_bytes typed with
  | Raises f => Raises f
  | Returns limit_bytes =>
      if limit_bytes <=? 0 then Returns (db, None)
      else
        let '(db', (removed_count, removed_bytes)) :=
          Database.enforce_storage_limit limit_bytes db in
        if 0 <? removed_count
        then Returns (db', Some (removed_count, removed_bytes))
        else Returns (db', None)
  end.

(** *** Categories of the timeline view *)

(** [text in {...}] *)
Definition mem (text : string) (choices : list string) : bool :=
  existsb (String.eqb text) choices.

(** [needle in hay] on texts *)
Fixpoint contains (needle hay : string) : bool :=
  String.prefix needle hay
  || match hay with
     | EmptyString => false
     | String _ rest => contains needle rest
     end.

Definition _normalize_category (raw : string) : string :=
  let text := PyText.lower (PyText.strip raw) in
  if mem text ["coding"; "research"; "writing"; "design"] then "Core"
  else if mem text ["communication"; "meeting"] then "Personal"
  else if mem text ["browsing"; "other"; "distractions"] then "Distractions"
  else if mem text ["idle"] then "Idle"
  else "Core".

Definition _filter_matches (filter_key category : string) : bool :=
  if String.eqb filter_key "all" then true
  else if String.eqb filter_key "core" then String.eqb category "Core"
  else if String.eqb filter_key "personal" then String.eqb category "Personal"
  else if String.eqb filter_key "distractions"
  then String.eqb category "Distractions"
  else if String.eqb filter_key "idle" then String.eqb category "Idle"
  else true.

Definition _infer_category_from_classic (process_name window_title : string)
    : string :=
  let p := PyText.lower process_name in
  let w := PyText.lower window_title in
  if contains "idle" p || contains "idle" w then "Idle"
  else if existsb (fun k => contains k w)
            ["twitter"; "x.com"; "instagram"; "youtube"; "reddit"; "doomscroll"]
  then "Distractions"
  else if existsb (fun k => contains k p)
            ["chrome"; "msedge"; "firefox"; "safari"]
  then "Distractions"
  else if existsb (fun k => contains k w)
            ["meet"; "zoom"; "slack"; "discord"; "teams"; "call"]
  then "Personal"
  else if existsb (fun k => contains k p)
            ["code"; "pycharm"; "idea"; "notion"; "figma"; "terminal"]
  then "Core"
  else "Core".

Definition display_dict (time_label title subtitle category : string)
    : gmap string string :=
  <["time_label" := time_label]> (<["title" := title]>
    (<["subtitle" := subtitle]> (<["category" := category]> ∅))).

Definition ai_display (selected_filter : string) (card : Models.AITimelineCard)
    : option (gmap string string) :=
  let category := _normalize_category (Models.ac_category card) in
  if negb (_filter_matches selected_filter category) then None
  else Some (display_dict (Models.ac_start card) (Models.ac_title card)
               (Models.ac_start card ++ " - " ++ Models.ac_end card ++ "  |  "
                ++ Timeline.or_text (Models.ac_summary card) category)%string
               category).

Definition classic_display (_fmt_time : Models.datetime -> string)
    (selected_filter : string) (card : Models.TimelineCard)
    : option (gmap string string) :=
  let category :=
    _infer_category_from_classic (Models.tc_process_name card)
      (Models.tc_window_title card) in
  if negb (_filter_matches selected_filter category) then None
  else
    let start_s := _fmt_time (Models.tc_start card) in
    let end_s := _fmt_time (Models.tc_end card) in
    Some (display_dict start_s
            (Timeline.or_text (PyText.take 84 (Models.tc_window_title card))
               (Models.tc_process_name card))
            (start_s ++ " - " ++ end_s ++ "  |  "
             ++ Models.tc_process_name card)%string
            category).

(** [_timeline_display_cards]: the stored AI cards of the day when there
    are any, the classic cards otherwise.  [_fmt_time] is the clock text of
    an instant in the local zone. *)
Definition _timeline_display_cards (_fmt_time : Models.datetime -> string)
    (selected_filter : string) (ai_cards : list Models.AITimelineCard)
    (classic_cards : list Models.TimelineCard) : list (gmap string string) :=
  match ai_cards with
  | _ :: _ => omap (ai_display selected_filter) ai_cards
  | [] => omap (classic_display _fmt_time selected_filter) classic_cards
  end.

(** *** The days a dashboard question is about *)

(** [text.endswith(suffix)] *)
Fixpoint endswith (suffix text : string) : bool :=
  String.eqb suffix text
  || match text with
     | EmptyString => false
     | String _ rest => endswith suffix rest
     end.

(** A [date] is its day number; [selected_day - timedelta(days=k)] is
    [selected_day - k]. *)
Definition _dashboard_query_days (question : string) (selected_day : Z)
    : list Z :=
  let text := PyText.lower (PyText.strip question) in
  if contains "yesterday" text then [selected_day - 1]
  else if existsb (fun token => contains token text)
            ["last week"; "past week"; "this week"; "week "]
          || endswith "week" text
  then (fun offset => selected_day - offset) <$> [6; 5; 4; 3; 2; 1; 0]
  else [selected_day].

End App.

(** ** ai.py: the text of a provider's reply *)

Module AiReply.
Import Json.

(** The exceptions of these functions: those shared with the other
    modules, and the two a value of the wrong type raises. *)
Inductive error : Type :=
| Fails (e : exn)
| AttributeError
| TypeError.

Inductive reply (A : Type) : Type :=
| Got (a : A)
| Error (e : error).
Arguments Got {A} a.
Arguments Error {A} e.

(** [value.get(key, fallback)]: only a dict has [get]. *)
Definition dict_get (value : json) (key : string) (fallback : json)
    : reply json :=
  match value with
  | JObj members => Got (default fallback (obj_get key members))
  | _ => Error AttributeError
  end.

(** [not text.strip()] *)
Definition is_blank (text : UText.ustring) : bool :=
  match UText.strip text with [] => true | _ => false end.

(** Lines 375-378: the loop over the elements of a list of parts. *)
Fixpoint first_text (parts : list json) : reply UText.ustring :=
  match parts with
  | [] => Error (Fails (RuntimeError "Gemini response did not include text output."))
  | part :: rest =>
      match dict_get part "text" JNull with
      | Error e => Error e
      | Got (JStr text) =>
          if negb (is_blank text) then Got text else first_text rest
      | Got _ => first_text rest
      end
  end.

Definition _extract_gemini_text (data : json) : reply UText.ustring :=
  match dict_get data "candidates" JNull with
  | Error e => Error e
  | Got (JArr (candidate :: _)) =>
      match dict_get candidate "content" (JObj []) with
      | Error e => Error e
      | Got content =>
          match dict_get content "parts" (JArr []) with
          | Error e => Error e
          | Got (JArr parts) => first_text parts
          | Got (JObj []) | Got (JStr []) =>
              Error (Fails (RuntimeError "Gemini response did not include text output."))
          | Got (JObj (_ :: _)) | Got (JStr (_ :: _)) =>
              (* iterating a dict or a text yields texts, which have no [get] *)
              Error AttributeError
          | Got _ => Error TypeError
          end
      end
  | Got _ => Error (Fails (RuntimeError "Gemini response missing candidates."))
  end.

(** Lines 391-395: the texts of the entries that are dicts with a text. *)
Fixpoint chunks (entries : list json) : list UText.ustring :=
  match entries with
  | [] => []
  | JObj members :: rest =>
      match obj_get "text" members with
      | Some (JStr text) => text :: chunks rest
      | _ => chunks rest
      end
  | _ :: rest => chunks rest
  end.

Definition newline : UText.ustring := [10%N].

Definition no_text_content : reply UText.ustring :=
  Error (Fails (RuntimeError "OpenAI-style response did not include text content.")).

Definition _extract_openai_text (data : json) : reply UText.ustring :=
  match dict_get data "choices" JNull with
  | Error e => Error e
  | Got (JArr (choice :: _)) =>
      match dict_get choice "message" (JObj []) with
      | Error e => Error e
      | Got message =>
          match dict_get message "content" JNull with
          | Error e => Error e
          | Got (JStr content) =>
              if negb (is_blank content) then Got content
              else no_text_content
          | Got (JArr entries) =>
              let joined := UText.strip (UText.join newline (chunks entries)) in
              if negb (is_blank joined) then Got joined else no_text_content
          | Got _ => no_text_content
          end
      end
  | Got _ => Error (Fails (RuntimeError "OpenAI-style response missing choices."))
  end.

(** [_call_gemini_json] and [_call_openai_style_json] after the request:
    the reply's text, then its JSON, decoded with [depth] levels of
    recursion left.  [_parse_ai_json] is embedded on texts of code points
    below 256; for a reply text with another code point the answer is
    [None], and nothing is said about it. *)
Definition parse_reply (depth : nat) (extract : json -> reply UText.ustring)
    (data : json) : option (reply json) :=
  match extract data with
  | Error e => Some (Error e)
  | Got text =>
      match UText.to_string text with
      | None => None
      | Some s =>
          match Ai._parse_ai_json depth s with
          | Ok v => Some (Got v)
          | Raise e => Some (Error (Fails e))
          end
      end
  end.

End AiReply.

(** ** ai.py: the request of [generate] *)

Module AiRequest.
Import Models.

Definition _resolve_openai_endpoint (provider endpoint : string) : string :=
  let custom := PyText.strip endpoint in
  if negb (Ai.is_empty custom) then custom
  else if String.eqb provider "local"
  then "http://localhost:1234/v1/chat/completions"
  else "https://api.openai.com/v1/chat/completions".

Definition _auth_headers (api_key : string) : gmap string string :=
  if Ai.is_empty (PyText.strip api_key) then ∅
  else {["Authorization" := ("Bearer " ++ PyText.strip api_key)%string]}.

(** The call [generate] makes: [_call_gemini_json] or
    [_call_openai_style_json] with these arguments (the prompt apart). *)
Inductive request : Type :=
| GeminiRequest (api_key model : string) (screenshots : list ScreenshotRecord)
| OpenAIRequest (endpoint api_key model : string)
    (screenshots : list ScreenshotRecord) (include_images : bool).

(** Lines 32-59 of [AITimelineGenerator.generate]: the checks, the sample
    and the choice of the call. *)
Definition generate_request (provider api_key model : string)
    (screenshots : list ScreenshotRecord) (endpoint : string) : result request :=
  match screenshots with
  | [] => Raise (ValueError "No screenshots available for selected date.")
  | _ :: _ =>
    if Ai.is_empty (PyText.strip model)
    then Raise (ValueError "Model is required.")
    else if (String.eqb provider "gemini" || String.eqb provider "openai")
            && Ai.is_empty (PyText.strip api_key)
    then Raise (ValueError "API key is required for this provider.")
    else
      let* sample := Ai._sample_screenshots screenshots 20 in
      if String.eqb provider "gemini"
      then Ok (GeminiRequest (PyText.strip api_key) (PyText.strip model) sample)
      else if String.eqb provider "openai" || String.eqb provider "local"
      then Ok (OpenAIRequest (_resolve_openai_endpoint provider endpoint)
                 (PyText.strip api_key) (PyText.strip model) sample
                 (String.eqb provider "openai"))
      else Raise (ValueError ("Unsupported provider: " ++ provider)%string)
  end.

(** *** The context of a question about the day *)

Definition newline : string := String "010" EmptyString.

Definition card_line (card : AITimelineCard) : string :=
  ("- " ++ ac_day card ++ " " ++ ac_start card ++ "-" ++ ac_end card
   ++ " [" ++ ac_category card ++ "] " ++ ac_title card ++ ": "
   ++ ac_summary card)%string.

(** Lines 267-285: the list [lines].  [day] is the text [day.isoformat()];
    an absent [captured_timeline] or [range_label] is [None]. *)
Definition context_lines (day : string) (cards : list AITimelineCard)
    (daily_summary : string) (captured_timeline : option (list string))
    (range_label : option string) : list string :=
  let label := Timeline.or_text (PyText.strip (default "" range_label)) day in
  let lines := [("Date range: " ++ label)%string] in
  let lines :=
    if negb (Ai.is_empty (PyText.strip daily_summary))
    then lines ++ [("Existing daily summary: " ++ PyText.strip daily_summary)%string]
    else lines in
  let lines :=
    match cards with
    | _ :: _ => lines ++ ["Timeline cards:"] ++ (card_line <$> take 40 cards)
    | [] => lines ++ ["No AI cards are available yet."]
    end in
  let captured :=
    PyText.strip <$>
      filter (fun line => PyText.strip line <> "") (default [] captured_timeline) in
  match captured with
  | _ :: _ =>
      lines ++ ["Captured timeline evidence:"]
      ++ ((fun line => ("- " ++ line)%string) <$> take 120 captured)
  | [] => lines ++ ["No captured timeline evidence was provided."]
  end.

Definition _timeline_context (day : string) (cards : list AITimelineCard)
    (daily_summary : string) (captured_timeline : option (list string))
    (range_label : option string) : string :=
  PyText.join newline
    (context_lines day cards daily_summary captured_timeline range_label).

End AiRequest.

(** ** database.py: settings, journal and dashboard tiles *)

Module Tables.
Import PyFloat.

Record JournalEntry : Type := mkJournalEntry {
  je_day : string;
  je_intentions : string;
  je_reflections : string;
  je_notes : string;
  je_summary : string;
  je_updated_at : string
}.

Record DashboardTile : Type := mkDashboardTile {
  dt_id : Z;
  dt_day : string;
  dt_question : string;
  dt_answer : string;
  dt_created_at : string
}.

(** [app_settings] and [journal_entries] have a TEXT primary key and are
    maps from it to the rest of the row; [dashboard_tiles] is the list of
    its rows in rowid order with its AUTOINCREMENT counter. *)
Record Side : Type := mkSide {
  app_settings : gmap string string;
  journal_entries : gmap string JournalEntry;
  dashboard_tiles : list DashboardTile;
  dashboard_tiles_seq : Z
}.

Definition empty_side : Side :=
  {| app_settings := ∅; journal_entries := ∅;
     dashboard_tiles := []; dashboard_tiles_seq := 0 |}.

(** *** Settings *)

Definition get_setting (key : string) (fallback : option string) (db : Side)
    : option string :=
  match app_settings db !! key with
  | None => fallback
  | Some value => Some value
  end.

Definition set_setting (key value : string) (db : Side) : Side :=
  {| app_settings := <[key := value]> (app_settings db);
     journal_entries := journal_entries db;
     dashboard_tiles := dashboard_tiles db;
     dashboard_tiles_seq := dashboard_tiles_seq db |}.

(** [float] is the builtin on texts, which raises [ValueError] only. *)
Definition get_setting_float (float : string -> result pyfloat)
    (key : string) (fallback : pyfloat) (db : Side) : pyfloat :=
  match get_setting key None db with
  | None => fallback
  | Some value =>
      match float value with
      | Raise _ => fallback
      | Ok parsed => if fle parsed (Finite 0) then fallback else parsed
      end
  end.

(** *** Journal *)

Definition upsert_journal_entry (day intentions reflections notes summary : string)
    (now : string) (db : Side) : Side :=
  let row := {| je_day := day; je_intentions := intentions;
                je_reflections := reflections; je_notes := notes;
                je_summary := summary; je_updated_at := now |} in
  {| app_settings := app_settings db;
     journal_entries := <[day := row]> (journal_entries db);
     dashboard_tiles := dashboard_tiles db;
     dashboard_tiles_seq := dashboard_tiles_seq db |}.

Definition get_journal_entry (day : string) (db : Side) : JournalEntry :=
  match journal_entries db !! day with
  | None => {| je_day := day; je_intentions := ""; je_reflections := "";
               je_notes := ""; je_summary := ""; je_updated_at := "" |}
  | Some row => row
  end.

(** ORDER BY day DESC *)
Definition day_desc_leb (a b : JournalEntry) : bool :=
  String.leb (je_day b) (je_day a).

(** LIMIT ?: a negative limit is no limit. *)
Definition list_recent_journal_entries (limit : Z) (db : Side)
    : list JournalEntry :=
  let rows := stable_sort day_desc_leb (snd <$> map_to_list (journal_entries db)) in
  if limit <? 0 then rows else take (Z.to_nat limit) rows.

(** *** Dashboard tiles *)

Definition insert_dashboard_tile (day question answer : string) (now : string)
    (db : Side) : Side * Z :=
  let rowid := dashboard_tiles_seq db + 1 in
  let row := {| dt_id := rowid; dt_day := day; dt_question := question;
                dt_answer := answer; dt_created_at := now |} in
  ({| app_settings := app_settings db;
      journal_entries := journal_entries db;
      dashboard_tiles := dashboard_tiles db ++ [row];
      dashboard_tiles_seq := rowid |}, rowid).

(** ORDER BY id DESC *)
Definition id_desc_leb (a b : DashboardTile) : bool := dt_id b <=? dt_id a.

Definition list_dashboard_tiles (day : string) (db : Side) : list DashboardTile :=
  stable_sort id_desc_leb (filter (fun r => dt_day r = day) (dashboard_tiles db)).

Definition clear_dashboard_tiles (day : string) (db : Side) : Side :=
  {| app_settings := app_settings db;
     journal_entries := journal_entries db;
     dashboard_tiles := filter (fun r => dt_day r ≠ day) (dashboard_tiles db);
     dashboard_tiles_seq := dashboard_tiles_seq db |}.

End Tables.

(** ** The specification's side

    Definitions that follow the words of the specification; Part II
    compares them with the code above. *)

Module Spec.
Import Models.

(** A strict, zero-padded 24-hour [HH:MM] text: two decimal digits, a
    colon, two decimal digits, hour at most 23 and minute at most 59. *)
Definition hhmm_strict (s : string) : bool :=
  match s with
  | String h1 (String h2 (String c (String m1 (String m2 EmptyString)))) =>
      PyText.isdecimal h1 && PyText.isdecimal h2 && Ascii.eqb c ":"
      && PyText.isdecimal m1 && PyText.isdecimal m2
      && (PyText.digit_value h1 * 10 + PyText.digit_value h2 <=? 23)
      && (PyText.digit_value m1 * 10 + PyText.digit_value m2 <=? 59)
  | _ => false
  end.

Fixpoint count_char (c : ascii) (s : string) : nat :=
  match s with
  | EmptyString => O
  | String x r => if Ascii.eqb x c then S (count_char c r) else count_char c r
  end.

(** A time text with at most one colon whose only digit characters are
    the decimal digits. *)
Definition plain_time (s : string) : bool :=
  (count_char ":" s <=? 1)%nat
  && PyText.all_chars
       (fun c => negb (PyText.isdigit_char c) || PyText.isdecimal c) s.

Definition field (e : gmap string Ai.pyval) (key fallback : string) : string :=
  PyText.strip (Ai.str (Ai.get e key (Ai.PStr fallback))).

Definition plain_entry (e : Ai.entry) : bool :=
  match e with
  | Ai.EntryOther => true
  | Ai.EntryDict d =>
      plain_time (field d "start" "") && plain_time (field d "end" "")
  end.

(** A trimmed time text on which [_norm_hhmm] raises: it passes the test
    of line 447 (five characters, a colon in the middle, digits only once
    the colons are removed), and one of the two pieces handed to [int] is
    not a decimal number. *)
Definition slips (s : string) : bool :=
  (String.length s =? 5)%nat
  && bool_decide (String.get 2 s = Some ":"%char)
  && PyText.isdigit (PyText.remove_char ":" s)
  && negb (PyText.all_chars PyText.isdecimal (PyText.take 2 s)
           && PyText.all_chars PyText.isdecimal (PyText.drop 3 s)).

(** A candidate at which the loop of [_normalize_cards] raises. *)
Definition aborts (e : Ai.entry) : bool :=
  match e with
  | Ai.EntryOther => false
  | Ai.EntryDict d => slips (field d "start" "") || slips (field d "end" "")
  end.

(** The card a candidate yields: kept when its trimmed start and end are
    strict [HH:MM] texts and its trimmed title is not empty; the category
    defaults to ["Other"] and the summary is trimmed. *)
Definition normalized_card (e : Ai.entry) : option (gmap string string) :=
  match e with
  | Ai.EntryOther => None
  | Ai.EntryDict d =>
      let start := field d "start" "" in
      let end_ := field d "end" "" in
      let title := field d "title" "" in
      if hhmm_strict start && hhmm_strict end_ && negb (Ai.is_empty title)
      then Some (Ai.card_dict start end_ title (field d "summary" "")
                   (Timeline.or_text (field d "category" "Other") "Other"))
      else None
  end.

(** What the card-replace property compares: title, start, end, category. *)
Definition card_view (c : AITimelineCard) : string * string * string * string :=
  (ac_title c, ac_start c, ac_end c, ac_category c).

Definition dict_view (d : gmap string string)
    : string * string * string * string :=
  (Ai.get d "title" "", Ai.get d "start" "", Ai.get d "end" "",
   Ai.get d "category" "").

Definition stripped_view (d : gmap string string)
    : string * string * string * string :=
  (PyText.strip (Ai.get d "title" ""), PyText.strip (Ai.get d "start" ""),
   PyText.strip (Ai.get d "end" ""), PyText.strip (Ai.get d "category" "")).

Definition row_view (r : Database.CardRow) : string * string * string * string :=
  (Database.cr_title r, Database.cr_start_time r, Database.cr_end_time r,
   Database.cr_category r).

Definition view_start (v : string * string * string * string) : string :=
  snd (fst (fst v)).

Definition view_start_leb (a b : string * string * string * string) : bool :=
  String.leb (view_start a) (view_start b).

End Spec.

(** ** Sample data, after the repository's tests *)

Module Examples.
Import Models.

(** [datetime(2026, 1, 1, 9, 0, 0, tzinfo=timezone.utc)] *)
Definition base : datetime := 1767258000000000.

(** [_record] of tests/test_timeline.py, with the offset in microseconds. *)
Definition record_at (idx : Z) (offset : timedelta)
    (process_name window_title : string) : ScreenshotRecord :=
  {| sr_id := idx; sr_captured_at := base + offset;
     sr_file_path := "shot.jpg"; sr_file_size := 12345;
     sr_window_title := window_title; sr_process_name := process_name |}.

Definition _record (idx seconds_from_base : Z) : ScreenshotRecord :=
  record_at idx (timedelta_seconds seconds_from_base) "Code" "Editing app.py".

(** A candidate card with the given fields. *)
Definition candidate (fields : list (string * Ai.pyval)) : Ai.entry :=
  Ai.EntryDict (list_to_map fields).

(** The two candidates of tests/test_ai.py. *)
Definition work_card : Ai.entry :=
  candidate [("start", Ai.PStr "09:00"); ("end", Ai.PStr "09:30");
             ("title", Ai.PStr "Work"); ("summary", Ai.PStr "x");
             ("category", Ai.PStr "Coding")].

Definition bad_card : Ai.entry :=
  candidate [("start", Ai.PStr "bad"); ("end", Ai.PStr "09:30");
             ("title", Ai.PStr "Bad"); ("summary", Ai.PStr "");
             ("category", Ai.PStr "Other")].

(** The reply of tests/test_ai.py: prose, a line feed, the object
    with an empty cards list and the daily summary ok, a line feed. *)
Definition dq : string := String "034" EmptyString.
Definition nl : string := String "010" EmptyString.

Definition wrapped_reply : string :=
  ("Here is result:" ++ nl ++ "{" ++ dq ++ "cards" ++ dq ++ ": [], "
   ++ dq ++ "daily_summary" ++ dq ++ ": " ++ dq ++ "ok" ++ dq ++ "}" ++ nl)%string.

(** An integer literal of 4301 digits. *)
Definition long_integer : string :=
  string_of_list_ascii (repeat "1"%char 4301).

End Examples.

(** ** Derived notions used to state further properties *)

Module Derived.
Import Models.

(** The number of samples the cards account for. *)
Definition total_screenshot_count (cards : list TimelineCard) : Z :=
  foldr (fun c acc => tc_screenshot_count c + acc) 0 cards.

(** The grouping key of a card, recomputed from the names it shows. *)
Definition card_key (c : TimelineCard) : string * string :=
  (Timeline._normalize (tc_process_name c),
   Timeline._normalize (tc_window_title c)).

(** The same count over the groups of the loop. *)
Definition group_count_sum (gs : list Timeline.Group) : Z :=
  foldr (fun g acc => Timeline.g_screenshot_count g + acc) 0 gs.

(** What holds of every group the loop builds. *)
Definition group_ok (g : Timeline.Group) : Prop :=
  Timeline.g_start g < Timeline.g_end g /\
  1 <= Timeline.g_screenshot_count g /\
  Timeline.g_key g
  = (Timeline._normalize (Timeline.g_process_name g),
     Timeline._normalize (Timeline.g_window_title g)).

(** No two neighbouring groups could have been merged. *)
Definition groups_split (tol : timedelta) (gs : list Timeline.Group) : Prop :=
  forall (i : nat) g1 g2,
    gs !! i = Some g1 -> gs !! S i = Some g2 ->
    Timeline.g_key g1 <> Timeline.g_key g2 \/
    Timeline.g_end g1 + tol < Timeline.g_start g2.

(** A maximal run of characters that are not white space. *)
Definition is_word (w : string) : Prop :=
  w <> EmptyString /\
  PyText.all_chars (fun c => negb (PyText.isspace c)) w = true.

(** A card as [_normalize_cards] emits it: the five keys, strict times, a
    title and a category that are not empty, every text trimmed. *)
Definition valid_card (c : gmap string string) : Prop :=
  exists start end_ title summary category,
    c = Ai.card_dict start end_ title summary category /\
    Spec.hhmm_strict start = true /\ Spec.hhmm_strict end_ = true /\
    title <> EmptyString /\ PyText.strip title = title /\
    PyText.strip summary = summary /\
    category <> EmptyString /\ PyText.strip category = category.

(** A card handed back as a candidate. *)
Definition as_candidate (c : gmap string string) : Ai.entry :=
  Ai.EntryDict (Ai.PStr <$> c).





(** The categories of the timeline view and the keys of its filters. *)
Definition categories : list string :=
  ["Core"; "Personal"; "Distractions"; "Idle"].

Definition filter_keys : list string :=
  ["core"; "personal"; "distractions"; "idle"].

(** What every request of [generate] satisfies. *)
Definition request_ok (provider : string)
    (screenshots : list Models.ScreenshotRecord) (r : AiRequest.request) : Prop :=
  let sample_ok (sample : list Models.ScreenshotRecord) :=
    (1 <= length sample <= 20)%nat /\ sample `sublist_of` screenshots in
  match r with
  | AiRequest.GeminiRequest api_key model sample =>
      provider = "gemini" /\ api_key <> "" /\ model <> "" /\ sample_ok sample
  | AiRequest.OpenAIRequest endpoint api_key model sample include_images =>
      (provider = "openai" /\ include_images = true /\ api_key <> "" \/
       provider = "local" /\ include_images = false) /\
      endpoint <> "" /\ PyText.strip endpoint = endpoint /\
      model <> "" /\ sample_ok sample /\
      (AiRequest._auth_headers api_key = ∅ <-> api_key = "")
  end.

(** The journal rows carry the day they are stored under. *)
Definition journal_keyed (db : Tables.Side) : Prop :=
  forall day row, Tables.journal_entries db !! day = Some row ->
    Tables.je_day row = day.

(** The tiles in rowid order, within the counter. *)
Definition tiles_keyed (db : Tables.Side) : Prop :=
  StronglySorted (fun a b => Tables.dt_id a < Tables.dt_id b)
    (Tables.dashboard_tiles db) /\
  Forall (fun r => Tables.dt_id r <= Tables.dashboard_tiles_seq db)
    (Tables.dashboard_tiles db).

End Derived.

(* ===================================================================== *)
(** * Part II. Properties                                                *)
(* ===================================================================== *)

(** ** Stable sorting *)

Section StableSortFacts.
Context {A : Type} (leb : A -> A -> bool).

Lemma insert_sorted_perm (x : A) (l : list A) :
  insert_sorted leb x l ≡ₚ x :: l.
Proof.
  induction l as [|y l IH]; simpl; [done|].
  destruct (leb x y); [done|].
  rewrite IH. apply Permutation_swap.
Qed.

Lemma stable_sort_perm (l : list A) : stable_sort leb l ≡ₚ l.
Proof.
  induction l as [|x l IH]; simpl; [done|].
  rewrite insert_sorted_perm. by rewrite IH.
Qed.

Lemma stable_sort_length (l : list A) : length (stable_sort leb l) = length l.
Proof. by rewrite stable_sort_perm. Qed.

(** A list already in order is left as it is. *)
Lemma stable_sort_id (l : list A) :
  Sorted (fun a b => leb a b = true) l -> stable_sort leb l = l.
Proof.
  induction 1 as [|x l Hs IH Hd]; simpl; [done|].
  rewrite IH. destruct Hd as [|y l' Hxy]; simpl; [done|]. by rewrite Hxy.
Qed.

Hypothesis leb_total : forall a b, leb a b = true \/ leb b a = true.

Lemma insert_sorted_Sorted (x : A) (l : list A) :
  Sorted (fun a b => leb a b = true) l ->
  Sorted (fun a b => leb a b = true) (insert_sorted leb x l).
Proof.
  induction 1 as [|y l Hs IH Hd]; simpl.
  - repeat constructor.
  - destruct (leb x y) eqn:Hxy.
    + constructor; [by constructor|by constructor].
    + constructor; [done|].
      assert (leb y x = true) as Hyx by (destruct (leb_total x y); congruence).
      destruct Hd as [|z l' Hyz]; simpl; [by constructor|].
      destruct (leb x z); by constructor.
Qed.

Lemma stable_sort_Sorted (l : list A) :
  Sorted (fun a b => leb a b = true) (stable_sort leb l).
Proof.
  induction l as [|x l IH]; simpl; [constructor|].
  by apply insert_sorted_Sorted.
Qed.

End StableSortFacts.

(** ** The segmenter: [build_timeline_cards] *)

Section TimelineFacts.
Import Models Timeline.

Lemma trunc_total_seconds (d : timedelta) :
  PyFloat.trunc (total_seconds d) = d ÷ 1000000.
Proof. reflexivity. Qed.

(** The integer nearest to an integer-valued float is that integer. *)
Lemma round_integer (x : Q) (n : Z) : (x == inject_Z n)%Q -> PyFloat.round x = n.
Proof.
  unfold Qeq, PyFloat.round, inject_Z. simpl. intros H.
  rewrite Z.mul_1_r in H. rewrite H.
  rewrite Z.div_mul by done. rewrite Z.mod_mul by done. simpl.
  by destruct (Z.pos (Qden x)).
Qed.

Lemma head_drop {B} (l : list B) (i : nat) : head (drop i l) = l !! i.
Proof.
  revert i. induction l as [|x l IH]; intros [|i]; simpl; try done.
Qed.

Lemma segment_ends_lookup fallback max_gap ordered (i : nat) r :
  ordered !! i = Some r ->
  segment_ends fallback max_gap ordered !! i
  = Some (segment_end fallback max_gap r (drop (S i) ordered)).
Proof.
  revert i. induction ordered as [|x l IH]; intros [|i] H; simpl in *; try done.
  - by inversion H.
  - by apply IH.
Qed.

(** The loop is a left fold of [group_step] over the records paired with
    their segment ends. *)
Lemma group_loop_fold fallback max_gap tol ordered grouped :
  group_loop fallback max_gap tol ordered grouped
  = foldl (fun g p => group_step tol g p.1 p.2) grouped
      (zip ordered (segment_ends fallback max_gap ordered)).
Proof.
  revert grouped. induction ordered as [|x l IH]; intros g; simpl; [done|].
  by rewrite IH.
Qed.

Lemma segment_end_cases fallback max_gap r rest :
  segment_end fallback max_gap r rest
  = sr_captured_at r + timedelta_seconds
      match head rest with
      | None => fallback
      | Some nxt =>
          let whole := (sr_captured_at nxt - sr_captured_at r) ÷ 1000000 in
          if 1 <=? whole then Z.min whole max_gap else fallback
      end.
Proof.
  unfold segment_end, _segment_duration_seconds.
  destruct (head rest) as [nxt|]; simpl; [|done].
  rewrite trunc_total_seconds.
  destruct (Z.leb_spec ((sr_captured_at nxt - sr_captured_at r) ÷ 1000000) 0),
    (Z.leb_spec 1 ((sr_captured_at nxt - sr_captured_at r) ÷ 1000000));
    try done; lia.
Qed.

Lemma last_alter_snoc {B} (f : B -> B) (l : list B) (x : B) :
  alter f (pred (length (l ++ [x]))) (l ++ [x]) = l ++ [f x].
Proof.
  rewrite length_app. simpl. rewrite Nat.add_1_r. simpl.
  induction l as [|y l IH]; simpl; [done|]. by rewrite <- IH.
Qed.

Lemma group_step_snoc tol closed open record end_ :
  group_step tol (closed ++ [open]) record end_
  = if merges tol open (record_key record) (sr_captured_at record)
    then closed ++ [extend_group end_ open]
    else closed ++ [open; new_group record end_].
Proof.
  unfold group_step. rewrite last_snoc.
  destruct (merges _ _ _ _).
  - apply last_alter_snoc.
  - by rewrite <- app_assoc.
Qed.

End TimelineFacts.

Section SegmentEnd.
Import Models Timeline Examples.

(** C3 (as amended).  For a sorted input, let [fallback] be
    [max(1, round(fallback_interval))] and [max_gap] be
    [max(30, 2 * fallback)].  The end computed for the sample at position
    [i] is: [start + fallback] seconds when it is the last sample or when
    the next sample is less than one whole second later; otherwise
    [start + min(w, max_gap)] seconds, where [w] is the gap to the next
    sample truncated to whole seconds.  When the gap is a whole number of
    seconds this is [start + min(next - start, max_gap)], and when the
    fallback interval is an integer [n >= 1], [fallback] is [n].  The loop
    of [build_timeline_cards] folds [group_step] over the samples paired
    with these ends. *)
Theorem segment_end_rule (records : list ScreenshotRecord) (fis : Q)
    (i : nat) (r : ScreenshotRecord) :
  Sorted (fun a b => captured_at_leb a b = true) records ->
  records !! i = Some r ->
  let ordered := stable_sort captured_at_leb records in
  let fallback := Z.max 1 (PyFloat.round fis) in
  let max_gap := Z.max 30 (fallback * 2) in
  let start := sr_captured_at r in
  (exists e,
     segment_ends fallback max_gap ordered !! i = Some e /\
     match records !! S i with
     | None => e = start + timedelta_seconds fallback
     | Some nxt =>
         let whole := (sr_captured_at nxt - start) ÷ 1000000 in
         (1 <= whole -> e = start + timedelta_seconds (Z.min whole max_gap)) /\
         (whole < 1 -> e = start + timedelta_seconds fallback) /\
         (forall k, 1 <= k -> sr_captured_at nxt - start = timedelta_seconds k ->
            e = start + Z.min (sr_captured_at nxt - start)
                          (timedelta_seconds max_gap))
     end) /\
  (forall n, 1 <= n -> (fis == inject_Z n)%Q ->
     fallback = n /\ max_gap = Z.max 30 (2 * n)) /\
  group_loop fallback max_gap (timedelta_seconds 5) ordered []
  = foldl (fun g p => group_step (timedelta_seconds 5) g p.1 p.2) []
      (zip ordered (segment_ends fallback max_gap ordered)).
Proof.
  intros Hsorted Hi ordered fallback max_gap start.
  assert (ordered = records) as Hord by (by apply stable_sort_id).
  split; [|split].
  - exists (segment_end fallback max_gap r (drop (S i) records)).
    split.
    + rewrite Hord. by apply segment_ends_lookup.
    + rewrite segment_end_cases, head_drop.
      destruct (records !! S i) as [nxt|]; [|done].
      cbv zeta. fold start.
      set (whole := (sr_captured_at nxt - start) ÷ 1000000).
      split; [|split].
      * intros Hw. by destruct (Z.leb_spec 1 whole); [|lia].
      * intros Hw. by destruct (Z.leb_spec 1 whole); [lia|].
      * intros k Hk Hgap.
        assert (whole = k) as ->.
        { unfold whole. rewrite Hgap. unfold timedelta_seconds.
          by rewrite Z.quot_mul. }
        destruct (Z.leb_spec 1 k); [|lia].
        rewrite Hgap. unfold timedelta_seconds. f_equal. lia.
  - intros n Hn Hq. unfold max_gap, fallback.
    rewrite (round_integer _ _ Hq). split; f_equal; lia.
  - apply group_loop_fold.
Qed.

(** C3, counterexample: with samples at 0 s and 10.5 s and a fallback
    interval of 10, the first sample is followed by a later one, yet its
    end is start + 10 s and not start + min(10.5 s, 30 s). *)
Lemma segment_end_truncates_gap :
  let records := [record_at 1 0 "Code" "Editing app.py";
                  record_at 2 10500000 "Code" "Editing app.py"] in
  let fallback := Z.max 1 (PyFloat.round 10) in
  let max_gap := Z.max 30 (fallback * 2) in
  Sorted (fun a b => captured_at_leb a b = true) records /\
  exists r nxt e,
    records !! 0%nat = Some r /\ records !! 1%nat = Some nxt /\
    sr_captured_at r < sr_captured_at nxt /\
    segment_ends fallback max_gap (stable_sort captured_at_leb records) !! 0%nat
    = Some e /\
    e = sr_captured_at r + timedelta_seconds 10 /\
    e <> sr_captured_at r
         + Z.min (sr_captured_at nxt - sr_captured_at r)
                 (timedelta_seconds (Z.max 30 (2 * 10))).
Proof.
  cbv zeta. split.
  - repeat constructor.
  - eexists _, _, _. repeat split; try reflexivity. vm_compute. congruence.
Qed.

Lemma segment_end_rule_witness :
  let records := [_record 1 0; _record 2 10] in
  exists e,
    segment_ends 10 30 (stable_sort captured_at_leb records) !! 0%nat = Some e /\
    e = base + timedelta_seconds 10.
Proof.
  assert (Sorted (fun a b => captured_at_leb a b = true)
            [_record 1 0; _record 2 10]) as Hs by (repeat constructor).
  destruct (segment_end_rule [_record 1 0; _record 2 10] 10 0 (_record 1 0)
              Hs eq_refl) as [[e [He Hcase]] _].
  exists e. split; [exact He|].
  simpl in Hcase. destruct Hcase as [Hw _]. apply Hw. vm_compute. discriminate.
Defined.

End SegmentEnd.

Section MergeRule.
Import Models Timeline Examples.

(** C4.  One iteration of the loop, on a list [grouped] whose last group
    is [open]: the sample extends [open] if and only if its key equals that
    of [open] and its start is at most the end of [open] plus 5 seconds; on
    a merge the end becomes the maximum of the old and the new end, so it
    never decreases, and the member count grows by one; otherwise a new
    group is appended; [build_timeline_cards] applies this step to the
    samples in capture order.  Three samples at 0, 10 and 20 s with one key and a
    fallback interval of 10 give one segment with screenshot_count 3 and
    duration_seconds 30. *)
Theorem merge_rule (closed : list Group) (open : Group)
    (record : ScreenshotRecord) (end_ : datetime) :
  let out := group_step (timedelta_seconds 5) (closed ++ [open]) record end_ in
  let close_enough :=
    g_key open = record_key record /\
    sr_captured_at record <= g_end open + timedelta_seconds 5 in
  ((exists g, out = closed ++ [g]) <-> close_enough) /\
  (close_enough ->
     exists g, out = closed ++ [g] /\
       g_end g = Z.max (g_end open) end_ /\ g_end open <= g_end g /\
       g_screenshot_count g = g_screenshot_count open + 1 /\
       g_start g = g_start open /\ g_key g = g_key open) /\
  (~ close_enough -> out = closed ++ [open; new_group record end_]) /\
  group_step (timedelta_seconds 5) [] record end_ = [new_group record end_] /\
  (forall records fis, records <> [] ->
     let ordered := stable_sort captured_at_leb records in
     let fallback := Z.max 1 (PyFloat.round fis) in
     let max_gap := Z.max 30 (fallback * 2) in
     build_timeline_cards records fis
     = card_of_group <$>
         foldl (fun g p => group_step (timedelta_seconds 5) g p.1 p.2) []
           (zip ordered (segment_ends fallback max_gap ordered))) /\
  (exists c,
     build_timeline_cards [_record 1 0; _record 2 10; _record 3 20] 10 = [c] /\
     tc_screenshot_count c = 3 /\ tc_duration_seconds c = 30).
Proof.
  intros out close_enough. subst out.
  rewrite group_step_snoc.
  assert (merges (timedelta_seconds 5) open (record_key record)
            (sr_captured_at record) = true <-> close_enough) as Hm.
  { unfold merges, close_enough.
    rewrite andb_true_iff, bool_decide_eq_true, Z.leb_le. tauto. }
  assert (exists c,
     build_timeline_cards [_record 1 0; _record 2 10; _record 3 20] 10 = [c] /\
     tc_screenshot_count c = 3 /\ tc_duration_seconds c = 30) as Hex.
  { eexists. split; [vm_compute; reflexivity|]. by split. }
  assert (forall records fis, records <> [] ->
     let ordered := stable_sort captured_at_leb records in
     let fallback := Z.max 1 (PyFloat.round fis) in
     let max_gap := Z.max 30 (fallback * 2) in
     build_timeline_cards records fis
     = card_of_group <$>
         foldl (fun g p => group_step (timedelta_seconds 5) g p.1 p.2) []
           (zip ordered (segment_ends fallback max_gap ordered))) as Hfold.
  { intros records fis Hne. cbv zeta. unfold build_timeline_cards.
    destruct records; [done|]. by rewrite group_loop_fold. }
  destruct (merges _ _ _ _) eqn:E.
  - assert close_enough as Hc by (by apply Hm).
    split; [|split; [|split; [|split; [|split]]]]; try done.
    + split; [done|]. intros _. by exists (extend_group end_ open).
    + intros _. exists (extend_group end_ open). simpl.
      split; [done|]. repeat split; lia.
  - assert (~ close_enough) as Hc by (rewrite <- Hm; congruence).
    split; [|split; [|split; [|split; [|split]]]]; try done.
    split; [|done]. intros [g Hg]. apply (f_equal length) in Hg.
    rewrite !length_app in Hg. simpl in Hg. lia.
Qed.

Lemma merge_rule_witness :
  exists g,
    group_step (timedelta_seconds 5)
      ([] ++ [new_group (_record 1 0) (base + timedelta_seconds 10)])
      (_record 2 10) (base + timedelta_seconds 20)
    = [] ++ [g] /\ g_screenshot_count g = 2.
Proof.
  destruct (merge_rule [] (new_group (_record 1 0) (base + timedelta_seconds 10))
              (_record 2 10) (base + timedelta_seconds 20))
    as [_ [Hmerge _]].
  destruct Hmerge as (g & Hg & _ & _ & Hc & _).
  - split; [reflexivity | vm_compute; discriminate].
  - exists g. split; [exact Hg | rewrite Hc; reflexivity].
Defined.

End MergeRule.

Section GapClamp.
Import Models Timeline Examples.

(** C5.  Two samples with the same normalized key, the second 600 s after
    the first, and a fallback interval of 10 (so that max_gap is 30) give
    exactly two segments; the first ends 30 s after its start and has
    duration_seconds 30, not 600. *)
Theorem gap_is_clamped (r1 r2 : ScreenshotRecord) :
  record_key r1 = record_key r2 ->
  sr_captured_at r2 = sr_captured_at r1 + timedelta_seconds 600 ->
  Z.max 30 (Z.max 1 (PyFloat.round 10) * 2) = 30 /\
  exists c1 c2,
    build_timeline_cards [r1; r2] 10 = [c1; c2] /\
    tc_duration_seconds c1 = 30 /\
    tc_end c1 = sr_captured_at r1 + timedelta_seconds 30 /\
    tc_screenshot_count c1 = 1 /\ tc_screenshot_count c2 = 1 /\
    tc_start c2 = sr_captured_at r2.
Proof.
  intros Hkey Hgap. split; [reflexivity|].
  unfold build_timeline_cards.
  assert (stable_sort captured_at_leb [r1; r2] = [r1; r2]) as ->.
  { apply stable_sort_id. repeat constructor.
    unfold captured_at_leb. apply Z.leb_le. rewrite Hgap.
    unfold timedelta_seconds. lia. }
  change (Z.max 1 (PyFloat.round 10)) with 10.
  change (Z.max 30 (10 * 2)) with 30.
  cbn [group_loop]. rewrite !segment_end_cases. cbn [head].
  assert ((sr_captured_at r2 - sr_captured_at r1) ÷ 1000000 = 600) as ->.
  { rewrite Hgap. unfold timedelta_seconds.
    replace (sr_captured_at r1 + 600 * 1000000 - sr_captured_at r1)
      with (600 * 1000000) by lia.
    reflexivity. }
  change (if 1 <=? 600 then Z.min 600 30 else 10) with 30.
  change (group_step (timedelta_seconds 5) [] r1
            (sr_captured_at r1 + timedelta_seconds 30))
    with ([] ++ [new_group r1 (sr_captured_at r1 + timedelta_seconds 30)]).
  rewrite group_step_snoc.
  assert (merges (timedelta_seconds 5)
            (new_group r1 (sr_captured_at r1 + timedelta_seconds 30))
            (record_key r2) (sr_captured_at r2) = false) as ->.
  { unfold merges. apply andb_false_iff. right. apply Z.leb_gt.
    simpl. rewrite Hgap. unfold timedelta_seconds. lia. }
  eexists _, _. split; [reflexivity|].
  simpl.
  replace (sr_captured_at r1 + timedelta_seconds 30 - sr_captured_at r1)
    with 30000000 by (unfold timedelta_seconds; lia).
  repeat split; reflexivity.
Qed.

Lemma gap_is_clamped_witness :
  exists c1 c2,
    build_timeline_cards [_record 1 0; _record 2 600] 10 = [c1; c2] /\
    tc_duration_seconds c1 = 30.
Proof.
  destruct (gap_is_clamped (_record 1 0) (_record 2 600) eq_refl eq_refl)
    as [_ (c1 & c2 & H & Hd & _)].
  by exists c1, c2.
Defined.

End GapClamp.

(** ** The capture service: interval bounds *)

Section IntervalBounds.
Import PyFloat Capture App.

Lemma Qle_bool_Z (x y : Q) :
  Qle_bool x y = (Qnum x * Z.pos (Qden y) <=? Qnum y * Z.pos (Qden x)).
Proof. reflexivity. Qed.

Ltac float_cases :=
  unfold fmax, fmin, flt, fle;
  repeat (first
    [ rewrite Qle_bool_Z
    | match goal with
      | |- context [?a <=? ?b] => destruct (Z.leb_spec a b)
      end ]; simpl; unfold flt, fle);
  try reflexivity; try (simpl in *; lia).

(** [max(1.0, x)] is at least 1, is never NaN, and is [x] when [x > 1]. *)
Lemma fmax_one (x : pyfloat) :
  fle (Finite 1) (fmax (Finite 1) x) = true /\
  (flt (Finite 1) x = true -> fmax (Finite 1) x = x).
Proof.
  split.
  - destruct x as [q| | |]; float_cases.
  - unfold fmax. by intros ->.
Qed.

(** [max(2.0, min(300.0, v))] lies between 2 and 300 for every float. *)
Lemma clamp_2_300 (v : pyfloat) :
  let c := fmax (Finite 2) (fmin (Finite 300) v) in
  fle (Finite 2) c = true /\ fle c (Finite 300) = true /\
  fmax (Finite 1) c = c.
Proof.
  destruct v as [q| | |]; cbv zeta; [|by vm_compute..].
  repeat split; float_cases.
Qed.

Lemma fle_trans_1_2 (x : pyfloat) :
  fle (Finite 2) x = true -> fle (Finite 1) x = true.
Proof. destruct x as [q| | |]; float_cases. Qed.


(** C9, counterexample: a service started with an interval of 1000 seconds
    runs with 1000 seconds, which is above 300. *)
Lemma start_has_no_upper_bound :
  start (Finite 1000) new_service
  = ({| _interval_seconds := Finite 1000; running := true |}, true) /\
  fle (_interval_seconds (start (Finite 1000) new_service).1) (Finite 300)
  = false.
Proof. split; reflexivity. Qed.

(** C9 (as amended).  [ScreenCaptureService.start] raises the interval to
    at least 1 second and applies no upper bound: a service that is not
    running takes [max(1, x)], which is [x] itself when [x > 1], and a
    running one keeps its interval.  The upper bound is applied by the
    caller: [_current_interval] clamps into [2, 300], so a capture started
    through [_start_capture] runs with an interval between 2 and 300
    seconds, and every service driven through [_start_capture] keeps its
    interval within [1, 300]. *)
Theorem interval_bounds (x : pyfloat) (typed : result pyfloat)
    (setting : pyfloat) (svc : ScreenCaptureService) :
  (fle (Finite 1) (_interval_seconds svc) = true ->
   fle (Finite 1) (_interval_seconds (start x svc).1) = true) /\
  (running svc = false ->
   start x svc
   = ({| _interval_seconds := fmax (Finite 1) x; running := true |}, true) /\
   fle (Finite 1) (_interval_seconds (start x svc).1) = true /\
   (flt (Finite 1) x = true -> _interval_seconds (start x svc).1 = x)) /\
  (running svc = false ->
   _start_capture typed setting svc
   = ({| _interval_seconds := _current_interval typed setting;
         running := true |}, true) /\
   within 2 300 (_current_interval typed setting)) /\
  (within 1 300 (_interval_seconds svc) ->
   within 1 300 (_interval_seconds (_start_capture typed setting svc).1)).
Proof.
  assert (forall v, within 2 300 (fmax (Finite 2) (fmin (Finite 300) v))
                    /\ fmax (Finite 1) (fmax (Finite 2) (fmin (Finite 300) v))
                       = fmax (Finite 2) (fmin (Finite 300) v)) as Hclamp.
  { intros v. destruct (clamp_2_300 v) as (H1 & H2 & H3). by repeat split. }
  assert (within 2 300 (_current_interval typed setting)
          /\ fmax (Finite 1) (_current_interval typed setting)
             = _current_interval typed setting) as [Hw Hfix].
  { unfold _current_interval. destruct typed; apply Hclamp. }
  split; [|split; [|split]].
  - unfold start. destruct (running svc); simpl; [done|]. intros _.
    apply fmax_one.
  - intros Hr. unfold start. rewrite Hr. simpl.
    split; [done|]. apply fmax_one.
  - intros Hr. unfold _start_capture, start. rewrite Hr, Hfix. by split.
  - intros Hsvc. unfold _start_capture, start.
    destruct (running svc); simpl; [done|]. rewrite Hfix.
    destruct Hw as [H2 H300]. split; [by apply fle_trans_1_2 | done].
Qed.

Lemma interval_bounds_witness :
  _interval_seconds (_start_capture (Ok (Finite 1000)) (Finite 10) new_service).1
  = Finite 300 /\
  within 1 300
    (_interval_seconds
       (_start_capture (Ok (Finite 1000)) (Finite 10) new_service).1).
Proof.
  destruct (interval_bounds (Finite 5) (Ok (Finite 1000)) (Finite 10) new_service)
    as (_ & _ & _ & Hin).
  split; [reflexivity|]. apply Hin. split; reflexivity.
Defined.

End IntervalBounds.

(** ** The store: replacing a day's cards *)

Section ReplaceCards.
Import Models Database Spec.

Lemma insert_cards_rows day cards table seq :
  insert_cards day cards table seq
  = (table ++ new_rows day cards seq, seq + Z.of_nat (length cards)).
Proof.
  revert table seq. induction cards as [|c cs IH]; intros table seq; simpl.
  - rewrite app_nil_r. f_equal. lia.
  - rewrite IH, <- app_assoc. simpl. f_equal. lia.
Qed.

Lemma new_rows_day day cards seq :
  Forall (fun r => cr_day r = day) (new_rows day cards seq).
Proof.
  revert seq. induction cards as [|c cs IH]; intros seq; simpl; constructor;
    [done | apply IH].
Qed.

Lemma new_rows_ids day cards seq :
  Forall (fun r => seq < cr_id r) (new_rows day cards seq).
Proof.
  revert seq. induction cards as [|c cs IH]; intros seq; simpl; constructor.
  - simpl. lia.
  - eapply Forall_impl; [apply IH|]. simpl. intros; lia.
Qed.

Lemma new_rows_view day cards seq :
  row_view <$> new_rows day cards seq = stripped_view <$> cards.
Proof.
  revert seq. induction cards as [|c cs IH]; intros seq; simpl; [done|].
  by rewrite IH.
Qed.

Lemma filter_all {B} (P : B -> Prop) `{!forall x, Decision (P x)} (l : list B) :
  Forall P l -> filter P l = l.
Proof.
  induction 1 as [|x l Hx Hl IH]; [done|].
  rewrite filter_cons_True by done. by rewrite IH.
Qed.

Lemma filter_none {B} (P : B -> Prop) `{!forall x, Decision (P x)} (l : list B) :
  Forall (fun x => ~ P x) l -> filter P l = [].
Proof.
  induction 1 as [|x l Hx Hl IH]; [done|].
  by rewrite filter_cons_False.
Qed.

(** The cards table after a replace: the rows of the other days, then the
    new rows. *)
Lemma replace_table day cards summary now db :
  ai_timeline_cards (replace_ai_timeline_for_day day cards summary now db)
  = filter (fun r => cr_day r ≠ day) (ai_timeline_cards db)
    ++ new_rows day cards (ai_timeline_cards_seq db).
Proof.
  unfold replace_ai_timeline_for_day. by rewrite insert_cards_rows.
Qed.

Lemma replace_rows_of_day day cards summary now db :
  filter (fun r => cr_day r = day)
    (ai_timeline_cards (replace_ai_timeline_for_day day cards summary now db))
  = new_rows day cards (ai_timeline_cards_seq db).
Proof.
  rewrite replace_table, filter_app.
  rewrite (filter_none (fun r => cr_day r = day)).
  - simpl. apply filter_all, new_rows_day.
  - apply Forall_forall. intros r Hr. by apply list_elem_of_filter in Hr as [? _].
Qed.

Lemma replace_rows_of_other_day day day' cards summary now db :
  day ≠ day' ->
  filter (fun r => cr_day r = day')
    (ai_timeline_cards (replace_ai_timeline_for_day day cards summary now db))
  = filter (fun r => cr_day r = day') (ai_timeline_cards db).
Proof.
  intros Hne. rewrite replace_table, filter_app.
  rewrite (filter_none (fun r => cr_day r = day') (new_rows _ _ _)).
  - rewrite app_nil_r, list_filter_filter.
    apply list_filter_iff. intros r. split; [tauto|].
    intros ->. split; [done|]. congruence.
  - eapply Forall_impl; [apply new_rows_day|]. simpl. congruence.
Qed.

(** C10.  Replacing the cards of day [d] leaves every other day [d'] as
    it was: the stored rows of [d'], the cards read back for [d'] and the
    daily summary of [d'] are the same after the call as before it. *)
Theorem replace_frame (d d' : string) (cs : list (gmap string string))
    (s now : string) (db : Store) :
  d ≠ d' ->
  let db' := replace_ai_timeline_for_day d cs s now db in
  filter (fun r => cr_day r = d') (ai_timeline_cards db')
  = filter (fun r => cr_day r = d') (ai_timeline_cards db) /\
  list_ai_timeline_for_day d' db' = list_ai_timeline_for_day d' db /\
  ai_daily_summaries db' !! d' = ai_daily_summaries db !! d' /\
  get_ai_daily_summary d' db' = get_ai_daily_summary d' db.
Proof.
  intros Hne db'.
  assert (ai_daily_summaries db' !! d' = ai_daily_summaries db !! d') as Hs.
  { unfold db', replace_ai_timeline_for_day. rewrite insert_cards_rows. simpl.
    by rewrite lookup_insert_ne. }
  split; [|split; [|split]].
  - by apply replace_rows_of_other_day.
  - unfold list_ai_timeline_for_day, db'.
    by rewrite replace_rows_of_other_day.
  - exact Hs.
  - unfold get_ai_daily_summary. by rewrite Hs.
Qed.


Lemma replace_frame_witness :
  list_ai_timeline_for_day "2026-01-03"
    (replace_ai_timeline_for_day "2026-01-02"
       [Ai.card_dict "09:00" "10:15" "Coding feature" "x" "Coding"]
       "Solid morning." "now"
       (replace_ai_timeline_for_day "2026-01-03"
          [Ai.card_dict "10:30" "11:00" "Standup" "y" "Meeting"]
          "Meetings." "earlier" empty_store))
  = list_ai_timeline_for_day "2026-01-03"
      (replace_ai_timeline_for_day "2026-01-03"
         [Ai.card_dict "10:30" "11:00" "Standup" "y" "Meeting"]
         "Meetings." "earlier" empty_store).
Proof.
  refine (proj1 (proj2 (replace_frame "2026-01-02" "2026-01-03" _ _ _ _ _))).
  discriminate.
Defined.

Lemma string_compare_refl (a : string) : String.compare a a = Eq.
Proof.
  pose proof (String.compare_antisym a a) as H.
  destruct (String.compare a a); simpl in H; congruence.
Qed.

Lemma string_leb_ltb_eqb (a b : string) :
  String.leb a b = String.ltb a b || String.eqb a b.
Proof.
  unfold String.leb, String.ltb.
  destruct (String.compare a b) eqn:E; simpl.
  - apply String.compare_eq_iff in E. subst. by rewrite String.eqb_refl.
  - done.
  - symmetry. apply String.eqb_neq. intros ->.
    rewrite string_compare_refl in E. discriminate.
Qed.

Lemma card_row_leb_fresh (r y : CardRow) :
  cr_id r <= cr_id y ->
  card_row_leb r y = view_start_leb (row_view r) (row_view y).
Proof.
  intros Hid. unfold card_row_leb, view_start_leb, view_start. simpl.
  rewrite string_leb_ltb_eqb.
  destruct (Z.leb_spec (cr_id r) (cr_id y)); [|lia]. by rewrite andb_true_r.
Qed.

Lemma insert_sorted_view (r : CardRow) (l : list CardRow) :
  Forall (fun y => cr_id r <= cr_id y) l ->
  row_view <$> insert_sorted card_row_leb r l
  = insert_sorted view_start_leb (row_view r) (row_view <$> l).
Proof.
  induction 1 as [|y l Hy Hl IH]; [done|].
  cbn [insert_sorted]. rewrite (card_row_leb_fresh r y) by done.
  rewrite (fmap_cons row_view y l). cbn [insert_sorted].
  destruct (view_start_leb _ _); [done|].
  by rewrite fmap_cons, IH.
Qed.

(** Over rows inserted one after the other, ORDER BY start_time, id is the
    stable sort by start time. *)
Lemma stable_sort_view (l : list CardRow) :
  StronglySorted (fun a b => cr_id a < cr_id b) l ->
  row_view <$> stable_sort card_row_leb l
  = stable_sort view_start_leb (row_view <$> l).
Proof.
  induction 1 as [|x l Hs IH Hx]; [done|].
  cbn [stable_sort]. rewrite fmap_cons. cbn [stable_sort].
  rewrite insert_sorted_view, IH; [done|].
  rewrite stable_sort_perm. eapply Forall_impl; [exact Hx|]. simpl. lia.
Qed.

Lemma new_rows_increasing day cards seq :
  StronglySorted (fun a b => cr_id a < cr_id b) (new_rows day cards seq).
Proof.
  revert seq. induction cards as [|c cs IH]; intros seq; simpl; constructor.
  - apply IH.
  - apply new_rows_ids.
Qed.




End ReplaceCards.

(** ** The store: the primary key of [screenshots] is an invariant *)

Section StoreInvariant.
Import Models Database.



Lemma enforce_loop_sublist max_bytes rows : forall table fs current cnt bytes,
  (enforce_loop max_bytes rows table fs current cnt bytes).1.1
  `sublist_of` table.
Proof.
  induction rows as [|row rest IH]; intros table fs current cnt bytes;
    cbn [enforce_loop]; [done|].
  destruct (current <=? max_bytes); [done|].
  etransitivity; [apply IH | apply sublist_filter].
Qed.



End StoreInvariant.

(** ** The store: the storage limit *)

Section StorageLimit.
Import Models Database.

Lemma string_leb_trans (a b c : string) :
  String.leb a b = true -> String.leb b c = true -> String.leb a c = true.
Proof.
  revert b c. induction a as [|x a IH]; intros [|y b] [|z c];
    unfold String.leb; simpl; try done.
  unfold Ascii.compare.
  destruct (N.compare_spec (N_of_ascii x) (N_of_ascii y)),
           (N.compare_spec (N_of_ascii y) (N_of_ascii z)),
           (N.compare_spec (N_of_ascii x) (N_of_ascii z));
    try done; try lia.
  apply IH.
Qed.

(** ORDER BY captured_at yields the rows in the order of their stored
    captured_at texts. *)
Lemma order_by_captured_at (rows : list ScreenshotRow) :
  StronglySorted (fun a b => captured_at_leb a b = true)
    (stable_sort captured_at_leb rows).
Proof.
  apply Sorted_StronglySorted.
  - intros a b c. unfold captured_at_leb. apply string_leb_trans.
  - apply stable_sort_Sorted. intros a b. apply String.leb_total.
Qed.

Lemma sum_file_size_app (l1 l2 : list ScreenshotRow) :
  sum_file_size (l1 ++ l2) = sum_file_size l1 + sum_file_size l2.
Proof. induction l1 as [|x l IH]; simpl; [done|]. rewrite IH. lia. Qed.

Lemma sum_file_size_perm (l1 l2 : list ScreenshotRow) :
  l1 ≡ₚ l2 -> sum_file_size l1 = sum_file_size l2.
Proof. induction 1; simpl; lia. Qed.

(** DELETE ... WHERE id = ? removes exactly the row swept, the ids being
    distinct. *)
Lemma delete_swept_row (row : ScreenshotRow) (rest table : list ScreenshotRow) :
  row :: rest ≡ₚ table ->
  NoDup (ss_id <$> row :: rest) ->
  filter (fun r => ss_id r ≠ ss_id row) table ≡ₚ rest.
Proof.
  intros Hp Hnd. rewrite <- Hp.
  rewrite filter_cons_False by (intros H; by apply H).
  rewrite fmap_cons in Hnd. apply NoDup_cons in Hnd as [Hnotin _].
  rewrite filter_all; [done|].
  apply Forall_forall. intros r Hr Heq. apply Hnotin.
  rewrite <- Heq. by apply list_elem_of_fmap_2.
Qed.

Lemma enforce_loop_spec max_bytes rows : forall table fs current cnt bytes,
  rows ≡ₚ table ->
  NoDup (ss_id <$> rows) ->
  current = sum_file_size rows ->
  exists removed kept,
    rows = removed ++ kept /\
    (enforce_loop max_bytes rows table fs current cnt bytes).1.1 ≡ₚ kept /\
    (enforce_loop max_bytes rows table fs current cnt bytes).2
    = (cnt + Z.of_nat (length removed), bytes + sum_file_size removed) /\
    (kept = [] \/ sum_file_size kept <= max_bytes) /\
    (forall pre x post, removed = pre ++ x :: post ->
       max_bytes < sum_file_size (x :: post ++ kept)).
Proof.
  induction rows as [|row rest IH]; intros table fs current cnt bytes Hp Hnd Hc.
  - exists [], []. simpl. repeat split.
    + by rewrite <- Hp.
    + f_equal; lia.
    + by left.
    + intros pre x post H. by destruct pre.
  - cbn [enforce_loop]. destruct (Z.leb_spec current max_bytes) as [Hle|Hgt].
    + exists [], (row :: rest). simpl. repeat split.
      * by rewrite <- Hp.
      * f_equal; lia.
      * right. simpl in Hc. lia.
      * intros pre x post H. by destruct pre.
    + destruct (IH (filter (fun r => ss_id r ≠ ss_id row) table)
                   (fs ∖ {[ss_file_path row]})
                   (current - ss_file_size row) (cnt + 1)
                   (bytes + ss_file_size row))
        as (removed & kept & Hrows & Htable & Hcounts & Hkept & Hneeded).
      * symmetry. by apply delete_swept_row.
      * rewrite fmap_cons in Hnd. by apply NoDup_cons in Hnd as [_ ?].
      * simpl in Hc. lia.
      * exists (row :: removed), kept. repeat split.
        -- simpl. by rewrite Hrows.
        -- exact Htable.
        -- rewrite Hcounts. simpl length. simpl sum_file_size. f_equal; lia.
        -- exact Hkept.
        -- intros pre x post H. destruct pre as [|p pre].
           ++ simpl in H. inversion H; subst x post.
              rewrite <- Hrows. simpl in Hc. simpl. lia.
           ++ simpl in H. inversion H; subst. by apply (Hneeded pre x post).
Qed.


(** What [enforce_storage_limit] does on a store whose screenshot ids are
    distinct (the primary key): for [max_bytes <= 0] the call changes
    nothing and returns (0, 0); for [max_bytes > 0] the stored total
    afterwards is at most [max_bytes] (removing every row gives a total of
    0), the rows deleted are a prefix of the rows in the order of their
    stored captured_at texts and the rows left are the rest, the counts
    returned are the number and the total size of the deleted rows, and no
    row is deleted once the total is within the budget.  The order is that
    of the texts, not of the instants they stand for. *)
Theorem storage_limit (max_bytes : Z) (db : Store) :
  NoDup (ss_id <$> screenshots db) ->
  let db' := (enforce_storage_limit max_bytes db).1 in
  let counts := (enforce_storage_limit max_bytes db).2 in
  (max_bytes <= 0 -> db' = db /\ counts = (0, 0)) /\
  (0 < max_bytes ->
     total_screenshot_bytes db' <= max_bytes /\
     (total_screenshot_bytes db <= max_bytes -> db' = db /\ counts = (0, 0)) /\
     exists removed kept,
       stable_sort captured_at_leb (screenshots db) = removed ++ kept /\
       screenshots db' ≡ₚ kept /\
       counts = (Z.of_nat (length removed), sum_file_size removed) /\
       (forall r k, r ∈ removed -> k ∈ kept ->
          String.leb (ss_captured_at r) (ss_captured_at k) = true) /\
       (forall pre x post, removed = pre ++ x :: post ->
          max_bytes < sum_file_size (x :: post ++ kept))).
Proof.
  intros Hnd db' counts. subst db' counts.
  unfold enforce_storage_limit, total_screenshot_bytes.
  destruct (Z.leb_spec max_bytes 0) as [Hoff|Hon]; simpl.
  { split; [done|]. lia. }
  split; [lia|]. intros _.
  destruct (Z.leb_spec (sum_file_size (screenshots db)) max_bytes) as [Hle|Hgt];
    simpl.
  { split; [done|]. split; [done|].
    exists [], (stable_sort captured_at_leb (screenshots db)).
    repeat split.
    - by rewrite stable_sort_perm.
    - intros r k Hr. by apply elem_of_nil in Hr.
    - intros pre x post H. by destruct pre. }
  pose proof (stable_sort_perm captured_at_leb (screenshots db)) as Hperm.
  destruct (enforce_loop_spec max_bytes
              (stable_sort captured_at_leb (screenshots db))
              (screenshots db) (files db)
              (sum_file_size (screenshots db)) 0 0)
    as (removed & kept & Hrows & Htable & Hcounts & Hkept & Hneeded).
  { exact Hperm. }
  { by rewrite Hperm. }
  { symmetry. by apply sum_file_size_perm. }
  destruct (enforce_loop _ _ _ _ _ _ _) as [[table fs] cs]. simpl in *.
  split; [|split; [lia|]].
  - rewrite (sum_file_size_perm _ _ Htable).
    destruct Hkept as [-> | Hk]; [simpl; lia | exact Hk].
  - exists removed, kept. repeat split; try done.
    intros r k Hr Hk.
    pose proof (order_by_captured_at (screenshots db)) as Hsorted.
    rewrite Hrows in Hsorted.
    exact (StronglySorted_app_1_elem_of _ _ _ _ _ Hsorted Hr Hk).
Qed.

Lemma storage_limit_witness :
  let db0 :=
    (insert_screenshot "2026-01-05T09:01:00+00:00" "b.jpg" 1200 "B" "Code"
       (insert_screenshot "2026-01-05T09:00:00+00:00" "a.jpg" 1200 "A" "Code"
          empty_store).1).1 in
  total_screenshot_bytes (enforce_storage_limit 1500 db0).1 <= 1500.
Proof.
  cbv zeta.
  refine (proj1 (proj2 (storage_limit 1500 _ _) _)).
  - simpl. apply NoDup_cons. split; [|apply NoDup_singleton].
    rewrite list_elem_of_singleton. discriminate.
  - lia.
Defined.

(** C2, the code at the failing input.  Two screenshots are taken 40
    minutes apart across the end of daylight saving time: the first at
    00:30 UTC, stored as 02:30 with offset +02:00, the second at 01:10 UTC,
    stored as 02:10 with offset +01:00.  With a budget that holds one of
    them, [enforce_storage_limit] deletes the second, newer screenshot and
    keeps the older one: ORDER BY captured_at compares the stored texts,
    and the text of the newer instant comes first. *)
Theorem storage_limit_deletes_newer_first :
  let older := 1792888200000000 in
  let newer := older + timedelta_seconds 2400 in
  let db :=
    (insert_screenshot_at newer 60 "new.jpg" 1200 "B" "Code"
       (insert_screenshot_at older 120 "old.jpg" 1200 "A" "Code"
          empty_store).1).1 in
  older < newer /\
  ss_captured_at <$> screenshots db
  = ["2026-10-25T02:30:00+02:00"; "2026-10-25T02:10:00+01:00"] /\
  ss_file_path <$> screenshots db = ["old.jpg"; "new.jpg"] /\
  ss_id <$> screenshots db = [1; 2] /\
  ss_file_path <$> screenshots (enforce_storage_limit 1500 db).1 = ["old.jpg"] /\
  (enforce_storage_limit 1500 db).2 = (1, 1200).
Proof.
  cbv zeta. split; [reflexivity|]. split; [reflexivity|].
  split; [reflexivity|]. split; [reflexivity|]. split; reflexivity.
Qed.

End StorageLimit.

(** ** The analyzer: downsampling *)

Section Downsampling.
Import Models Ai.

Lemma stride_sublist {B} (step skip : nat) (rows : list B) :
  stride step skip rows `sublist_of` rows.
Proof.
  revert skip. induction rows as [|x r IH]; intros skip; [by destruct skip|].
  destruct skip as [|k]; simpl.
  - apply sublist_skip, IH.
  - apply sublist_cons, IH.
Qed.

(** [rows[::step]] holds the elements at the multiples of [step]. *)
Lemma stride_lookup {B} (step skip : nat) (rows : list B) (i : nat) :
  (1 <= step)%nat ->
  stride step skip rows !! i = rows !! (skip + i * step)%nat.
Proof.
  intros Hstep. revert skip i.
  induction rows as [|x r IH]; intros skip i; [by destruct skip|].
  destruct skip as [|k]; simpl.
  - destruct i as [|j]; simpl; [done|].
    rewrite IH. destruct step as [|s]; [lia|]. done.
  - by rewrite IH.
Qed.

Lemma stride_length {B} (step skip : nat) (rows : list B) :
  (1 <= step)%nat ->
  (length rows <= skip + length (stride step skip rows) * step)%nat.
Proof.
  intros Hstep. revert skip. induction rows as [|x r IH]; intros skip; [simpl; lia|].
  destruct skip as [|k]; simpl.
  - specialize (IH (pred step)). destruct step; simpl in *; lia.
  - specialize (IH k). lia.
Qed.

(** All but the last element taken lie before the last row. *)
Lemma stride_init_sublist {B} (step skip : nat) (rows : list B) (n : nat) :
  (n < length (stride step skip rows))%nat ->
  take n (stride step skip rows) `sublist_of` take (pred (length rows)) rows.
Proof.
  revert skip n. induction rows as [|x r IH]; intros skip n Hn.
  - simpl in Hn. lia.
  - destruct skip as [|k]; simpl in Hn.
    + destruct n as [|m]; [apply sublist_nil_l|].
      assert (m < length (stride step (pred step) r))%nat as Hm by lia.
      destruct r as [|y r']; [simpl in Hm; lia|].
      cbn [stride length pred take]. apply sublist_skip.
      exact (IH _ _ Hm).
    + destruct r as [|y r']; [simpl in Hn; lia|].
      cbn [stride length pred take]. apply sublist_cons.
      exact (IH _ _ Hn).
Qed.

Lemma insert_last {B} (l : list B) (y : B) :
  l <> [] -> <[pred (length l) := y]> l = take (pred (length l)) l ++ [y].
Proof.
  intros Hl. assert (0 < length l)%nat as Hlen by (destruct l; simpl; [done|lia]).
  rewrite insert_take_drop by lia.
  replace (S (pred (length l))) with (length l) by lia.
  by rewrite drop_all.
Qed.

Lemma sublist_snoc_last {B} (l : list B) (rows : list B) (y : B) :
  last rows = Some y ->
  l `sublist_of` take (pred (length rows)) rows ->
  l ++ [y] `sublist_of` rows.
Proof.
  intros Hy. destruct (last_Some rows y) as [[l' ->] _]; [done|].
  rewrite length_app. simpl. rewrite Nat.add_1_r. simpl.
  rewrite take_app_length. intros Hl. by apply sublist_app.
Qed.

Lemma same_id_same_row (rows : list ScreenshotRecord) (x y : ScreenshotRecord) :
  NoDup (sr_id <$> rows) -> x ∈ rows -> y ∈ rows -> sr_id x = sr_id y -> x = y.
Proof.
  intros Hnd Hx Hy Hid.
  apply list_elem_of_lookup in Hx as [i Hi].
  apply list_elem_of_lookup in Hy as [j Hj].
  assert (i = j) as ->.
  { apply (NoDup_lookup (sr_id <$> rows) i j (sr_id x)); [done| |].
    - by rewrite list_lookup_fmap, Hi.
    - by rewrite list_lookup_fmap, Hj, Hid. }
  congruence.
Qed.


Lemma sample_long (rows : list ScreenshotRecord) :
  (20 < length rows)%nat ->
  let step := Nat.max 1 (length rows / 20) in
  let strided := stride step 0 rows in
  exists r_last s_last,
    last rows = Some r_last /\
    last (take 20 strided) = Some s_last /\
    (20 <= length strided)%nat /\
    generate_sample rows
    = Ok (if negb (sr_id s_last =? sr_id r_last)
          then take 19 strided ++ [r_last]
          else take 20 strided).
Proof.
  intros Hlen step strided.
  assert (1 <= step)%nat as Hstep by (unfold step; lia).
  assert (20 <= length strided)%nat as Hstrided.
  { pose proof (stride_length step 0 rows Hstep) as H. fold strided in H.
    assert (step * 20 <= length rows)%nat.
    { unfold step. pose proof (Nat.Div0.mul_div_le (length rows) 20). lia. }
    nia. }
  assert (length (take 20 strided) = 20%nat) as Htake
    by (rewrite length_take; lia).
  destruct (last rows) as [r_last|] eqn:Hr;
    [|apply last_None in Hr; subst rows; simpl in Hlen; lia].
  destruct (last (take 20 strided)) as [s_last|] eqn:Hs;
    [|apply last_None in Hs; rewrite Hs in Htake; done].
  exists r_last, s_last. repeat split; try done.
  unfold generate_sample, _sample_screenshots.
  destruct (Nat.leb_spec (length rows) 20) as [|_]; [lia|].
  fold step. fold strided.
  assert ((if (20 <? length strided)%nat then take 20 strided else strided)
          = take 20 strided) as ->.
  { destruct (Nat.ltb_spec 20 (length strided)); [done|].
    rewrite take_ge; [done|lia]. }
  rewrite Hs, Hr.
  destruct (negb (sr_id s_last =? sr_id r_last)); [|done].
  rewrite insert_last by (intros E; rewrite E in Htake; done).
  rewrite Htake. simpl pred. rewrite take_take. done.
Qed.

(** The last sample is recognised by its id: with two rows that carry
    one id, which no table with a primary key holds, the last element
    returned need not be the last row.  Here rows 20 and 21 of 21 rows
    share id 19 and differ in their file. *)
Lemma sample_keeps_last_by_id :
  let row (i : Z) (path : string) :=
    {| sr_id := i; sr_captured_at := i; sr_file_path := path;
       sr_file_size := 0; sr_window_title := ""; sr_process_name := "" |} in
  let rows :=
    ((fun i : nat => row (Z.of_nat i) "a.jpg") <$> seq 0 20) ++ [row 19 "b.jpg"] in
  length rows = 21%nat /\
  last rows = Some (row 19 "b.jpg") /\
  exists sampled,
    generate_sample rows = Ok sampled /\
    last sampled = Some (row 19 "a.jpg") /\
    last sampled <> last rows.
Proof.
  cbv zeta. split; [reflexivity|]. split; [reflexivity|].
  eexists. split; [vm_compute; reflexivity|]. split; [reflexivity|].
  vm_compute. congruence.
Qed.

(** The rows [generate] samples are read with [list_screenshots_for_date]:
    their ids are those of the table, which are distinct. *)
Lemma listed_ids_distinct (fromisoformat : string -> result datetime)
    (now : datetime) (day : string) (db : Database.Store) :
  NoDup (Database.ss_id <$> Database.screenshots db) ->
  NoDup (sr_id <$> Database.list_screenshots_for_date fromisoformat now day db).
Proof.
  intros Hnd. unfold Database.list_screenshots_for_date, Database.rows_for_day.
  rewrite <- list_fmap_compose.
  change (sr_id ∘ Database._row_to_record fromisoformat now)
    with Database.ss_id.
  rewrite stable_sort_perm.
  eapply sublist_NoDup; [exact Hnd|]. apply fmap_sublist, sublist_filter.
Qed.

(** C8.  On samples with pairwise distinct ids, as rows of the store have:
    a list of at most 20 samples is returned unchanged.  For a longer list
    the result is a subsequence of the input with exactly 20 elements; its
    first 19 elements are the samples at positions 0, step, 2*step, ...
    with step = max(1, len // 20), so its first element is the first
    sample; and its last element is the last sample.  The result is a
    function of the input alone. *)
Theorem sample_screenshots_spec (rows : list ScreenshotRecord) :
  NoDup (sr_id <$> rows) ->
  ((length rows <= 20)%nat -> generate_sample rows = Ok rows) /\
  ((20 < length rows)%nat ->
   exists sampled,
     generate_sample rows = Ok sampled /\
     length sampled = 20%nat /\
     sampled `sublist_of` rows /\
     head sampled = head rows /\
     last sampled = last rows /\
     (forall i, (i < 19)%nat ->
        sampled !! i = rows !! (i * Nat.max 1 (length rows / 20))%nat)).
Proof.
  intros Hnd. split.
  { intros Hlen. unfold generate_sample, _sample_screenshots.
    by destruct (Nat.leb_spec (length rows) 20); [|lia]. }
  intros Hlen.
  destruct (sample_long rows Hlen) as (r_last & s_last & Hr & Hs & Hl & Hgen).
  set (step := Nat.max 1 (length rows / 20)) in *.
  set (strided := stride step 0 rows) in *.
  assert (1 <= step)%nat as Hstep by (unfold step; lia).
  assert (forall i, (i < 19)%nat -> strided !! i = rows !! (i * step)%nat)
    as Hpos.
  { intros i Hi. unfold strided. by rewrite stride_lookup. }
  assert (head strided = head rows) as Hhead.
  { rewrite !head_lookup. unfold strided. by rewrite stride_lookup. }
  destruct (Z.eqb_spec (sr_id s_last) (sr_id r_last)) as [Hid|Hid];
    simpl in Hgen.
  - exists (take 20 strided). repeat split; try done.
    + rewrite length_take. lia.
    + etransitivity; [apply sublist_take|]. apply stride_sublist.
    + rewrite <- Hhead. destruct strided; [simpl in Hl; lia|done].
    + rewrite Hs, Hr. f_equal.
      apply (same_id_same_row rows); try done.
      * assert (s_last ∈ take 20 strided) as Hin.
        { apply last_Some in Hs as [l' ->]. set_solver. }
        apply (elem_of_sublist _ rows) in Hin; [done|].
        etransitivity; [apply sublist_take|]. apply stride_sublist.
      * apply last_Some in Hr as [l' ->]. set_solver.
    + intros i Hi. rewrite lookup_take_lt by lia. by apply Hpos.
  - exists (take 19 strided ++ [r_last]). repeat split; try done.
    + rewrite length_app, length_take. cbn [length]. lia.
    + apply sublist_snoc_last; [done|].
      apply stride_init_sublist. fold step. fold strided. lia.
    + rewrite <- Hhead. destruct strided; [simpl in Hl; lia|done].
    + by rewrite last_snoc.
    + intros i Hi. rewrite lookup_app_l by (rewrite length_take; lia).
      rewrite lookup_take_lt by lia. by apply Hpos.
Qed.

Lemma sample_screenshots_spec_witness :
  let rows := (fun i : nat => Examples._record (Z.of_nat i) (Z.of_nat i))
              <$> seq 0 45 in
  exists sampled,
    generate_sample rows = Ok sampled /\ length sampled = 20%nat /\
    head sampled = head rows /\ last sampled = last rows.
Proof.
  cbv zeta.
  assert (NoDup (sr_id <$> ((fun i : nat =>
                               Examples._record (Z.of_nat i) (Z.of_nat i))
                            <$> seq 0 45))) as Hnd.
  { apply (@bool_decide_unpack _ (NoDup_dec _)). by vm_compute. }
  destruct (proj2 (sample_screenshots_spec
                     ((fun i : nat => Examples._record (Z.of_nat i) (Z.of_nat i))
                      <$> seq 0 45) Hnd))
    as (sampled & Hgen & Hlen & _ & Hhead & Hlast & _).
  - simpl. lia.
  - exists sampled. by repeat split.
Defined.

End Downsampling.

(** ** The analyzer: card normalization *)

Section Normalization.
Import Models Ai Spec PyText.

Lemma rstrip_idem (s : string) : rstrip (rstrip s) = rstrip s.
Proof.
  induction s as [|c s IH]; [done|].
  cbn [rstrip]. destruct (rstrip s) as [|d r] eqn:E.
  - destruct (isspace c) eqn:Ec; [done|]. cbn [rstrip]. by rewrite Ec.
  - cbn [rstrip]. cbn [rstrip] in IH. by rewrite IH.
Qed.

Lemma lstrip_shape (s : string) :
  lstrip s = EmptyString \/
  exists c r, lstrip s = String c r /\ isspace c = false.
Proof.
  induction s as [|c s IH]; [by left|].
  cbn [lstrip]. destruct (isspace c) eqn:Ec; [done|].
  right. by exists c, s.
Qed.

Lemma strip_idem (s : string) : strip (strip s) = strip s.
Proof.
  unfold strip. destruct (lstrip_shape s) as [-> | (c & r & -> & Hc)]; [done|].
  assert (exists r', rstrip (String c r) = String c r') as [r' Hr].
  { cbn [rstrip]. destruct (rstrip r); [rewrite Hc|]; by eexists. }
  rewrite Hr. cbn [lstrip]. rewrite Hc, <- Hr. apply rstrip_idem.
Qed.

Lemma isdecimal_cases (x : ascii) :
  isdecimal x = true -> In x (list_ascii_of_string "0123456789").
Proof.
  destruct x as [[] [] [] [] [] [] [] []]; intros H; vm_compute in H;
    try discriminate H; vm_compute;
    repeat (first [left; reflexivity | right]).
Qed.

Lemma format_two_digits (x y : ascii) :
  isdecimal x = true -> isdecimal y = true ->
  format_02d (digit_value x * 10 + digit_value y) = String x (String y EmptyString).
Proof.
  intros Hx Hy. apply isdecimal_cases in Hx. apply isdecimal_cases in Hy.
  simpl in Hx, Hy.
  repeat (destruct Hx as [<- | Hx]; [|]); try done;
    repeat (destruct Hy as [<- | Hy]; [|]); try done; reflexivity.
Qed.


Lemma plain_digit (x : ascii) :
  negb (isdigit_char x) || isdecimal x = true -> isdigit_char x = isdecimal x.
Proof.
  unfold isdigit_char. destruct (isdecimal x); simpl; [done|].
  rewrite orb_false_r. apply negb_true_iff.
Qed.

Lemma digit_value_range (x : ascii) :
  isdecimal x = true -> 0 <= digit_value x <= 9.
Proof.
  unfold isdecimal, digit_value. rewrite andb_true_iff, !N.leb_le. lia.
Qed.

(** On a plain time text, [_norm_hhmm] returns, and returns the trimmed
    text when it is a strict HH:MM and the empty text otherwise. *)
Lemma norm_hhmm_plain (v : string) :
  plain_time (strip v) = true ->
  _norm_hhmm v = Ok (if hhmm_strict (strip v) then strip v else "").
Proof.
  intros Hp. unfold _norm_hhmm. set (w := strip v) in *. clearbody w. clear v.
  destruct w as [|a [|b [|c [|d [|e [|f w']]]]]]; try reflexivity.
  cbn [String.length Nat.eqb andb String.get hhmm_strict].
  destruct (Ascii.eqb_spec c ":") as [->|Hc].
  2:{ rewrite bool_decide_eq_false_2 by congruence.
      by rewrite !andb_false_r. }
  rewrite bool_decide_eq_true_2 by done.
  unfold plain_time in Hp. apply andb_true_iff in Hp as [Hcount Hchars].
  cbn [count_char all_chars] in Hcount, Hchars.
  rewrite Ascii.eqb_refl in Hcount.
  destruct (Ascii.eqb a ":") eqn:Ea; [by destruct (Ascii.eqb b ":"), (Ascii.eqb d ":"), (Ascii.eqb e ":")|].
  destruct (Ascii.eqb b ":") eqn:Eb; [by destruct (Ascii.eqb d ":"), (Ascii.eqb e ":")|].
  destruct (Ascii.eqb d ":") eqn:Ed; [by destruct (Ascii.eqb e ":")|].
  destruct (Ascii.eqb e ":") eqn:Ee; [done|].
  cbn [remove_char]. rewrite Ea, Eb, Ed, Ee, Ascii.eqb_refl.
  cbn [isdigit all_chars].
  repeat (apply andb_true_iff in Hchars as [? Hchars]).
  rewrite !plain_digit by done.
  cbn [PyText.take PyText.drop PyText.int all_chars].
  rewrite !andb_true_r.
  destruct (isdecimal a) eqn:Da; [|done].
  destruct (isdecimal b) eqn:Db; [|done].
  destruct (isdecimal d) eqn:Dd; [|by rewrite ?andb_false_r].
  destruct (isdecimal e) eqn:De; [|by rewrite ?andb_false_r].
  cbn [andb rbind decimal_value].
  pose proof (digit_value_range a Da). pose proof (digit_value_range b Db).
  pose proof (digit_value_range d Dd). pose proof (digit_value_range e De).
  replace ((0 * 10 + digit_value a) * 10 + digit_value b)
    with (digit_value a * 10 + digit_value b) by lia.
  replace ((0 * 10 + digit_value d) * 10 + digit_value e)
    with (digit_value d * 10 + digit_value e) by lia.
  rewrite !format_two_digits by done.
  destruct (Z.leb_spec 0 (digit_value a * 10 + digit_value b)); [|lia].
  destruct (Z.leb_spec 0 (digit_value d * 10 + digit_value e)); [|lia].
  cbn [andb].
  destruct (digit_value a * 10 + digit_value b <=? 23); [|done].
  destruct (digit_value d * 10 + digit_value e <=? 59); done.
Qed.

Lemma hhmm_strict_nonempty (s : string) :
  is_empty (if hhmm_strict s then s else "") = negb (hhmm_strict s).
Proof. destruct s; [done|]. by destruct (hhmm_strict _). Qed.

Lemma field_stripped (d : gmap string pyval) (key fallback : string) :
  strip (field d key fallback) = field d key fallback.
Proof. unfold field. apply strip_idem. Qed.

Lemma normalize_step (d : gmap string pyval) (es : list entry)
    (cards : list (gmap string string)) :
  plain_entry (EntryDict d) = true ->
  normalize_loop (EntryDict d :: es) cards
  = normalize_loop es
      (cards ++ match normalized_card (EntryDict d) with
                | Some c => [c]
                | None => []
                end).
Proof.
  intros He. simpl in He. apply andb_true_iff in He as [Hs He].
  cbn [normalize_loop normalized_card].
  change (strip (str (get d "start" (PStr "")))) with (field d "start" "").
  change (strip (str (get d "end" (PStr "")))) with (field d "end" "").
  change (strip (str (get d "title" (PStr "")))) with (field d "title" "").
  change (strip (str (get d "summary" (PStr ""))))
    with (field d "summary" "").
  change (strip (str (get d "category" (PStr "Other"))))
    with (field d "category" "Other").
  rewrite !norm_hhmm_plain by (by rewrite field_stripped).
  rewrite !field_stripped. cbn [rbind]. rewrite !hhmm_strict_nonempty.
  destruct (hhmm_strict (field d "start" "")); cbn [negb orb andb];
    [|by rewrite app_nil_r].
  destruct (hhmm_strict (field d "end" "")); cbn [negb orb andb];
    [|by rewrite app_nil_r].
  destruct (is_empty (field d "title" "")); cbn [negb];
    [by rewrite app_nil_r|done].
Qed.

Lemma normalize_loop_plain (entries : list entry) :
  forall cards,
  Forall (fun e => plain_entry e = true) entries ->
  normalize_loop entries cards = Ok (cards ++ omap normalized_card entries).
Proof.
  induction entries as [|e es IH]; intros cards Hplain.
  - simpl. by rewrite app_nil_r.
  - apply Forall_cons in Hplain as [He Hes].
    destruct e as [d|].
    + rewrite normalize_step, IH by done.
      rewrite <- app_assoc. f_equal. f_equal.
      change (omap normalized_card (EntryDict d :: es))
        with (match normalized_card (EntryDict d) with
              | Some c => c :: omap normalized_card es
              | None => omap normalized_card es
              end).
      by destruct (normalized_card (EntryDict d)).
    + cbn [normalize_loop]. by rewrite IH.
Qed.


(** The texts are trimmed before they are checked: a candidate whose
    start is a strict HH:MM text padded with a space is kept, with the start
    trimmed. *)
Lemma normalize_accepts_padded_time :
  _normalize_cards
    (CardsList [Examples.candidate
                  [("start", PStr " 09:00"); ("end", PStr "09:30");
                   ("title", PStr "Work")]])
  = Ok [card_dict "09:00" "09:30" "Work" "" "Other"] /\
  hhmm_strict " 09:00" = false.
Proof. split; [by vm_compute | reflexivity]. Qed.

(** A piece that [int] reads is made of decimal digits, and a decimal
    digit is neither a colon nor outside [isdigit]. *)
Lemma isdecimal_isdigit (x : ascii) : isdecimal x = true -> isdigit_char x = true.
Proof. unfold isdigit_char. by intros ->. Qed.

Lemma isdecimal_not_colon (x : ascii) :
  isdecimal x = true -> Ascii.eqb x ":" = false.
Proof.
  intros Hx. destruct (Ascii.eqb_spec x ":") as [->|]; [|done].
  by vm_compute in Hx.
Qed.

(** [_norm_hhmm] in full: it raises on the texts that slip through its
    test, and otherwise returns the trimmed text when that is a strict
    HH:MM and the empty text when it is not. *)
Lemma norm_hhmm_cases (v : string) :
  _norm_hhmm v
  = if slips (strip v) then Raise (ValueError "invalid literal for int()")
    else Ok (if hhmm_strict (strip v) then strip v else "").
Proof.
  unfold _norm_hhmm, slips. set (w := strip v). clearbody w. clear v.
  destruct w as [|a [|b [|c [|d [|e [|f w']]]]]]; try reflexivity.
  cbn [String.length Nat.eqb andb String.get hhmm_strict PyText.take
       PyText.drop].
  destruct (Ascii.eqb_spec c ":") as [->|Hc].
  2:{ rewrite bool_decide_eq_false_2 by congruence.
      cbn [andb]. by rewrite !andb_false_r. }
  rewrite bool_decide_eq_true_2 by done. cbn [andb].
  destruct (isdigit (remove_char ":" (String a (String b (String ":"
              (String d (String e EmptyString))))))) eqn:Hdig.
  2:{ cbn [andb].
      destruct (isdecimal a) eqn:Da; [|done].
      destruct (isdecimal b) eqn:Db; [|done].
      destruct (isdecimal d) eqn:Dd; [|by rewrite ?andb_false_r].
      destruct (isdecimal e) eqn:De; [|by rewrite ?andb_false_r].
      exfalso. cbn [remove_char] in Hdig.
      rewrite (isdecimal_not_colon a Da), (isdecimal_not_colon b Db),
        (isdecimal_not_colon d Dd), (isdecimal_not_colon e De),
        Ascii.eqb_refl in Hdig.
      cbn [isdigit all_chars] in Hdig.
      rewrite (isdecimal_isdigit a Da), (isdecimal_isdigit b Db),
        (isdecimal_isdigit d Dd), (isdecimal_isdigit e De) in Hdig.
      discriminate Hdig. }
  cbn [andb PyText.int all_chars]. rewrite !andb_true_r.
  destruct (isdecimal a) eqn:Da; [|done].
  destruct (isdecimal b) eqn:Db; [|done].
  destruct (isdecimal d) eqn:Dd; [|done].
  destruct (isdecimal e) eqn:De; [|done].
  cbn [andb negb rbind decimal_value].
  pose proof (digit_value_range a Da). pose proof (digit_value_range b Db).
  pose proof (digit_value_range d Dd). pose proof (digit_value_range e De).
  replace ((0 * 10 + digit_value a) * 10 + digit_value b)
    with (digit_value a * 10 + digit_value b) by lia.
  replace ((0 * 10 + digit_value d) * 10 + digit_value e)
    with (digit_value d * 10 + digit_value e) by lia.
  rewrite !format_two_digits by done.
  destruct (Z.leb_spec 0 (digit_value a * 10 + digit_value b)); [|lia].
  destruct (Z.leb_spec 0 (digit_value d * 10 + digit_value e)); [|lia].
  cbn [andb].
  destruct (digit_value a * 10 + digit_value b <=? 23); [|done].
  destruct (digit_value d * 10 + digit_value e <=? 59); done.
Qed.

(** One turn of the loop at a candidate that does not abort. *)
Lemma normalize_step_total (d : gmap string pyval) (es : list entry)
    (cards : list (gmap string string)) :
  aborts (EntryDict d) = false ->
  normalize_loop (EntryDict d :: es) cards
  = normalize_loop es
      (cards ++ match normalized_card (EntryDict d) with
                | Some c => [c]
                | None => []
                end).
Proof.
  intros He. simpl in He. apply orb_false_iff in He as [Hs He].
  cbn [normalize_loop normalized_card].
  change (strip (str (get d "start" (PStr "")))) with (field d "start" "").
  change (strip (str (get d "end" (PStr "")))) with (field d "end" "").
  change (strip (str (get d "title" (PStr "")))) with (field d "title" "").
  change (strip (str (get d "summary" (PStr ""))))
    with (field d "summary" "").
  change (strip (str (get d "category" (PStr "Other"))))
    with (field d "category" "Other").
  rewrite !norm_hhmm_cases, !field_stripped, Hs, He.
  cbn [rbind]. rewrite !hhmm_strict_nonempty.
  destruct (hhmm_strict (field d "start" "")); cbn [negb orb andb];
    [|by rewrite app_nil_r].
  destruct (hhmm_strict (field d "end" "")); cbn [negb orb andb];
    [|by rewrite app_nil_r].
  destruct (is_empty (field d "title" "")); cbn [negb];
    [by rewrite app_nil_r|done].
Qed.

(** The turn of the loop at a candidate that aborts. *)
Lemma normalize_step_aborts (d : gmap string pyval) (es : list entry)
    (cards : list (gmap string string)) :
  aborts (EntryDict d) = true ->
  normalize_loop (EntryDict d :: es) cards
  = Raise (ValueError "invalid literal for int()").
Proof.
  intros He. simpl in He. cbn [normalize_loop].
  change (strip (str (get d "start" (PStr "")))) with (field d "start" "").
  change (strip (str (get d "end" (PStr "")))) with (field d "end" "").
  rewrite !norm_hhmm_cases, !field_stripped.
  destruct (slips (field d "start" "")); [done|].
  simpl in He. rewrite He. done.
Qed.

Lemma omap_cons_card (e : entry) (es : list entry) :
  omap normalized_card (e :: es)
  = match normalized_card e with
    | Some c => [c]
    | None => []
    end ++ omap normalized_card es.
Proof.
  change (omap normalized_card (e :: es))
    with (match normalized_card e with
          | Some c => c :: omap normalized_card es
          | None => omap normalized_card es
          end).
  by destruct (normalized_card e).
Qed.

(** The loop over a batch in which no candidate aborts. *)
Lemma normalize_loop_total (entries : list entry) :
  forall cards,
  Forall (fun e => aborts e = false) entries ->
  normalize_loop entries cards = Ok (cards ++ omap normalized_card entries).
Proof.
  induction entries as [|e es IH]; intros cards Hok.
  - simpl. by rewrite app_nil_r.
  - apply Forall_cons in Hok as [He Hes]. rewrite omap_cons_card.
    destruct e as [d|].
    + rewrite normalize_step_total, IH by done. by rewrite <- app_assoc.
    + cbn [normalize_loop]. by rewrite IH.
Qed.

(** The loop over a batch in which a candidate aborts. *)
Lemma normalize_loop_aborts (entries : list entry) :
  forall cards,
  Exists (fun e => aborts e = true) entries ->
  normalize_loop entries cards = Raise (ValueError "invalid literal for int()").
Proof.
  induction entries as [|e es IH]; intros cards Hex.
  - by apply Exists_nil in Hex.
  - destruct (aborts e) eqn:He.
    + destruct e as [d|]; [|done]. by apply normalize_step_aborts.
    + apply Exists_cons in Hex as [Hex|Hex]; [congruence|].
      destruct e as [d|].
      * rewrite normalize_step_total by done. by apply IH.
      * cbn [normalize_loop]. by apply IH.
Qed.

(** [_normalize_cards] returns exactly on the batches in which no
    candidate aborts; on every other batch it raises and returns no card. *)
Lemma normalize_cards_returns_iff (entries : list entry) :
  (Forall (fun e => aborts e = false) entries <->
   _normalize_cards (CardsList entries) = Ok (omap normalized_card entries)) /\
  (Exists (fun e => aborts e = true) entries <->
   _normalize_cards (CardsList entries)
   = Raise (ValueError "invalid literal for int()")).
Proof.
  unfold _normalize_cards.
  destruct (decide (Exists (fun e => aborts e = true) entries)) as [Hex|Hno].
  - rewrite normalize_loop_aborts by done. split; split; try done.
    intros Hall. exfalso. apply Exists_exists in Hex as (e & Hin & He).
    rewrite Forall_forall in Hall. specialize (Hall e Hin). congruence.
  - assert (Forall (fun e => aborts e = false) entries) as Hall.
    { apply Forall_forall. intros e Hin. destruct (aborts e) eqn:He; [|done].
      exfalso. apply Hno, Exists_exists. by exists e. }
    rewrite normalize_loop_total by done. split; split; done.
Qed.


(** What holds for a batch in which no candidate aborts:
    [_normalize_cards] returns, in order, the cards of the candidates that
    are dicts whose start and end, converted to text and trimmed, are
    strict zero-padded 24-hour HH:MM texts and whose title, converted to
    text and trimmed, is not empty; every other candidate is dropped and
    the cards of its siblings are the same as without it.  A kept card
    carries the trimmed start, end, title and summary, and the trimmed
    category, or "Other" when that is missing or empty.  An argument that
    is not a list gives no cards.  The card with start 09:00, end 09:30 and
    title Work passes through unchanged, and the card with start "bad" next
    to it is dropped. *)
Lemma normalize_cards_spec (entries : list entry) :
  Forall (fun e => aborts e = false) entries ->
  _normalize_cards (CardsList entries) = Ok (omap normalized_card entries) /\
  (forall es1 es2, entries = es1 ++ es2 ->
     _normalize_cards (CardsList entries)
     = Ok (omap normalized_card es1 ++ omap normalized_card es2)) /\
  (forall c, c ∈ omap normalized_card entries <->
     exists d, EntryDict d ∈ entries /\
       hhmm_strict (field d "start" "") = true /\
       hhmm_strict (field d "end" "") = true /\
       field d "title" "" <> "" /\
       c = card_dict (field d "start" "") (field d "end" "")
             (field d "title" "") (field d "summary" "")
             (Timeline.or_text (field d "category" "Other") "Other")) /\
  _normalize_cards CardsOther = Ok [] /\
  (exists c,
     _normalize_cards (CardsList [Examples.work_card; Examples.bad_card])
     = Ok [c] /\
     Examples.work_card = EntryDict (PStr <$> c)).
Proof.
  intros Hok.
  assert (_normalize_cards (CardsList entries)
          = Ok (omap normalized_card entries)) as Hmain.
  { unfold _normalize_cards. by rewrite normalize_loop_total. }
  split; [exact Hmain|]. split; [|split; [|split]].
  - intros es1 es2 ->. rewrite Hmain. by rewrite omap_app.
  - intros c. rewrite list_elem_of_omap. split.
    + intros ([d|] & Hin & Hc); [|done]. exists d. split; [done|].
      cbn [normalized_card] in Hc.
      destruct (hhmm_strict (field d "start" "")); [|done].
      destruct (hhmm_strict (field d "end" "")); [|done].
      destruct (field d "title" "") eqn:Et; [done|].
      cbn [andb negb is_empty] in Hc. inversion Hc. by repeat split.
    + intros (d & Hin & Hs & He & Ht & ->). exists (EntryDict d).
      split; [done|]. cbn [normalized_card]. rewrite Hs, He.
      by destruct (field d "title" "").
  - reflexivity.
  - eexists. split; [by vm_compute|]. by vm_compute.
Qed.

(** C6, the code at the failing input.  A candidate whose trimmed start is
    the text 1::30 is not a valid card, so it should be dropped and its
    siblings kept.  Its five characters with a colon in the middle pass the
    digit test of [_norm_hhmm] once the colons are removed, and [int] then
    raises on the piece before the middle colon.  Whatever candidates stand
    before and after it in the batch, [_normalize_cards] raises
    [ValueError] and returns no card at all, although the same batch
    without that candidate gives the cards of its valid candidates. *)
Theorem normalize_aborts_on_second_colon (before after : list entry)
    (d : gmap string pyval) :
  field d "start" "" = "1::30" ->
  hhmm_strict "1::30" = false /\
  normalized_card (EntryDict d) = None /\
  _normalize_cards (CardsList (before ++ EntryDict d :: after))
  = Raise (ValueError "invalid literal for int()") /\
  (Forall (fun e => aborts e = false) (before ++ after) ->
   _normalize_cards (CardsList (before ++ after))
   = Ok (omap normalized_card before ++ omap normalized_card after)).
Proof.
  intros Hstart. split; [reflexivity|]. split; [|split].
  - cbn [normalized_card]. by rewrite Hstart.
  - unfold _normalize_cards. apply normalize_loop_aborts.
    apply Exists_app. right. apply Exists_cons_hd.
    cbn [aborts]. by rewrite Hstart.
  - intros Hok. unfold _normalize_cards.
    rewrite normalize_loop_total by done. by rewrite omap_app.
Qed.

Lemma normalize_aborts_on_second_colon_witness :
  _normalize_cards
    (CardsList [Examples.work_card;
                Examples.candidate
                  [("start", PStr "1::30"); ("end", PStr "09:30");
                   ("title", PStr "Odd")];
                Examples.work_card])
  = Raise (ValueError "invalid literal for int()") /\
  _normalize_cards (CardsList [Examples.work_card; Examples.work_card])
  = Ok [card_dict "09:00" "09:30" "Work" "x" "Coding";
        card_dict "09:00" "09:30" "Work" "x" "Coding"].
Proof.
  pose proof (normalize_aborts_on_second_colon
    [Examples.work_card] [Examples.work_card]
    (list_to_map [("start", PStr "1::30"); ("end", PStr "09:30");
                  ("title", PStr "Odd")]) eq_refl) as (_ & _ & Hbad & Hgood).
  split; [exact Hbad|]. apply Hgood. by repeat constructor.
Defined.

End Normalization.

(** ** The decoder never runs out of fuel *)

Section JsonFuel.
Import Json.

Lemma skip_ws_length (s : list ascii) : (length (skip_ws s) <= length s)%nat.
Proof.
  induction s as [|c s IH]; simpl; [lia|]. destruct (json_ws c); simpl; lia.
Qed.

Lemma scan_escape_shorter (s r : list ascii) (n : N) :
  scan_escape s = Some (n, r) -> (length r < length s)%nat.
Proof.
  unfold scan_escape. intros H.
  destruct s as [|e s]; [done|].
  repeat match type of H with
  | (if Ascii.eqb e ?c then _ else _) = _ =>
      destruct (Ascii.eqb e c); [inversion H; subst; simpl; lia|]
  end.
  destruct (Ascii.eqb e "u"); [|done].
  destruct s as [|a [|b [|c [|d r']]]]; try discriminate H.
  destruct (hex4 a b c d) as [m|]; [|done].
  destruct r' as [|e1 [|e2 [|a2 [|b2 [|c2 [|d2 r'']]]]]];
    try (inversion H; subst; simpl; lia).
  destruct (_ && _ && _); [|inversion H; subst; simpl; lia].
  destruct (hex4 a2 b2 c2 d2) as [m2|]; [|done].
  destruct (is_low_surrogate m2); inversion H; subst; simpl; lia.
Qed.

Lemma scan_string_shorter (fuel : nat) :
  forall s acc str r, scan_string fuel s acc = Ok (str, r) ->
  (length r < length s)%nat.
Proof.
  induction fuel as [|fuel IH]; intros s acc str r H; [done|].
  destruct s as [|c s]; [done|]. cbn [scan_string] in H.
  destruct (Ascii.eqb c "034"); [inversion H; subst; simpl; lia|].
  destruct (Ascii.eqb c "\").
  - destruct (scan_escape s) as [[n r']|] eqn:E; [|done].
    apply scan_escape_shorter in E. apply IH in H. simpl. lia.
  - destruct (_ <? _)%N; [done|]. apply IH in H. simpl. lia.
Qed.

(** The fuel of [scan_text] is never used up. *)
Lemma scan_string_fuel (s : list ascii) :
  forall f1 f2 acc, (length s <= f1)%nat -> (length s <= f2)%nat ->
  scan_string f1 s acc = scan_string f2 s acc.
Proof.
  induction s as [s IH] using (induction_ltof1 _ (@length ascii)).
  unfold ltof in IH. intros f1 f2 acc H1 H2.
  destruct s as [|c s]; [by destruct f1, f2|].
  destruct f1 as [|f1]; [simpl in H1; lia|].
  destruct f2 as [|f2]; [simpl in H2; lia|].
  cbn [scan_string].
  destruct (Ascii.eqb c "034"); [done|].
  destruct (Ascii.eqb c "\").
  - destruct (scan_escape s) as [[n r']|] eqn:E; [|done].
    apply scan_escape_shorter in E. apply IH; simpl in *; lia.
  - destruct (_ <? _)%N; [done|]. apply IH; simpl in *; lia.
Qed.

Lemma scan_text_shorter (s : list ascii) (str : UText.ustring) (r : list ascii) :
  scan_text s = Ok (str, r) -> (length r < length s)%nat.
Proof. apply scan_string_shorter. Qed.

Lemma strip_prefix_length (lit s r : list ascii) :
  strip_prefix lit s = Some r -> length s = (length lit + length r)%nat.
Proof.
  revert s. induction lit as [|a lit IH]; intros s H; simpl in *.
  - by inversion H.
  - destruct s as [|b s]; [done|]. destruct (Ascii.eqb a b); [|done].
    apply IH in H. simpl. lia.
Qed.

Lemma span_digits_length (s : list ascii) :
  (length (span_digits s).2 <= length s)%nat.
Proof.
  induction s as [|c s IH]; simpl; [lia|].
  destruct (PyText.isdecimal c); [|simpl; lia].
  destruct (span_digits s) as [ds r]. simpl in *. lia.
Qed.

Lemma scan_integer_shorter (s digits r : list ascii) :
  scan_integer s = Some (digits, r) -> (length r < length s)%nat.
Proof.
  unfold scan_integer. intros H.
  destruct s as [|c s]; [done|].
  destruct (Ascii.eqb_spec c "-") as [->|Hc].
  - destruct s as [|d s]; [done|].
    destruct (Ascii.eqb d "0"); [inversion H; subst; simpl; lia|].
    destruct (PyText.isdecimal d); [|done].
    pose proof (span_digits_length s) as Hl.
    destruct (span_digits s) as [ds r']. inversion H; subst. simpl in *. lia.
  - assert ((let '(sign, s1) :=
               match c :: s with
               | "-"%char :: r0 => (["-"%char], r0)
               | _ => ([], c :: s)
               end in
             match s1 with
             | [] => None
             | c0 :: r0 =>
                 if Ascii.eqb c0 "0" then Some (sign ++ [c0], r0)
                 else if PyText.isdecimal c0
                 then let '(ds, r') := span_digits r0 in
                      Some (sign ++ c0 :: ds, r')
                 else None
             end)
            = (if Ascii.eqb c "0" then Some ([c], s)
               else if PyText.isdecimal c
               then let '(ds, r') := span_digits s in Some (c :: ds, r')
               else None)) as Heq.
    { destruct c as [[] [] [] [] [] [] [] []]; try reflexivity.
      by contradiction Hc. }
    rewrite Heq in H. clear Heq.
    destruct (Ascii.eqb c "0"); [inversion H; subst; simpl; lia|].
    destruct (PyText.isdecimal c); [|done].
    pose proof (span_digits_length s) as Hl.
    destruct (span_digits s) as [ds r']. inversion H; subst. simpl in *. lia.
Qed.

Lemma scan_fraction_length (s : list ascii) :
  (length (scan_fraction s).2 <= length s)%nat.
Proof.
  unfold scan_fraction.
  destruct s as [|c s]; [simpl; lia|].
  destruct (Ascii.eqb_spec c ".") as [->|Hc].
  - pose proof (span_digits_length s) as Hl.
    destruct (span_digits s) as [[|d ds] r]; simpl in *; lia.
  - destruct c as [[] [] [] [] [] [] [] []]; try (simpl; lia).
    by contradiction Hc.
Qed.

Lemma scan_exponent_length (s : list ascii) :
  (length (scan_exponent s).2 <= length s)%nat.
Proof.
  unfold scan_exponent.
  destruct s as [|e s]; [simpl; lia|].
  destruct (Ascii.eqb e "e" || Ascii.eqb e "E"); [|simpl; lia].
  destruct s as [|c s].
  - simpl. lia.
  - destruct (Ascii.eqb c "-" || Ascii.eqb c "+").
    + pose proof (span_digits_length s) as Hl.
      destruct (span_digits s) as [[|d ds] r]; simpl in *; lia.
    + pose proof (span_digits_length (c :: s)) as Hl.
      destruct (span_digits (c :: s)) as [[|d ds] r]; simpl in *; lia.
Qed.

Lemma scan_number_shorter (s : list ascii) (v : json) (r : list ascii) :
  scan_number s = Ok (v, r) -> (length r < length s)%nat.
Proof.
  unfold scan_number. intros H.
  destruct (scan_integer s) as [[digits r0]|] eqn:E; [|done].
  apply scan_integer_shorter in E.
  pose proof (scan_fraction_length r0) as Hf.
  destruct (scan_fraction r0) as [frac r1].
  pose proof (scan_exponent_length r1) as He.
  destruct (scan_exponent r1) as [exp r2].
  simpl in *.
  destruct frac, exp; try (inversion H; subst; lia).
  destruct (_ <? _)%nat; [done|]. inversion H; subst; lia.
Qed.

Lemma scan_literal_shorter (s : list ascii) (v : json) (r : list ascii) :
  scan_literal s = Ok (v, r) -> (length r < length s)%nat.
Proof.
  unfold scan_literal. cbv zeta beta. intros H.
  repeat match type of H with
  | context [strip_prefix ?l s] =>
      let E := fresh "E" in
      destruct (strip_prefix l s) eqn:E;
      [apply strip_prefix_length in E; simpl in E|]
  | context [scan_number s] =>
      let E := fresh "E" in
      destruct (scan_number s) as [[? ?]|[]] eqn:E;
      [apply scan_number_shorter in E|..]
  end; try discriminate H; inversion H; subst; lia.
Qed.

Ltac split_matches H :=
  repeat match type of H with
  | match ?x with _ => _ end = _ => destruct x eqn:?; try discriminate H
  | (if ?x then _ else _) = _ => destruct x eqn:?; try discriminate H
  end.

Ltac note_lengths :=
  repeat match goal with
  | E : skip_ws ?x = _ |- _ => apply (f_equal (@length ascii)) in E
  | E : scan_text _ = Ok _ |- _ => apply scan_text_shorter in E
  | E : scan_literal _ = Ok _ |- _ => apply scan_literal_shorter in E
  | H : context [skip_ws ?x] |- _ =>
      lazymatch goal with
      | _ : (length (skip_ws x) <= length x)%nat |- _ => fail
      | _ => pose proof (skip_ws_length x)
      end
  | |- context [skip_ws ?x] =>
      lazymatch goal with
      | _ : (length (skip_ws x) <= length x)%nat |- _ => fail
      | _ => pose proof (skip_ws_length x)
      end
  end.

(** Every scanner consumes at least one character. *)
Lemma scan_shorter (fuel : nat) :
  (forall depth s v r, scan_once fuel depth s = Ok (v, r) ->
     (length r < length s)%nat) /\
  (forall depth s acc v r, scan_items fuel depth s acc = Ok (v, r) ->
     (length r < length s)%nat) /\
  (forall depth s acc v r, scan_members fuel depth s acc = Ok (v, r) ->
     (length r < length s)%nat).
Proof.
  induction fuel as [|fuel (IHonce & IHitems & IHmembers)]; [done|].
  split; [|split].
  - intros depth s v r H. cbn [scan_once] in H. split_matches H;
      try (inversion H; subst); note_lengths;
      repeat match goal with
      | E : scan_items fuel _ _ _ = Ok _ |- _ => apply IHitems in E
      | E : scan_members fuel _ _ _ = Ok _ |- _ => apply IHmembers in E
      end; simpl in *; lia.
  - intros depth s acc v r H. cbn [scan_items] in H. split_matches H;
      try (inversion H; subst); note_lengths;
      repeat match goal with
      | E : scan_once fuel _ _ = Ok _ |- _ => apply IHonce in E
      | E : scan_items fuel _ _ _ = Ok _ |- _ => apply IHitems in E
      end; simpl in *; lia.
  - intros depth s acc v r H. cbn [scan_members] in H. split_matches H;
      try (inversion H; subst); note_lengths;
      repeat match goal with
      | E : scan_once fuel _ _ = Ok _ |- _ => apply IHonce in E
      | E : scan_members fuel _ _ _ = Ok _ |- _ => apply IHmembers in E
      end; simpl in *; lia.
Qed.

Ltac split_goal :=
  repeat match goal with
  | |- context [match ?x with _ => _ end] =>
      lazymatch x with
      | scan_once _ _ _ => fail
      | scan_items _ _ _ _ => fail
      | scan_members _ _ _ _ => fail
      | _ => destruct x eqn:?
      end
  end.

Ltac use_shorter :=
  match goal with
  | IH : forall y, (length y < _)%nat -> _
    |- scan_members _ _ ?l _ = scan_members _ _ ?l _ => apply (IH l)
  | IH : forall y, (length y < _)%nat -> _
    |- scan_items _ _ ?l _ = scan_items _ _ ?l _ => apply (IH l)
  end.

(** Beyond twice the length of the text, fuel makes no difference. *)
Lemma scan_fuel (s : list ascii) :
  (forall f1 f2 depth,
     (2 * length s + 1 <= f1)%nat -> (2 * length s + 1 <= f2)%nat ->
     scan_once f1 depth s = scan_once f2 depth s) /\
  (forall f1 f2 depth acc,
     (2 * length s + 2 <= f1)%nat -> (2 * length s + 2 <= f2)%nat ->
     scan_items f1 depth s acc = scan_items f2 depth s acc) /\
  (forall f1 f2 depth acc,
     (2 * length s + 2 <= f1)%nat -> (2 * length s + 2 <= f2)%nat ->
     scan_members f1 depth s acc = scan_members f2 depth s acc).
Proof.
  induction s as [s IH] using (induction_ltof1 _ (@length ascii)).
  unfold ltof in IH.
  assert (forall f1 f2 depth,
            (2 * length s + 1 <= f1)%nat -> (2 * length s + 1 <= f2)%nat ->
            scan_once f1 depth s = scan_once f2 depth s) as Honce.
  { intros [|f1] [|f2] depth H1 H2; try lia. cbn [scan_once].
    split_goal; try reflexivity; note_lengths; use_shorter; simpl in *; lia. }
  split; [exact Honce|]. split.
  - intros [|f1] [|f2] depth acc H1 H2; try lia. cbn [scan_items].
    rewrite (Honce f1 f2) by lia.
    destruct (scan_once f2 depth s) as [[v r]|] eqn:E; [|done].
    apply (proj1 (scan_shorter _)) in E.
    split_goal; try reflexivity; note_lengths; use_shorter; simpl in *; lia.
  - intros [|f1] [|f2] depth acc H1 H2; try lia. cbn [scan_members].
    destruct (scan_text s) as [[key r]|] eqn:E; [|done].
    destruct (skip_ws r) as [|c r1] eqn:E1; [done|].
    note_lengths.
    assert (scan_once f1 depth (skip_ws r1) = scan_once f2 depth (skip_ws r1))
      as Hvalue.
    { pose proof (skip_ws_length r1).
      apply (IH (skip_ws r1)); simpl in *; lia. }
    destruct c as [[] [] [] [] [] [] [] []]; try reflexivity.
    rewrite Hvalue.
    destruct (scan_once f2 depth (skip_ws r1)) as [[v r2]|] eqn:E2; [|done].
    apply (proj1 (scan_shorter _)) in E2. pose proof (skip_ws_length r1).
    split_goal; try reflexivity; note_lengths; use_shorter; simpl in *; lia.
Qed.

(** [loads] gives its scanner more fuel than it can use. *)
Lemma loads_fuel (text : string) (fuel depth : nat) :
  let s := list_ascii_of_string text in
  (S (2 * length s) <= fuel)%nat ->
  scan_once fuel depth (skip_ws s)
  = scan_once (S (2 * length s)) depth (skip_ws s).
Proof.
  intros s Hfuel. pose proof (skip_ws_length s).
  apply scan_fuel; lia.
Qed.

(** The decoder raises nothing but its three exceptions. *)
Lemma scan_string_errors (fuel : nat) :
  forall s acc e, scan_string fuel s acc = Raise e -> e = JSONDecodeError.
Proof.
  induction fuel as [|fuel IH]; intros s acc e H.
  { destruct s; by inversion H. }
  destruct s as [|c s]; [by inversion H|]. cbn [scan_string] in H.
  destruct (Ascii.eqb c "034"); [done|].
  destruct (Ascii.eqb c "\").
  - destruct (scan_escape s) as [[n r']|]; [by eapply IH | by inversion H].
  - destruct (_ <? _)%N; [by inversion H | by eapply IH].
Qed.

Lemma scan_number_errors (s : list ascii) (e : exn) :
  scan_number s = Raise e -> decoder_error e.
Proof.
  unfold scan_number, decoder_error. intros H.
  destruct (scan_integer s) as [[digits r0]|]; [|inversion H; by left].
  destruct (scan_fraction r0) as [frac r1].
  destruct (scan_exponent r1) as [exp r2].
  destruct frac, exp; try discriminate H.
  destruct (_ <? _)%nat; [|done]. inversion H. right; left. by eexists.
Qed.

Lemma scan_literal_errors (s : list ascii) (e : exn) :
  scan_literal s = Raise e -> decoder_error e.
Proof.
  unfold scan_literal. cbv zeta beta. intros H.
  repeat match type of H with
  | context [strip_prefix ?l s] => destruct (strip_prefix l s); try discriminate H
  end;
  destruct (scan_number s) as [[? ?]|e'] eqn:E; try discriminate H;
  (destruct e'; try discriminate H; inversion H; subst;
   first [ by eapply scan_number_errors | by left ]).
Qed.

Lemma scan_errors (fuel : nat) :
  (forall depth s e, scan_once fuel depth s = Raise e -> decoder_error e) /\
  (forall depth s acc e, scan_items fuel depth s acc = Raise e ->
     decoder_error e) /\
  (forall depth s acc e, scan_members fuel depth s acc = Raise e ->
     decoder_error e).
Proof.
  induction fuel as [|fuel (IHonce & IHitems & IHmembers)].
  { repeat split; intros; simpl in *; inversion H; by left. }
  assert (forall s e, scan_text s = Raise e -> decoder_error e) as Hstring.
  { intros s e H. apply scan_string_errors in H. by left. }
  split; [|split].
  - intros depth s e H. cbn [scan_once] in H. split_matches H;
      first [ by eapply scan_literal_errors
            | by eapply IHitems
            | by eapply IHmembers
            | inversion H; subst;
              first [ by left | by right; right | by eapply Hstring ] ].
  - intros depth s acc e H. cbn [scan_items] in H. split_matches H;
      first [ by eapply IHitems
            | inversion H; subst; first [ by left | by eapply IHonce ] ].
  - intros depth s acc e H. cbn [scan_members] in H. split_matches H;
      first [ by eapply IHmembers
            | inversion H; subst;
              first [ by left | by eapply IHonce | by eapply Hstring ] ].
Qed.

Lemma loads_errors (depth : nat) (text : string) (e : exn) :
  loads depth text = Raise e -> decoder_error e.
Proof.
  unfold loads. intros H.
  destruct (scan_once _ _ _) as [[v r]|e'] eqn:E.
  - destruct (skip_ws r); [done|]. inversion H. by left.
  - inversion H; subst. by eapply (proj1 (scan_errors _)).
Qed.

End JsonFuel.

(** ** The analyzer: extraction of the JSON object *)

Section JsonExtraction.
Import Ai Json PyText.

(** Whatever [scan_members] returns is an object. *)
Lemma scan_members_object (fuel : nat) :
  forall depth s acc v rest,
  scan_members fuel depth s acc = Ok (v, rest) -> is_object v.
Proof.
  induction fuel as [|fuel IH]; intros depth s acc v rest H; [done|].
  cbn [scan_members] in H.
  repeat match type of H with
  | match ?x with _ => _ end = _ => destruct x eqn:?; try discriminate H
  | (if ?x then _ else _) = _ => destruct x eqn:?; try discriminate H
  end;
  first [ by eapply IH | inversion H; by eexists ].
Qed.

(** A text that opens with a brace decodes to an object, if it decodes. *)
Lemma loads_object (depth : nat) (text : string) (r : string) (v : json) :
  text = String "{" r -> loads depth text = Ok v -> is_object v.
Proof.
  intros -> H. unfold loads in H.
  cbn [list_ascii_of_string skip_ws json_ws Ascii.eqb orb] in H.
  change (json_ws "{") with false in H. cbn iota in H.
  destruct (scan_once _ _ _) as [[v' rest]|] eqn:E; [|done].
  destruct (skip_ws rest); [|done]. inversion H; subst v'.
  cbn [scan_once] in E.
  repeat match type of E with
  | match ?x with _ => _ end = _ => destruct x eqn:?; try discriminate E
  | (if ?x then _ else _) = _ => destruct x eqn:?; try discriminate E
  end;
  first [ by eapply scan_members_object | inversion E; by eexists ].
Qed.

Lemma find_from_ge (c : ascii) (s : string) (i : Z) :
  find_from i c s = -1 \/ i <= find_from i c s.
Proof.
  revert i. induction s as [|x s IH]; intros i; simpl; [by left|].
  destruct (Ascii.eqb x c); [right; lia|].
  destruct (IH (i + 1)); [by left | right; lia].
Qed.

Lemma find_from_drop (c : ascii) (s : string) (i : Z) :
  find_from i c s <> -1 ->
  exists r, PyText.drop (Z.to_nat (find_from i c s - i)) s = String c r.
Proof.
  revert i. induction s as [|x s IH]; intros i H; simpl in *; [done|].
  destruct (Ascii.eqb_spec x c) as [->|Hx].
  - rewrite Z.sub_diag. by eexists.
  - destruct (IH (i + 1) H) as [r Hr].
    destruct (find_from_ge c s (i + 1)) as [|Hge]; [done|].
    replace (Z.to_nat (find_from (i + 1) c s - i))
      with (S (Z.to_nat (find_from (i + 1) c s - (i + 1)))) by lia.
    by exists r.
Qed.

(** The text handed to the decoder on the fallback path opens with the
    first brace. *)
Lemma slice_from_brace (s : string) :
  let start := find "{" s in
  let end_ := rfind "}" s in
  start <> -1 -> start < end_ ->
  exists r, slice start (end_ + 1) s = String "{" r.
Proof.
  intros start end_ Hs Hlt. unfold slice.
  destruct (find_from_drop "{" s 0 Hs) as [r Hr].
  fold (find "{" s) in Hr. fold start in Hr. rewrite Z.sub_0_r in Hr.
  rewrite Hr.
  replace (Z.to_nat (end_ + 1 - start)) with (S (Z.to_nat (end_ - start)))
    by lia.
  by eexists.
Qed.

(** Only the first attempt, on the whole text, can return something that
    is not an object. *)
Lemma parse_ai_json_fallback_object (depth : nat) (text : string) (e : exn)
    (v : json) :
  loads depth (strip text) = Raise e ->
  _parse_ai_json depth text = Ok v -> is_object v.
Proof.
  intros Hwhole H. unfold _parse_ai_json in H.
  destruct (is_empty (strip text)); [done|]. rewrite Hwhole in H.
  destruct e; try discriminate H.
  destruct (Z.eqb_spec (find "{" (strip text)) (-1)); [done|].
  destruct (Z.eqb_spec (rfind "}" (strip text)) (-1)); [done|].
  destruct (Z.leb_spec (rfind "}" (strip text)) (find "{" (strip text)));
    [done|]. cbn [orb] in H.
  destruct (slice_from_brace (strip text)) as [r Hr]; [done|done|].
  destruct (loads depth (slice _ _ _)) as [v'|e'] eqn:E;
    [|destruct e'; discriminate H].
  inversion H; subst v'. by eapply loads_object.
Qed.

(** The reply of the specification's example decodes, through the
    fallback, to an object whose daily_summary is ok; its array inside its
    object takes two levels of recursion. *)
Lemma parse_ai_json_wrapped_reply (depth : nat) :
  loads (S (S depth)) (strip Examples.wrapped_reply) = Raise JSONDecodeError /\
  exists members,
    _parse_ai_json (S (S depth)) Examples.wrapped_reply = Ok (JObj members) /\
    obj_get "daily_summary" members = Some (JStr (UText.of_string "ok")).
Proof. split; [by vm_compute|]. eexists. split; by vm_compute. Qed.

(** An empty or blank reply raises. *)
Lemma parse_ai_json_empty (depth : nat) (text : string) :
  strip text = "" ->
  _parse_ai_json depth text = Raise (RuntimeError "AI response was empty.").
Proof. intros H. unfold _parse_ai_json. by rewrite H. Qed.

(** A reply without a brace pair that does not decode as a whole raises. *)
Lemma parse_ai_json_no_braces (depth : nat) (text : string) :
  loads depth (strip text) = Raise JSONDecodeError ->
  find "{" (strip text) = -1 \/ rfind "}" (strip text) = -1 ->
  exists msg, _parse_ai_json depth text = Raise (RuntimeError msg).
Proof.
  intros Hwhole Hnone. unfold _parse_ai_json.
  destruct (is_empty (strip text)); [by eexists|]. rewrite Hwhole.
  destruct Hnone as [-> | ->]; [by eexists|].
  rewrite orb_true_r. by eexists.
Qed.

(** C7, the code at the failing input.  The reply [[]] holds no JSON
    object (it has no brace at all), yet [_parse_ai_json] returns: the
    first attempt decodes the whole text and hands back the list, and the
    same happens for any reply that is a JSON value other than an object.
    The list takes one level of the decoder's recursion, the number and
    the literal none. *)
Theorem parse_ai_json_returns_non_object (depth : nat) :
  find "{" "[]" = -1 /\
  _parse_ai_json (S depth) "[]" = Ok (JArr []) /\
  ~ is_object (JArr []) /\
  _parse_ai_json depth "42" = Ok (JInt 42) /\
  _parse_ai_json depth "null" = Ok JNull.
Proof.
  split; [reflexivity|]. split; [by vm_compute|].
  split; [by intros [m Hm]|]. split; by vm_compute.
Qed.

End JsonExtraction.

(* ===================================================================== *)
(** * Part III. Further properties of the modelled code                  *)
(* ===================================================================== *)

(** ** The segmenter: what every timeline satisfies *)

Section TimelineInvariants.
Import Models Timeline Derived.

Lemma group_count_sum_app (l1 l2 : list Group) :
  group_count_sum (l1 ++ l2) = group_count_sum l1 + group_count_sum l2.
Proof. induction l1 as [|g l IH]; simpl; [done|]. rewrite IH. lia. Qed.

(** The two shapes one iteration can give. *)
Lemma group_step_cases tol grouped record end_ :
  group_step tol grouped record end_ = grouped ++ [new_group record end_] \/
  exists closed open,
    grouped = closed ++ [open] /\
    merges tol open (record_key record) (sr_captured_at record) = true /\
    group_step tol grouped record end_ = closed ++ [extend_group end_ open].
Proof.
  destruct grouped as [|g0 gs] using rev_ind; [by left|].
  rewrite group_step_snoc.
  destruct (merges _ _ _ _) eqn:E.
  - right. by exists gs, g0.
  - left. by rewrite <- app_assoc.
Qed.

Lemma group_step_count tol grouped record end_ :
  group_count_sum (group_step tol grouped record end_)
  = group_count_sum grouped + 1.
Proof.
  destruct (group_step_cases tol grouped record end_)
    as [-> | (closed & open & -> & _ & ->)];
    rewrite !group_count_sum_app; simpl; lia.
Qed.

Lemma group_loop_count fallback max_gap tol ordered : forall grouped,
  group_count_sum (group_loop fallback max_gap tol ordered grouped)
  = group_count_sum grouped + Z.of_nat (length ordered).
Proof.
  induction ordered as [|r rest IH]; intros grouped; simpl; [lia|].
  rewrite IH, group_step_count. lia.
Qed.

Lemma card_count_sum (gs : list Group) :
  total_screenshot_count (card_of_group <$> gs) = group_count_sum gs.
Proof.
  induction gs as [|g gs IH]; [done|].
  rewrite fmap_cons. unfold total_screenshot_count, group_count_sum in *.
  cbn [foldr]. by rewrite IH.
Qed.

(** X1.  The cards account for every sample exactly once: the
    screenshot counts of the cards add up to the number of records. *)
Theorem timeline_counts_every_sample (records : list ScreenshotRecord)
    (fis : Q) :
  total_screenshot_count (build_timeline_cards records fis)
  = Z.of_nat (length records).
Proof.
  unfold build_timeline_cards. destruct records as [|r rs]; [done|].
  rewrite card_count_sum, group_loop_count, stable_sort_length. simpl. lia.
Qed.

Lemma segment_end_later fallback max_gap r rest :
  1 <= fallback -> 1 <= max_gap ->
  sr_captured_at r < segment_end fallback max_gap r rest.
Proof.
  intros Hf Hg. rewrite segment_end_cases. unfold timedelta_seconds.
  destruct (head rest) as [nxt|]; [|lia]. cbv zeta.
  destruct (Z.leb_spec 1 ((sr_captured_at nxt - sr_captured_at r) ÷ 1000000));
    lia.
Qed.

Lemma group_step_ok tol grouped record end_ :
  sr_captured_at record < end_ ->
  Forall group_ok grouped ->
  Forall group_ok (group_step tol grouped record end_).
Proof.
  intros Hend Hall.
  destruct (group_step_cases tol grouped record end_)
    as [-> | (closed & open & -> & _ & ->)].
  - apply Forall_app. split; [done|]. constructor; [|constructor].
    repeat split; simpl; [done | lia].
  - apply Forall_app in Hall as [Hclosed Hopen].
    apply Forall_app. split; [done|]. constructor; [|constructor].
    apply Forall_singleton in Hopen as (Hse & Hc & Hk).
    repeat split; simpl; [lia | lia | done].
Qed.

Lemma group_loop_ok fallback max_gap tol ordered :
  1 <= fallback -> 1 <= max_gap -> forall grouped,
  Forall group_ok grouped ->
  Forall group_ok (group_loop fallback max_gap tol ordered grouped).
Proof.
  intros Hf Hg. induction ordered as [|r rest IH]; intros grouped Hall;
    simpl; [done|].
  apply IH, group_step_ok; [|done]. by apply segment_end_later.
Qed.

(** X2.  Every card spans a positive time and at least one sample: its end
    is after its start, its duration is at least one second and at least
    the whole seconds between start and end rounded, and its screenshot
    count is at least one. *)
Theorem timeline_cards_are_proper (records : list ScreenshotRecord) (fis : Q) :
  Forall (fun c =>
            tc_start c < tc_end c /\
            1 <= tc_duration_seconds c /\
            tc_duration_seconds c
            = Z.max 1 (PyFloat.round (total_seconds (tc_end c - tc_start c))) /\
            1 <= tc_screenshot_count c)
    (build_timeline_cards records fis).
Proof.
  unfold build_timeline_cards. destruct records as [|r rs]; [constructor|].
  apply Forall_fmap.
  eapply Forall_impl.
  - apply group_loop_ok; [lia | lia | constructor].
  - intros g (Hse & Hc & _). simpl. repeat split; try done. lia.
Qed.


Lemma captured_at_sorted (records : list ScreenshotRecord) :
  StronglySorted (fun a b => captured_at_leb a b = true)
    (stable_sort captured_at_leb records).
Proof.
  apply Sorted_StronglySorted.
  - intros a b c. unfold captured_at_leb. rewrite !Z.leb_le. lia.
  - apply stable_sort_Sorted. intros a b. unfold captured_at_leb.
    rewrite !Z.leb_le. lia.
Qed.

Lemma group_step_length tol grouped record end_ :
  (length (group_step tol grouped record end_) <= S (length grouped))%nat.
Proof.
  destruct (group_step_cases tol grouped record end_)
    as [-> | (closed & open & -> & _ & ->)];
    rewrite !length_app; simpl; lia.
Qed.

Lemma group_loop_length fallback max_gap tol ordered : forall grouped,
  (length (group_loop fallback max_gap tol ordered grouped)
   <= length grouped + length ordered)%nat.
Proof.
  induction ordered as [|r rest IH]; intros grouped; simpl; [lia|].
  etransitivity; [apply IH|].
  pose proof (group_step_length tol grouped r
                (segment_end fallback max_gap r rest)). lia.
Qed.

(** Groups open in capture order. *)
Lemma group_step_starts tol grouped record end_ :
  StronglySorted (fun a b => g_start a <= g_start b) grouped ->
  Forall (fun g => g_start g <= sr_captured_at record) grouped ->
  StronglySorted (fun a b => g_start a <= g_start b)
    (group_step tol grouped record end_) /\
  Forall (fun g => g_start g <= sr_captured_at record)
    (group_step tol grouped record end_).
Proof.
  intros Hs Hle.
  destruct (group_step_cases tol grouped record end_)
    as [-> | (closed & open & -> & _ & ->)].
  - split.
    + apply StronglySorted_app_2; [|done|repeat constructor].
      intros x1 x2 Hx1 Hx2. apply list_elem_of_singleton in Hx2 as ->.
      rewrite Forall_forall in Hle. by apply Hle.
    + apply Forall_app. split; [done|]. repeat constructor. simpl. lia.
  - apply StronglySorted_app in Hs as (Hcross & Hc & Ho).
    apply Forall_app in Hle as [Hlc Hlo].
    rewrite Forall_singleton in Hlo. split.
    + apply StronglySorted_app_2; [|done|repeat constructor].
      intros x1 x2 Hx1 Hx2. apply list_elem_of_singleton in Hx2 as ->.
      simpl. apply Hcross; [done|]. by apply list_elem_of_singleton.
    + apply Forall_app. split; [done|]. by repeat constructor.
Qed.

Lemma group_loop_starts fallback max_gap tol ordered : forall grouped,
  StronglySorted (fun a b => captured_at_leb a b = true) ordered ->
  StronglySorted (fun a b => g_start a <= g_start b) grouped ->
  Forall (fun g => Forall (fun r => g_start g <= sr_captured_at r) ordered)
    grouped ->
  StronglySorted (fun a b => g_start a <= g_start b)
    (group_loop fallback max_gap tol ordered grouped).
Proof.
  induction ordered as [|r rest IH]; intros grouped Hord Hs Hle; simpl;
    [done|].
  apply StronglySorted_inv in Hord as [Hrest Hr].
  destruct (group_step_starts tol grouped r
              (segment_end fallback max_gap r rest)) as [Hs' Hle'];
    [done | |].
  { eapply Forall_impl; [exact Hle|]. simpl. intros g Hg.
    by apply Forall_cons in Hg as [? _]. }
  apply IH; [done | done |].
  eapply Forall_impl; [exact Hle'|]. simpl. intros g Hg.
  eapply Forall_impl; [exact Hr|]. simpl. intros r' Hr'.
  unfold captured_at_leb in Hr'. apply Z.leb_le in Hr'. lia.
Qed.

(** X3.  The cards come in capture order and never outnumber the samples:
    their start times are non-decreasing and there are at most as many
    cards as records. *)
Theorem timeline_is_ordered (records : list ScreenshotRecord) (fis : Q) :
  StronglySorted (fun a b => tc_start a <= tc_start b)
    (build_timeline_cards records fis) /\
  (length (build_timeline_cards records fis) <= length records)%nat.
Proof.
  unfold build_timeline_cards. destruct records as [|r rs].
  { split; [constructor | done]. }
  split.
  - set (gs := group_loop _ _ _ _ _).
    assert (StronglySorted (fun a b => g_start a <= g_start b) gs) as Hgs.
    { apply group_loop_starts; [apply captured_at_sorted | constructor
                                | constructor]. }
    clearbody gs. induction Hgs as [|g gs' Hs IH Hg]; [constructor|].
    rewrite fmap_cons. constructor; [done|]. by apply Forall_fmap.
  - rewrite length_fmap.
    etransitivity; [apply group_loop_length|].
    by rewrite stable_sort_length.
Qed.


Lemma group_step_split tol grouped record end_ :
  groups_split tol grouped ->
  groups_split tol (group_step tol grouped record end_).
Proof.
  intros Hsplit i g1 g2 H1 H2.
  destruct grouped as [|open closed _] using rev_ind.
  { by destruct i. }
  rewrite group_step_snoc in H1, H2.
  destruct (merges tol open (record_key record) (sr_captured_at record)) eqn:E.
  - destruct (decide (S i < length closed)%nat) as [Hlt|Hge].
    + rewrite lookup_app_l in H1, H2 by lia.
      apply (Hsplit i); by rewrite lookup_app_l by lia.
    + assert (S i = length closed) as Hi.
      { apply lookup_lt_Some in H2. rewrite length_app in H2. simpl in H2. lia. }
      rewrite lookup_app_l in H1 by lia.
      rewrite Hi, list_lookup_middle in H2 by done. inversion H2; subst g2.
      simpl. apply (Hsplit i).
      * by rewrite lookup_app_l by lia.
      * by rewrite Hi, list_lookup_middle.
  - destruct (decide (S i < length (closed ++ [open]))%nat) as [Hlt|Hge].
    + replace (closed ++ [open; new_group record end_])
        with ((closed ++ [open]) ++ [new_group record end_]) in H1, H2
        by (by rewrite <- app_assoc).
      rewrite lookup_app_l in H1, H2 by lia. by apply (Hsplit i).
    + assert (i = length closed) as Hi.
      { apply lookup_lt_Some in H2. rewrite !length_app in *. simpl in *. lia. }
      rewrite Hi, list_lookup_middle in H1 by done. inversion H1; subst g1.
      replace (closed ++ [open; new_group record end_])
        with ((closed ++ [open]) ++ [new_group record end_]) in H2
        by (by rewrite <- app_assoc).
      rewrite Hi in H2.
      replace (S (length closed)) with (length (closed ++ [open])) in H2
        by (rewrite length_app; simpl; lia).
      rewrite list_lookup_middle in H2 by done. inversion H2; subst g2.
      simpl. unfold merges in E. apply andb_false_iff in E as [E|E].
      * left. by apply bool_decide_eq_false in E.
      * right. apply Z.leb_gt in E. lia.
Qed.

Lemma group_loop_split fallback max_gap tol ordered : forall grouped,
  groups_split tol grouped ->
  groups_split tol (group_loop fallback max_gap tol ordered grouped).
Proof.
  induction ordered as [|r rest IH]; intros grouped H; simpl; [done|].
  by apply IH, group_step_split.
Qed.

(** X4.  Two neighbouring cards could not have been one: either their
    normalized (process, title) keys differ, or the later one starts more
    than 5 seconds after the earlier one ends. *)
Theorem timeline_neighbours_are_split (records : list ScreenshotRecord)
    (fis : Q) (i : nat) (c1 c2 : TimelineCard) :
  build_timeline_cards records fis !! i = Some c1 ->
  build_timeline_cards records fis !! S i = Some c2 ->
  card_key c1 <> card_key c2 \/
  tc_end c1 + timedelta_seconds 5 < tc_start c2.
Proof.
  unfold build_timeline_cards. destruct records as [|r rs]; [done|].
  set (fallback := Z.max 1 (PyFloat.round fis)).
  set (max_gap := Z.max 30 (fallback * 2)).
  set (gs := group_loop _ _ _ _ _).
  assert (groups_split (timedelta_seconds 5) gs) as Hsplit.
  { apply group_loop_split. intros j g1 g2 H. by destruct j. }
  assert (Forall group_ok gs) as Hok.
  { apply group_loop_ok; [lia | lia | constructor]. }
  rewrite !list_lookup_fmap. intros H1 H2.
  destruct (gs !! i) as [g1|] eqn:E1; [|done].
  destruct (gs !! S i) as [g2|] eqn:E2; [|done].
  inversion H1; subst c1. inversion H2; subst c2.
  rewrite Forall_forall in Hok.
  destruct (Hok g1) as (_ & _ & Hk1); [by eapply list_elem_of_lookup_2|].
  destruct (Hok g2) as (_ & _ & Hk2); [by eapply list_elem_of_lookup_2|].
  unfold card_key. simpl. rewrite <- Hk1, <- Hk2.
  by apply (Hsplit i).
Qed.

Lemma timeline_neighbours_are_split_witness :
  exists c1 c2,
    build_timeline_cards [Examples._record 1 0; Examples._record 2 600] 10 !! 0%nat
    = Some c1 /\
    build_timeline_cards [Examples._record 1 0; Examples._record 2 600] 10 !! 1%nat
    = Some c2 /\
    tc_end c1 + timedelta_seconds 5 < tc_start c2.
Proof.
  eexists _, _. split; [reflexivity|]. split; [reflexivity|].
  destruct (timeline_neighbours_are_split
              [Examples._record 1 0; Examples._record 2 600] 10 0 _ _
              eq_refl eq_refl) as [Hk|Ht]; [|exact Ht].
  exfalso. apply Hk. reflexivity.
Defined.

(** X5.  The order in which the samples are passed does not matter when
    their capture times are pairwise distinct: any rearrangement of the
    records gives the same cards. *)
Theorem timeline_ignores_input_order (records records' : list ScreenshotRecord)
    (fis : Q) :
  records ≡ₚ records' ->
  NoDup (sr_captured_at <$> records) ->
  build_timeline_cards records fis = build_timeline_cards records' fis.
Proof.
  intros Hperm Hnd.
  assert (stable_sort captured_at_leb records
          = stable_sort captured_at_leb records') as Hsort.
  { assert (Transitive (fun a b => captured_at_leb a b = true)) as Htrans.
    { intros a b c. unfold captured_at_leb. rewrite !Z.leb_le. lia. }
    apply (@Sorted_unique_strong _ _ Htrans).
    - intros x1 x2 Hx1 Hx2 H12 H21.
      rewrite stable_sort_perm in Hx1. rewrite stable_sort_perm in Hx2.
      rewrite <- Hperm in Hx2.
      unfold captured_at_leb in *. apply Z.leb_le in H12, H21.
      apply list_elem_of_lookup in Hx1 as [i Hi].
      apply list_elem_of_lookup in Hx2 as [j Hj].
      assert (i = j) as ->.
      { apply (NoDup_lookup (sr_captured_at <$> records) i j
                 (sr_captured_at x1)); [done| |].
        - by rewrite list_lookup_fmap, Hi.
        - rewrite list_lookup_fmap, Hj. simpl. f_equal. lia. }
      congruence.
    - apply StronglySorted_Sorted, captured_at_sorted.
    - apply StronglySorted_Sorted, captured_at_sorted.
    - by rewrite !stable_sort_perm. }
  unfold build_timeline_cards.
  destruct records as [|r rs], records' as [|r' rs']; try done.
  - by apply Permutation_nil_cons in Hperm.
  - symmetry in Hperm. by apply Permutation_nil_cons in Hperm.
  - by rewrite Hsort.
Qed.

Lemma timeline_ignores_input_order_witness :
  build_timeline_cards [Examples._record 1 0; Examples._record 2 10] 10
  = build_timeline_cards [Examples._record 2 10; Examples._record 1 0] 10.
Proof.
  apply timeline_ignores_input_order.
  - apply Permutation_swap.
  - apply (@bool_decide_unpack _ (NoDup_dec _)). by vm_compute.
Defined.

End TimelineInvariants.

(** ** The segmenter: the grouping key *)

Section GroupingKey.
Import Timeline Derived PyText.

Lemma starts_word_app (w t : string) :
  is_word w -> starts_word (w ++ t)%string = true.
Proof.
  intros [Hne Hall]. destruct w as [|c w]; [done|]. simpl in *.
  by apply andb_true_iff in Hall as [-> _].
Qed.

Lemma split_word_then (w t : string) :
  is_word w -> starts_word t = false ->
  split (w ++ t)%string = w :: split t.
Proof.
  intros [Hne Hall] Ht. induction w as [|c w IH]; [done|].
  simpl in Hall. apply andb_true_iff in Hall as [Hc Hw].
  apply negb_true_iff in Hc.
  change (String c w ++ t)%string with (String c (w ++ t)%string).
  cbn [split]. rewrite Hc.
  destruct w as [|d w].
  - change ("" ++ t)%string with t. by rewrite Ht.
  - rewrite starts_word_app by (split; done).
    rewrite IH; [done | done | done].
Qed.

Lemma append_empty (s : string) : (s ++ "")%string = s.
Proof.
  induction s as [|c s IH]; [done|].
  change (String c s ++ "")%string with (String c (s ++ "")%string).
  by rewrite IH.
Qed.

Lemma split_join (ws : list string) :
  Forall is_word ws -> split (join " " ws) = ws.
Proof.
  unfold join. induction 1 as [|w ws Hw Hws IH]; [done|].
  destruct ws as [|w2 rest].
  - change (String.concat " " [w]) with w.
    replace (split w) with (split (w ++ "")%string)
      by (by rewrite append_empty).
    by rewrite split_word_then.
  - change (String.concat " " (w :: w2 :: rest))
      with (w ++ String " " (String.concat " " (w2 :: rest)))%string.
    rewrite split_word_then by done.
    f_equal. exact IH.
Qed.

Lemma split_words (s : string) : Forall is_word (split s).
Proof.
  induction s as [|c s IH]; [constructor|].
  cbn [split]. destruct (isspace c) eqn:Ec; [done|].
  destruct (starts_word s).
  - destruct (split s) as [|w ws].
    + repeat constructor; [done | simpl; by rewrite Ec].
    + apply Forall_cons in IH as [[_ Hw] Hws]. constructor; [|done].
      split; [done|]. simpl. by rewrite Ec.
  - constructor; [|done]. split; [done|]. simpl. by rewrite Ec.
Qed.

Lemma isspace_lower_char (c : ascii) : isspace (lower_char c) = isspace c.
Proof. by destruct c as [[] [] [] [] [] [] [] []]. Qed.

Lemma lower_char_idem (c : ascii) : lower_char (lower_char c) = lower_char c.
Proof. by destruct c as [[] [] [] [] [] [] [] []]. Qed.

Lemma lower_idem (s : string) : lower (lower s) = lower s.
Proof.
  induction s as [|c s IH]; simpl; [done|]. by rewrite lower_char_idem, IH.
Qed.

Lemma split_lower (s : string) : split (lower s) = lower <$> split s.
Proof.
  induction s as [|c s IH]; [done|].
  cbn [lower split]. rewrite isspace_lower_char.
  destruct (isspace c); [done|].
  assert (starts_word (lower s) = starts_word s) as ->.
  { destruct s; simpl; [done|]. by rewrite isspace_lower_char. }
  rewrite IH. destruct (starts_word s); [|done].
  by destruct (split s).
Qed.

Lemma lower_app (a b : string) :
  lower (a ++ b)%string = (lower a ++ lower b)%string.
Proof.
  induction a as [|c a IH]; [done|].
  change (String c a ++ b)%string with (String c (a ++ b)%string).
  cbn [lower]. rewrite IH. done.
Qed.

Lemma lower_join (ws : list string) :
  lower (join " " ws) = join " " (lower <$> ws).
Proof.
  unfold join. induction ws as [|w ws IH]; [done|].
  destruct ws as [|w2 rest]; [done|].
  change (String.concat " " (w :: w2 :: rest))
    with (w ++ String " " (String.concat " " (w2 :: rest)))%string.
  rewrite lower_app. cbn [lower]. rewrite IH. done.
Qed.

(** X6.  The grouping key depends on the words of a name only, up to
    case: [_normalize] is idempotent, ignores case, and gives two names the
    same text exactly when they have the same words once lowered. *)
Theorem normalize_key_words (v1 v2 : string) :
  _normalize (_normalize v1) = _normalize v1 /\
  _normalize (lower v1) = _normalize v1 /\
  split (_normalize v1) = split (lower v1) /\
  (_normalize v1 = _normalize v2 <-> split (lower v1) = split (lower v2)).
Proof.
  assert (forall v, split (_normalize v) = split (lower v)) as Hwords.
  { intros v. unfold _normalize. apply split_join, split_words. }
  split; [|split; [|split]].
  - unfold _normalize.
    rewrite lower_join, <- split_lower, lower_idem.
    by rewrite split_join by apply split_words.
  - unfold _normalize. by rewrite lower_idem.
  - apply Hwords.
  - split.
    + intros H. by rewrite <- !Hwords, H.
    + intros H. unfold _normalize. by rewrite H.
Qed.

End GroupingKey.

(** ** The segmenter: durations as text *)

Section DurationText.
Import Timeline PyText.

(** X7.  [format_duration] shows at most two units and clamps below zero:
    a duration of zero or less reads 0s; below a minute only seconds are
    shown; below an hour minutes and two-digit seconds; from one hour on
    hours and two-digit minutes, the seconds being dropped, so that two
    durations in the same minute read the same. *)
Theorem format_duration_units (t : Z) :
  (t <= 0 -> format_duration t = "0s") /\
  (0 <= t < 60 -> format_duration t = (str_of_int t ++ "s")%string) /\
  (60 <= t < 3600 ->
   format_duration t
   = (str_of_int (t / 60) ++ "m " ++ format_02d (t mod 60) ++ "s")%string) /\
  (3600 <= t ->
   format_duration t
   = (str_of_int (t / 3600) ++ "h " ++ format_02d (t mod 3600 / 60) ++ "m")%string
   /\ format_duration t = format_duration (t - t mod 60)).
Proof.
  assert (forall u, 3600 <= u ->
            format_duration u
            = (str_of_int (u / 3600) ++ "h "
               ++ format_02d (u mod 3600 / 60) ++ "m")%string) as Hlong.
  { intros u Hu. unfold format_duration.
    rewrite Z.max_r by lia.
    destruct (Z.eqb_spec (u / 3600) 0) as [E|E]; [|done].
    exfalso. Z.div_mod_to_equations. lia. }
  split; [|split; [|split]].
  - intros Ht. unfold format_duration. by rewrite Z.max_l by lia.
  - intros Ht. unfold format_duration. rewrite Z.max_r by lia.
    rewrite Z.div_small, Z.mod_small by lia.
    rewrite Z.div_small, Z.mod_small by lia. done.
  - intros Ht. unfold format_duration. rewrite Z.max_r by lia.
    rewrite Z.div_small, Z.mod_small by lia. cbn [Z.eqb negb].
    destruct (Z.eqb_spec (t / 60) 0) as [E|E]; [|done].
    exfalso. Z.div_mod_to_equations. lia.
  - intros Ht. split; [by apply Hlong|].
    assert (3600 <= t - t mod 60) as Hlt by (Z.div_mod_to_equations; lia).
    rewrite (Hlong t Ht), (Hlong _ Hlt).
    assert ((t - t mod 60) / 3600 = t / 3600) as ->
      by (Z.div_mod_to_equations; lia).
    assert ((t - t mod 60) mod 3600 / 60 = t mod 3600 / 60) as ->
      by (Z.div_mod_to_equations; lia).
    done.
Qed.

Lemma format_duration_units_witness :
  format_duration 3725 = "1h 02m" /\ format_duration 3725 = format_duration 3720.
Proof.
  destruct (proj2 (proj2 (proj2 (format_duration_units 3725)))) as [H1 H2];
    [lia|].
  split; [rewrite H1; reflexivity | exact H2].
Defined.

End DurationText.

(** ** The analyzer: what normalization emits *)

Section NormalizedOutput.
Import Models Ai Spec PyText Derived.

Lemma format_02d_small (n : Z) :
  0 <= n <= 59 ->
  exists a b, format_02d n = String a (String b EmptyString) /\
    isdecimal a = true /\ isdecimal b = true /\
    digit_value a * 10 + digit_value b = n.
Proof.
  intros Hn.
  assert (exists k : nat, n = Z.of_nat k /\ (k < 60)%nat) as (k & -> & Hk).
  { exists (Z.to_nat n). lia. }
  do 60 (destruct k as [|k];
         [eexists _, _; split; [reflexivity|]; by vm_compute|]).
  lia.
Qed.

Lemma int_value (s : string) (n : Z) :
  PyText.int s = Ok n -> n = decimal_value 0 s.
Proof.
  unfold PyText.int. destruct s; [done|].
  destruct (all_chars _ _); [|done]. by inversion 1.
Qed.

(** Whatever [_norm_hhmm] returns is empty or a strict HH:MM text. *)
Lemma norm_hhmm_output (v s : string) :
  _norm_hhmm v = Ok s -> s = "" \/ hhmm_strict s = true.
Proof.
  unfold _norm_hhmm. destruct (_ && _ && _); [|inversion 1; by left].
  destruct (PyText.int (PyText.take 2 (strip v))) as [hh|]; [|done].
  destruct (PyText.int (PyText.drop 3 (strip v))) as [mm|]; [|done].
  cbn [rbind].
  destruct (Z.leb_spec 0 hh); [|inversion 1; by left].
  destruct (Z.leb_spec hh 23); [|inversion 1; by left].
  destruct (Z.leb_spec 0 mm); [|inversion 1; by left].
  destruct (Z.leb_spec mm 59); [|inversion 1; by left].
  cbn [andb]. inversion 1. right.
  destruct (format_02d_small hh) as (a & b & -> & Ha & Hb & Hab); [lia|].
  destruct (format_02d_small mm) as (c & d & -> & Hc & Hd & Hcd); [lia|].
  change (hhmm_strict (String a (String b (String ":" (String c (String d ""))))) = true).
  cbn [hhmm_strict]. rewrite Ha, Hb, Hc, Hd, Hab, Hcd. cbn [andb].
  rewrite Ascii.eqb_refl. cbn [andb].
  destruct (Z.leb_spec hh 23); [|lia]. destruct (Z.leb_spec mm 59); [|lia].
  done.
Qed.

Lemma or_text_nonempty (x : string) : Timeline.or_text x "Other" <> "".
Proof. by destruct x. Qed.

Lemma or_text_stripped (x : string) :
  strip x = x -> strip (Timeline.or_text x "Other") = Timeline.or_text x "Other".
Proof. intros H. destruct x; [by vm_compute | exact H]. Qed.

Lemma normalize_loop_valid (entries : list entry) : forall cards out,
  Forall valid_card cards ->
  normalize_loop entries cards = Ok out -> Forall valid_card out.
Proof.
  induction entries as [|e es IH]; intros cards out Hcards H.
  - simpl in H. by inversion H; subst.
  - destruct e as [d|]; cbn [normalize_loop] in H; [|by eapply IH].
    destruct (_norm_hhmm (strip (str (get d "start" (PStr ""))))) as [s|] eqn:Es;
      [|done].
    destruct (_norm_hhmm (strip (str (get d "end" (PStr ""))))) as [e|] eqn:Ee;
      [|done].
    cbn [rbind] in H.
    destruct (is_empty s) eqn:Hs; cbn [orb] in H; [by eapply IH|].
    destruct (is_empty e) eqn:He; cbn [orb] in H; [by eapply IH|].
    destruct (is_empty _) eqn:Ht in H; [by eapply IH|].
    eapply IH; [|exact H].
    apply Forall_app. split; [done|]. constructor; [|constructor].
    eexists _, _, _, _, _. split; [reflexivity|].
    apply norm_hhmm_output in Es as [->|Es]; [done|].
    apply norm_hhmm_output in Ee as [->|Ee]; [done|].
    repeat split; try done.
    + intros E. by rewrite E in Ht.
    + apply strip_idem.
    + apply strip_idem.
    + apply or_text_nonempty.
    + apply or_text_stripped, strip_idem.
Qed.

(** X8.  [_normalize_cards] never emits an invalid card: whenever it
    returns, every card has exactly the keys start, end, title, summary and
    category, strict zero-padded HH:MM start and end, a title and a
    category that are not empty, and trimmed texts; and there are at most
    as many cards as candidates. *)
Theorem normalize_cards_output_valid (raw : raw_cards)
    (cards : list (gmap string string)) :
  _normalize_cards raw = Ok cards ->
  Forall valid_card cards /\
  Forall (fun c => dom c = ({["start"; "end"; "title"; "summary"; "category"]}
                            : gset string)) cards.
Proof.
  intros H.
  assert (Forall valid_card cards) as Hvalid.
  { destruct raw as [entries|]; simpl in H.
    - by eapply normalize_loop_valid; [constructor|].
    - inversion H. constructor. }
  split; [done|].
  eapply Forall_impl; [exact Hvalid|]. simpl.
  intros c (s & e & t & su & cat & -> & _). unfold card_dict.
  rewrite !dom_insert_L, dom_empty_L. set_solver.
Qed.

Lemma normalize_cards_output_valid_witness :
  _normalize_cards (CardsList [Examples.work_card; Examples.bad_card])
  = Ok [card_dict "09:00" "09:30" "Work" "x" "Coding"] /\
  Forall valid_card [card_dict "09:00" "09:30" "Work" "x" "Coding"].
Proof.
  assert (_normalize_cards (CardsList [Examples.work_card; Examples.bad_card])
          = Ok [card_dict "09:00" "09:30" "Work" "x" "Coding"]) as H
    by reflexivity.
  split; [exact H|].
  exact (proj1 (normalize_cards_output_valid _ _ H)).
Defined.

End NormalizedOutput.

(** ** The analyzer: the sampling cap in general *)

Section SamplingCap.
Import Models Ai.

(** With a cap of at least one the sample is a subsequence of the rows of
    the capped length. *)
Lemma sample_within_cap (rows : list ScreenshotRecord) (max_items : nat) :
  (1 <= max_items)%nat ->
  exists sampled,
    _sample_screenshots rows max_items = Ok sampled /\
    length sampled = Nat.min (length rows) max_items /\
    sampled `sublist_of` rows /\
    ((length rows <= max_items)%nat -> sampled = rows).
Proof.
  - intros Hm. unfold _sample_screenshots.
    destruct (Nat.leb_spec (length rows) max_items) as [Hle|Hlen].
    { exists rows. repeat split; [lia|done]. }
    destruct max_items as [|m']; [lia|]. set (m := S m') in *.
    set (step := Nat.max 1 (length rows / m)).
    set (strided := stride step 0 rows).
    assert (1 <= step)%nat as Hstep by (unfold step; lia).
    assert (m <= length strided)%nat as Hstrided.
    { pose proof (stride_length step 0 rows Hstep) as H. fold strided in H.
      assert (step * m <= length rows)%nat.
      { unfold step. pose proof (Nat.Div0.mul_div_le (length rows) m). lia. }
      nia. }
    assert ((if (m <? length strided)%nat then take m strided else strided)
            = take m strided) as ->.
    { destruct (Nat.ltb_spec m (length strided)); [done|].
      rewrite take_ge; [done|lia]. }
    assert (length (take m strided) = m) as Htake by (rewrite length_take; lia).
    destruct (last rows) as [r_last|] eqn:Hr;
      [|apply last_None in Hr; subst rows; simpl in Hlen; lia].
    destruct (last (take m strided)) as [s_last|] eqn:Hs;
      [|apply last_None in Hs; rewrite Hs in Htake; simpl in Htake; lia].
    destruct (negb (sr_id s_last =? sr_id r_last)).
    + eexists. split; [reflexivity|].
      rewrite insert_last by (intros E; rewrite E in Htake; simpl in Htake; lia).
      rewrite Htake, take_take. replace (Nat.min (pred m) m) with (pred m) by lia.
      split; [|split; [|lia]].
      * rewrite length_app, length_take. simpl. lia.
      * apply sublist_snoc_last; [done|].
        apply stride_init_sublist. fold strided. lia.
    + eexists. split; [reflexivity|].
      split; [lia|]. split; [|lia].
      etrans; [apply sublist_take|]. apply stride_sublist.
Qed.

(** X9.  [_sample_screenshots] for any cap: with a cap of at least one the
    call returns, the sample has [min (len rows) max_items] elements, and
    it is a subsequence of the rows (order kept, nothing invented); a list
    within the cap is returned as it is.  With a cap of zero an empty list
    is returned as it is and any other list raises [ZeroDivisionError]. *)
Theorem sample_screenshots_cap (rows : list ScreenshotRecord) (max_items : nat) :
  ((1 <= max_items)%nat ->
   exists sampled,
     _sample_screenshots rows max_items = Ok sampled /\
     length sampled = Nat.min (length rows) max_items /\
     sampled `sublist_of` rows /\
     ((length rows <= max_items)%nat -> sampled = rows)) /\
  (max_items = 0%nat ->
   _sample_screenshots rows max_items
   = match rows with [] => Ok [] | _ :: _ => Raise ZeroDivisionError end).
Proof.
  split; [apply sample_within_cap|].
  intros ->. unfold _sample_screenshots.
  destruct rows as [|r rows]; [reflexivity|].
  destruct (Nat.leb_spec (length (r :: rows)) 0) as [Hle|_]; [|reflexivity].
  simpl in Hle. lia.
Qed.

Lemma sample_screenshots_cap_witness :
  exists sampled,
    _sample_screenshots ((fun i => Examples._record i i) <$> [0; 1; 2; 3; 4; 5; 6]) 3
    = Ok sampled /\
    length sampled = 3%nat.
Proof.
  destruct (proj1 (sample_screenshots_cap
                     ((fun i => Examples._record i i) <$> [0; 1; 2; 3; 4; 5; 6]) 3))
    as (sampled & H & Hlen & _); [lia|].
  exists sampled. split; [exact H|exact Hlen].
Defined.

End SamplingCap.

(** ** The analyzer: errors of the reply parser *)

Section ParserErrors.
Import Ai PyText.

Lemma parse_ai_json_error_kinds (depth : nat) (text : string) (e : exn) :
  _parse_ai_json depth text = Raise e ->
  (exists msg, e = RuntimeError msg /\
     (msg = "AI response was empty." -> strip text = "")) \/
  (exists msg, e = ValueError msg) \/ e = RecursionError.
Proof.
  unfold _parse_ai_json.
  destruct (strip text) as [|c r] eqn:Es; cbn [is_empty].
  { inversion 1. left. by eexists. }
  rewrite <- Es.
  assert (forall t e0, Json.loads depth t = Raise e0 -> e0 <> JSONDecodeError ->
            (exists msg, e0 = ValueError msg) \/ e0 = RecursionError) as Hother.
  { intros t e0 H Hne. apply loads_errors in H as [->|H]; done. }
  destruct (Json.loads depth (strip text)) as [v|e0] eqn:E; [done|].
  destruct e0;
    try (intros H; injection H as <-; right; eapply (Hother _ _ E); discriminate).
  destruct (_ || _ || _).
  { inversion 1. left. eexists. split; [done|]. discriminate. }
  destruct (Json.loads depth (slice _ _ _)) as [v|e1] eqn:E1; [done|].
  destruct e1;
    try (intros H; injection H as <-; right; eapply (Hother _ _ E1); discriminate).
  inversion 1. left. eexists. split; [done|]. discriminate.
Qed.

(** X10.  [_parse_ai_json] never lets the decoder's [JSONDecodeError]
    out: it fails with [RuntimeError], or with one of the two other
    exceptions of the decoder, which it does not catch: [ValueError] for
    an integer literal of more than 4300 digits and [RecursionError] for
    arrays and objects nested beyond the levels left.  It reads its
    argument only through [strip], so white space around a reply changes
    nothing; and a reply that decodes as a whole after trimming is
    returned without the brace fallback. *)
Theorem parse_ai_json_errors (depth : nat) (text : string) :
  (forall e, _parse_ai_json depth text = Raise e ->
     (exists msg, e = RuntimeError msg) \/ (exists msg, e = ValueError msg) \/
     e = RecursionError) /\
  (forall e, Json.loads depth (strip text) = Raise e -> e <> JSONDecodeError ->
     strip text <> "" -> _parse_ai_json depth text = Raise e) /\
  _parse_ai_json depth (strip text) = _parse_ai_json depth text /\
  (forall v, Json.loads depth (strip text) = Ok v -> strip text <> "" ->
             _parse_ai_json depth text = Ok v).
Proof.
  split; [|split; [|split]].
  - intros e H. apply parse_ai_json_error_kinds in H as [(msg & -> & _)|H];
      [left; by eexists | by right].
  - intros e He Hne Htext. unfold _parse_ai_json. rewrite He.
    destruct (strip text); [done|]. cbn [is_empty]. by destruct e.
  - unfold _parse_ai_json. by rewrite strip_idem.
  - intros v Hv Hne. unfold _parse_ai_json. rewrite Hv.
    destruct (strip text); [done|]. done.
Qed.

Lemma parse_ai_json_errors_witness :
  (exists msg, _parse_ai_json 1000 Examples.long_integer = Raise (ValueError msg)) /\
  _parse_ai_json 1 "[[]]" = Raise RecursionError /\
  (exists msg, _parse_ai_json 1000 "[1," = Raise (RuntimeError msg)) /\
  _parse_ai_json 1000 " {} " = Ok (Json.JObj []).
Proof.
  split; [|split; [|split]].
  - eexists.
    apply (proj1 (proj2 (parse_ai_json_errors 1000 Examples.long_integer)));
      [by vm_compute|discriminate|by vm_compute].
  - apply (proj1 (proj2 (parse_ai_json_errors 1 "[[]]")));
      [by vm_compute|discriminate|by vm_compute].
  - eexists. by vm_compute.
  - apply (proj2 (proj2 (proj2 (parse_ai_json_errors 1000 " {} "))));
      by vm_compute.
Defined.

End ParserErrors.

(** ** The analyzer: normalization is a projection *)

Section NormalizationRoundTrip.
Import Models Ai Spec PyText Derived.

Lemma normalize_output_valid (raw : raw_cards) (cards : list (gmap string string)) :
  _normalize_cards raw = Ok cards -> Forall valid_card cards.
Proof.
  intros H. destruct raw as [entries|]; simpl in H.
  - by eapply normalize_loop_valid; [constructor|].
  - inversion H. constructor.
Qed.

Lemma isdecimal_plain (x : ascii) :
  isdecimal x = true ->
  isspace x = false /\ Ascii.eqb x ":" = false.
Proof.
  destruct x as [[] [] [] [] [] [] [] []]; intros H; vm_compute in H;
    try discriminate H; by vm_compute.
Qed.

Lemma hhmm_strict_shape (s : string) :
  hhmm_strict s = true -> strip s = s /\ plain_time s = true.
Proof.
  destruct s as [|a [|b [|c [|d [|e [|f w']]]]]]; try done.
  cbn [hhmm_strict]. rewrite !andb_true_iff.
  intros [[[[[[Ha Hb] Hc] Hd] He] _] _].
  apply Ascii.eqb_eq in Hc as ->.
  destruct (isdecimal_plain a Ha) as [Sa Ca], (isdecimal_plain b Hb) as [Sb Cb],
    (isdecimal_plain d Hd) as [Sd Cd], (isdecimal_plain e He) as [Se Ce].
  split.
  - unfold strip. cbn [lstrip]. rewrite Sa. cbn [rstrip]. by rewrite Se.
  - unfold plain_time. cbn [count_char all_chars].
    rewrite Ca, Cb, Cd, Ce, Ha, Hb, Hd, He, !orb_true_r. done.
Qed.

Lemma candidate_fields (start end_ title summary category : string) :
  let d := PStr <$> card_dict start end_ title summary category in
  field d "start" "" = strip start /\ field d "end" "" = strip end_ /\
  field d "title" "" = strip title /\ field d "summary" "" = strip summary /\
  field d "category" "Other" = strip category.
Proof.
  unfold field, get, card_dict. rewrite !lookup_fmap.
  repeat split; by simplify_map_eq.
Qed.

Lemma valid_card_fixed (c : gmap string string) :
  valid_card c ->
  plain_entry (as_candidate c) = true /\ normalized_card (as_candidate c) = Some c.
Proof.
  intros (s & e & t & su & cat & -> & Hs & He & Ht & Hst & Hsu & Hcat & Hscat).
  destruct (candidate_fields s e t su cat) as (Fs & Fe & Ft & Fsu & Fcat).
  destruct (hhmm_strict_shape s Hs) as [Ss Ps], (hhmm_strict_shape e He) as [Se Pe].
  unfold as_candidate, plain_entry, normalized_card.
  rewrite Fs, Fe, Ft, Fsu, Fcat, Ss, Se, Hst, Hsu, Hscat, Ps, Pe, Hs, He.
  split; [done|]. destruct t; [done|]. by destruct cat.
Qed.

(** X11.  Normalization is a projection: the cards [_normalize_cards]
    returns, handed back to it as candidates, are all returned again,
    unchanged and in the same order. *)
Theorem normalize_cards_round_trip (raw : raw_cards)
    (cards : list (gmap string string)) :
  _normalize_cards raw = Ok cards ->
  _normalize_cards (CardsList (as_candidate <$> cards)) = Ok cards.
Proof.
  intros H. apply normalize_output_valid in H.
  cbn [_normalize_cards]. rewrite normalize_loop_plain.
  - f_equal. cbn [app]. induction H as [|c cs Hc _ IH]; [done|].
    rewrite fmap_cons.
    change (omap normalized_card (as_candidate c :: (as_candidate <$> cs)))
      with (match normalized_card (as_candidate c) with
            | Some y => y :: omap normalized_card (as_candidate <$> cs)
            | None => omap normalized_card (as_candidate <$> cs)
            end).
    destruct (valid_card_fixed c Hc) as [_ ->]. by rewrite IH.
  - apply Forall_fmap. eapply Forall_impl; [exact H|].
    intros c Hc. by destruct (valid_card_fixed c Hc).
Qed.

Lemma normalize_cards_round_trip_witness :
  _normalize_cards
    (CardsList (as_candidate <$> [card_dict "09:00" "09:30" "Work" "x" "Coding"]))
  = Ok [card_dict "09:00" "09:30" "Work" "x" "Coding"].
Proof.
  apply (normalize_cards_round_trip
           (CardsList [Examples.work_card; Examples.bad_card])).
  reflexivity.
Defined.

End NormalizationRoundTrip.

(** ** From the analyzer to the store *)

Section AnalysisPipeline.
Import Models Ai Spec PyText Derived Database.

Lemma valid_card_views (c : gmap string string) :
  valid_card c ->
  stripped_view c = dict_view c /\
  hhmm_strict (view_start (dict_view c)) = true /\
  exists t s e cat, dict_view c = (t, s, e, cat) /\
    hhmm_strict s = true /\ hhmm_strict e = true /\ t <> "" /\ cat <> "".
Proof.
  intros (s & e & t & su & cat & -> & Hs & He & Ht & Hst & Hsu & Hcat & Hscat).
  destruct (hhmm_strict_shape s Hs) as [Ss _], (hhmm_strict_shape e He) as [Se _].
  assert (dict_view (card_dict s e t su cat) = (t, s, e, cat)) as Hview.
  { unfold dict_view, get, card_dict. by simplify_map_eq. }
  assert (stripped_view (card_dict s e t su cat) = (t, s, e, cat)) as Hstripped.
  { unfold stripped_view, get, card_dict. simplify_map_eq.
    by rewrite Hst, Ss, Se, Hscat. }
  rewrite Hview, Hstripped. split; [done|]. split; [done|].
  by exists t, s, e, cat.
Qed.

(** X12.  The cards [_normalize_cards] returns pass through the store
    without change: written with [replace_ai_timeline_for_day] and read
    back with [list_ai_timeline_for_day] they are the same cards (title,
    start, end, category), only ordered by start time with ties in the
    order returned; as many cards are read as were returned, and every card
    read has strict HH:MM times, a title and a category. *)
Theorem normalized_cards_stored_verbatim (raw : raw_cards)
    (cards : list (gmap string string)) (d s now : string) (db : Store) :
  _normalize_cards raw = Ok cards ->
  let stored :=
    list_ai_timeline_for_day d (replace_ai_timeline_for_day d cards s now db) in
  card_view <$> stored = stable_sort view_start_leb (dict_view <$> cards) /\
  length stored = length cards /\
  Forall (fun c => hhmm_strict (ac_start c) = true /\
                   hhmm_strict (ac_end c) = true /\
                   ac_title c <> "" /\ ac_category c <> "" /\ ac_day c = d)
    stored.
Proof.
  intros H stored. apply normalize_output_valid in H.
  assert (card_view <$> stored
          = stable_sort view_start_leb (dict_view <$> cards)) as Hmain.
  { unfold stored, list_ai_timeline_for_day. rewrite replace_rows_of_day.
    rewrite <- list_fmap_compose.
    change (card_view ∘ card_of_row) with row_view.
    rewrite stable_sort_view by apply new_rows_increasing.
    rewrite new_rows_view. f_equal.
    apply Forall_fmap_ext_1. eapply Forall_impl; [exact H|].
    intros c Hc. by destruct (valid_card_views c Hc). }
  split; [exact Hmain|]. split.
  - rewrite <- (length_fmap card_view), Hmain, stable_sort_length.
    by rewrite length_fmap.
  - assert (Forall (fun c => ac_day c = d) stored) as Hday.
    { unfold stored, list_ai_timeline_for_day. rewrite replace_rows_of_day.
      apply Forall_fmap. rewrite stable_sort_perm.
      eapply Forall_impl; [apply new_rows_day|]. done. }
    apply Forall_forall. intros c Hc.
    assert (card_view c ∈ dict_view <$> cards) as Hin.
    { rewrite <- (stable_sort_perm view_start_leb), <- Hmain.
      by apply list_elem_of_fmap_2. }
    apply list_elem_of_fmap in Hin as (c0 & Hview & Hc0).
    rewrite Forall_forall in H. specialize (H c0 Hc0).
    destruct (valid_card_views c0 H)
      as (_ & _ & t & s0 & e & cat & Hdv & Hs & He & Ht & Hcat).
    rewrite Hdv in Hview. unfold card_view in Hview.
    rewrite Forall_forall in Hday. specialize (Hday c Hc).
    injection Hview as <- <- <- <-. done.
Qed.

Lemma normalized_cards_stored_verbatim_witness :
  card_view <$>
    list_ai_timeline_for_day "2026-02-20"
      (replace_ai_timeline_for_day "2026-02-20"
         [card_dict "09:00" "09:30" "Work" "x" "Coding"] "ok" "now"
         empty_store)
  = stable_sort view_start_leb
      (dict_view <$> [card_dict "09:00" "09:30" "Work" "x" "Coding"]).
Proof.
  refine (proj1 (normalized_cards_stored_verbatim
                   (CardsList [Examples.work_card; Examples.bad_card])
                   _ _ _ _ _ _)).
  reflexivity.
Defined.

End AnalysisPipeline.

(** ** The store: cleanup settles, keys stay distinct *)

Section StoreRuns.
Import Models Database Derived.

Lemma enforce_loop_files max_bytes rows : forall table fs current cnt bytes,
  (enforce_loop max_bytes rows table fs current cnt bytes).1.2 ⊆ fs.
Proof.
  induction rows as [|row rest IH]; intros table fs current cnt bytes;
    cbn [enforce_loop]; [done|].
  destruct (current <=? max_bytes); [done|].
  etransitivity; [apply IH | by apply subseteq_difference_l].
Qed.

Lemma enforce_storage_limit_result (max_bytes : Z) (db : Store) :
  NoDup (ss_id <$> screenshots db) ->
  exists db' counts,
    enforce_storage_limit max_bytes db = (db', counts) /\
    (max_bytes <= 0 \/ sum_file_size (screenshots db') <= max_bytes) /\
    sum_file_size (screenshots db') = sum_file_size (screenshots db) - counts.2 /\
    Z.of_nat (length (screenshots db'))
    = Z.of_nat (length (screenshots db)) - counts.1 /\
    screenshots db' `sublist_of` screenshots db /\
    files db' ⊆ files db /\
    ai_timeline_cards db' = ai_timeline_cards db /\
    ai_daily_summaries db' = ai_daily_summaries db /\
    screenshots_seq db' = screenshots_seq db.
Proof.
  intros Hnd. unfold enforce_storage_limit.
  destruct (Z.leb_spec max_bytes 0) as [Hoff|Hon].
  { exists db, (0, 0). cbn [fst snd]. repeat split; try done; lia. }
  destruct (Z.leb_spec (sum_file_size (screenshots db)) max_bytes) as [Hle|Hgt].
  { exists db, (0, 0). cbn [fst snd]. repeat split; try done; lia. }
  pose proof (stable_sort_perm captured_at_leb (screenshots db)) as Hperm.
  destruct (enforce_loop_spec max_bytes
              (stable_sort captured_at_leb (screenshots db))
              (screenshots db) (files db)
              (sum_file_size (screenshots db)) 0 0)
    as (removed & kept & Hrows & Htable & Hcounts & Hkept & _).
  { exact Hperm. }
  { by rewrite Hperm. }
  { symmetry. by apply sum_file_size_perm. }
  pose proof (enforce_loop_sublist max_bytes
                (stable_sort captured_at_leb (screenshots db))
                (screenshots db) (files db)
                (sum_file_size (screenshots db)) 0 0) as Hsub.
  pose proof (enforce_loop_files max_bytes
                (stable_sort captured_at_leb (screenshots db))
                (screenshots db) (files db)
                (sum_file_size (screenshots db)) 0 0) as Hfiles.
  destruct (enforce_loop _ _ _ _ _ _ _) as [[table fs] cs].
  cbn [fst snd] in *.
  assert (sum_file_size (screenshots db)
          = sum_file_size removed + sum_file_size kept) as Hsum.
  { rewrite <- (sum_file_size_perm _ _ Hperm), Hrows. apply sum_file_size_app. }
  assert (length (screenshots db) = (length removed + length kept)%nat) as Hlen.
  { rewrite <- Hperm, Hrows. apply length_app. }
  assert (length table = length kept) as Hlen' by (by rewrite Htable).
  pose proof (sum_file_size_perm _ _ Htable) as Hsum'.
  eexists _, _. split; [reflexivity|].
  cbn [fst snd screenshots files ai_timeline_cards ai_daily_summaries
       screenshots_seq].
  subst cs. cbn [fst snd].
  repeat split; try done; try lia.
  right. destruct Hkept as [-> | Hk]; [simpl in Hsum'|]; lia.
Qed.

(** X13.  Cleanup settles and accounts for what it removed: on a store
    with distinct screenshot ids a second [enforce_storage_limit] with the
    same budget removes nothing; the bytes and the count returned are the
    drop of the stored total and of the number of rows; the rows left are
    the earlier rows in their order; no file appears; the analysis tables
    and the id counter are not touched. *)
Theorem enforce_storage_limit_settles (max_bytes : Z) (db : Store) :
  NoDup (ss_id <$> screenshots db) ->
  let db' := (enforce_storage_limit max_bytes db).1 in
  let counts := (enforce_storage_limit max_bytes db).2 in
  enforce_storage_limit max_bytes db' = (db', (0, 0)) /\
  total_screenshot_bytes db' = total_screenshot_bytes db - counts.2 /\
  Z.of_nat (length (screenshots db'))
  = Z.of_nat (length (screenshots db)) - counts.1 /\
  screenshots db' `sublist_of` screenshots db /\
  files db' ⊆ files db /\
  ai_timeline_cards db' = ai_timeline_cards db /\
  ai_daily_summaries db' = ai_daily_summaries db /\
  screenshots_seq db' = screenshots_seq db.
Proof.
  intros Hnd db' counts. subst db' counts.
  destruct (enforce_storage_limit_result max_bytes db Hnd)
    as (db' & counts & -> & Hwithin & Hrest).
  cbn [fst snd]. split; [|exact Hrest].
  unfold enforce_storage_limit.
  destruct (Z.leb_spec max_bytes 0); [done|].
  destruct (Z.leb_spec (sum_file_size (screenshots db')) max_bytes); [done|].
  lia.
Qed.

Lemma enforce_storage_limit_settles_witness :
  let db0 :=
    (insert_screenshot "2026-01-05T09:01:00+00:00" "b.jpg" 1200 "B" "Code"
       (insert_screenshot "2026-01-05T09:00:00+00:00" "a.jpg" 1200 "A" "Code"
          empty_store).1).1 in
  enforce_storage_limit 1500 (enforce_storage_limit 1500 db0).1
  = ((enforce_storage_limit 1500 db0).1, (0, 0)).
Proof.
  cbv zeta.
  refine (proj1 (enforce_storage_limit_settles 1500 _ _)).
  simpl. apply NoDup_cons. split; [|apply NoDup_singleton].
  rewrite list_elem_of_singleton. discriminate.
Defined.





End StoreRuns.

(** ** The recorder: one start at a time *)

Section StartOnce.
Import PyFloat Capture.

(** X15.  [start] takes effect once: it returns [True] exactly when the
    service was not running, the service runs afterwards, a call on a
    running service changes nothing, so of two calls in a row the second
    returns [False] and the interval of the first stays. *)
Theorem start_takes_effect_once (i j : pyfloat) (svc : ScreenCaptureService) :
  let first := start i svc in
  let second := start j first.1 in
  first.2 = negb (running svc) /\
  running first.1 = true /\
  (running svc = true -> first.1 = svc) /\
  (running svc = false -> _interval_seconds first.1 = fmax (Finite 1) i) /\
  second = (first.1, false).
Proof.
  unfold start. destruct svc as [iv [|]]; cbn; repeat split; try done.
Qed.

Lemma start_takes_effect_once_witness :
  start (Finite 30) (start (Finite 5) new_service).1
  = ((start (Finite 5) new_service).1, false).
Proof.
  exact (proj2 (proj2 (proj2 (proj2
           (start_takes_effect_once (Finite 5) (Finite 30) new_service))))).
Defined.

End StartOnce.

(** ** The window: storage limit and cleanup *)

Section Cleanup.
Import PyFloat Database App.

Lemma trunc_nonneg (q : Q) : (0 <= q)%Q -> 0 <= trunc q.
Proof.
  unfold Qle, trunc. destruct q as [n d]. simpl. intros H.
  apply Z.quot_pos; lia.
Qed.

Lemma times_1024_positive (x : pyfloat) :
  fle x (Finite 0) = false ->
  fle (times_1024 x) (Finite 0) = false.
Proof.
  destruct x as [q| | |]; try done. cbn [times_1024 fle].
  intros H.
  assert (~ (q <= 0)%Q) as Hq.
  { intros Hle. apply Qle_bool_iff in Hle. congruence. }
  destruct (Qle_bool (2 ^ 1024) (q * 1024)); [done|].
  destruct (Qle_bool (q * 1024) (- 2 ^ 1024)) eqn:E.
  - exfalso. apply Qle_bool_iff in E. apply Hq.
    unfold Qle in *. destruct q as [n d]. simpl in *. 
    assert (- 2 ^ 1024 < 0) by (apply Z.opp_neg_pos, Z.pow_pos_nonneg; lia).
    nia.
  - cbn [fle]. destruct (Qle_bool (q * 1024) 0) eqn:E0; [|done].
    exfalso. apply Qle_bool_iff in E0. apply Hq.
    unfold Qle in *. destruct q as [n d]. simpl in *. lia.
Qed.

Lemma storage_limit_bytes_nonneg (typed : result pyfloat) (n : Z) :
  _storage_limit_bytes typed = Returns n -> 0 <= n.
Proof.
  unfold _storage_limit_bytes. destruct typed as [gb|e].
  - destruct (fle gb (Finite 0)) eqn:E; [inversion 1; lia|].
    do 3 apply times_1024_positive in E.
    destruct (times_1024 (times_1024 (times_1024 gb))) as [q| | |]; try done.
    cbn [int_of_float]. inversion 1. apply trunc_nonneg.
    cbn [fle] in E. destruct (Qlt_le_dec 0 q) as [Hq|Hq].
    + by apply Qlt_le_weak.
    + apply Qle_bool_iff in Hq. congruence.
  - destruct e; inversion 1; lia.
Qed.

Lemma times_1024_finite (q : Q) :
  (0 < q)%Q -> (q * 1024 < 2 ^ 1024)%Q ->
  times_1024 (Finite q) = Finite (q * 1024).
Proof.
  intros Hpos Hlt. cbn [times_1024].
  destruct (Qle_bool (2 ^ 1024) (q * 1024)) eqn:E.
  { apply Qle_bool_iff in E. by apply Qlt_not_le in Hlt. }
  destruct (Qle_bool (q * 1024) (- 2 ^ 1024)) eqn:E'; [|done].
  apply Qle_bool_iff in E'. exfalso.
  assert (0 < q * 1024)%Q as H1.
  { apply Qmult_lt_0_compat; [done|reflexivity]. }
  assert (- 2 ^ 1024 < 0)%Q as H2 by reflexivity.
  apply (Qlt_irrefl 0).
  eapply Qlt_le_trans; [exact H1|].
  eapply Qle_trans; [exact E'|]. by apply Qlt_le_weak.
Qed.

Lemma scale_steps (q : Q) :
  (0 < q)%Q -> (q * 2 ^ 30 < 2 ^ 1024)%Q ->
  times_1024 (times_1024 (times_1024 (Finite q)))
  = Finite (q * 1024 * 1024 * 1024).
Proof.
  intros Hpos Hlt.
  assert (q * 1024 * 1024 * 1024 == q * 2 ^ 30)%Q as Heq.
  { change (2 ^ 30)%Q with (1024 * 1024 * 1024)%Q. ring. }
  assert (forall x : Q, (0 < x)%Q -> (x <= x * 1024)%Q) as Hgrow.
  { intros x Hx. rewrite <- (Qmult_1_r x) at 1.
    apply Qmult_le_l; [done|]. discriminate. }
  assert (forall x : Q, (0 < x)%Q -> (0 < x * 1024)%Q) as Hp.
  { intros x Hx. apply Qmult_lt_0_compat; [done|reflexivity]. }
  assert (q * 1024 * 1024 * 1024 < 2 ^ 1024)%Q as H3 by (by rewrite Heq).
  assert (q * 1024 * 1024 < 2 ^ 1024)%Q as H2.
  { eapply Qle_lt_trans; [apply Hgrow; auto|exact H3]. }
  assert (q * 1024 < 2 ^ 1024)%Q as H1.
  { eapply Qle_lt_trans; [apply Hgrow; auto|exact H2]. }
  rewrite times_1024_finite by done.
  rewrite times_1024_finite by auto.
  by rewrite times_1024_finite by auto.
Qed.

Lemma trunc_scaled (q : Q) :
  trunc (q * 1024 * 1024 * 1024) = trunc (q * 2 ^ 30).
Proof.
  destruct q as [n d]. unfold trunc. cbn [Qmult Qnum Qden].
  change (Qnum (2 ^ 30)%Q) with (1024 * 1024 * 1024).
  change (Qden (2 ^ 30)%Q) with 1%positive.
  change (Qnum 1024) with 1024. change (Qden 1024) with 1%positive.
  rewrite !Pos.mul_1_r. f_equal. lia.
Qed.

(** X16.  The storage limit read from the settings field is never
    negative.  A field that is not a number, a limit of zero or less and a
    positive limit of less than one byte all leave the store as it is; a
    limit that is not a number in the float sense raises [ValueError], an
    infinite one [OverflowError].  The guard of [_maybe_cleanup_storage]
    is redundant: it leaves the store that [_cleanup_now] leaves, and it
    logs only when a row was removed.  On a store with distinct screenshot
    ids a limit of [n > 0] bytes leaves at most [n] bytes stored. *)
Theorem cleanup_follows_limit (typed : result pyfloat) (db : Store) :
  (forall n, _storage_limit_bytes typed = Returns n -> 0 <= n) /\
  (_storage_limit_bytes typed = Returns 0 ->
   _cleanup_now typed db = Returns (db, (0, 0)) /\
   _maybe_cleanup_storage typed db = Returns (db, None)) /\
  (forall msg, typed = Raise (ValueError msg) ->
   _storage_limit_bytes typed = Returns 0) /\
  (forall gb, typed = Ok gb -> fle gb (Finite 0) = true ->
   _storage_limit_bytes typed = Returns 0) /\
  (forall q, typed = Ok (Finite q) -> (0 < q)%Q -> (q * 2 ^ 30 < 1)%Q ->
   _storage_limit_bytes typed = Returns 0) /\
  (forall q, typed = Ok (Finite q) -> (0 < q)%Q -> (q * 2 ^ 30 < 2 ^ 1024)%Q ->
   _storage_limit_bytes typed = Returns (trunc (q * 2 ^ 30))) /\
  (typed = Ok NaN -> exists msg,
   _cleanup_now typed db = Raises (Exn (ValueError msg)) /\
   _maybe_cleanup_storage typed db = Raises (Exn (ValueError msg))) /\
  (typed = Ok PosInf ->
   _cleanup_now typed db = Raises OverflowError /\
   _maybe_cleanup_storage typed db = Raises OverflowError) /\
  (forall out, _cleanup_now typed db = Returns out ->
   exists logged, _maybe_cleanup_storage typed db = Returns (out.1, logged) /\
     (logged = None /\ out.2.1 <= 0 \/ logged = Some out.2 /\ 0 < out.2.1)) /\
  (forall n out, NoDup (ss_id <$> screenshots db) ->
   _storage_limit_bytes typed = Returns n -> 0 < n ->
   _cleanup_now typed db = Returns out ->
   total_screenshot_bytes out.1 <= n).
Proof.
  split; [apply storage_limit_bytes_nonneg|].
  split.
  { intros H. unfold _cleanup_now, _maybe_cleanup_storage. by rewrite H. }
  split; [by intros msg ->|].
  split.
  { intros gb -> H. unfold _storage_limit_bytes. by rewrite H. }
  assert (forall q, typed = Ok (Finite q) -> (0 < q)%Q ->
            (q * 2 ^ 30 < 2 ^ 1024)%Q ->
            _storage_limit_bytes typed = Returns (trunc (q * 2 ^ 30))) as Hexact.
  { intros q -> Hpos Hlt. unfold _storage_limit_bytes. cbn [fle].
    destruct (Qle_bool q 0) eqn:E.
    { apply Qle_bool_iff in E. by apply Qlt_not_le in Hpos. }
    rewrite scale_steps by done. cbn [int_of_float].
    by rewrite trunc_scaled. }
  split.
  { intros q Hq Hpos Hsmall. rewrite (Hexact q Hq Hpos).
    - f_equal. destruct q as [n d]. unfold trunc, Qlt in *.
      cbn [Qmult Qnum Qden] in *.
      change (Qnum (2 ^ 30)%Q) with (1024 * 1024 * 1024) in *.
      change (Qden (2 ^ 30)%Q) with 1%positive in *.
      rewrite Pos.mul_1_r in *. simpl in Hpos, Hsmall.
      apply Z.quot_small. lia.
    - eapply Qlt_trans; [exact Hsmall|reflexivity]. }
  split; [exact Hexact|].
  split.
  { intros ->. eexists. split; reflexivity. }
  split; [by intros ->|].
  split.
  { intros [db' [cnt bytes]]. unfold _cleanup_now, _maybe_cleanup_storage.
    destruct (_storage_limit_bytes typed) as [n|f]; [|done].
    intros H. injection H as H. cbn [fst snd].
    destruct (Z.leb_spec n 0) as [Hn|Hn].
    - unfold enforce_storage_limit in H.
      destruct (Z.leb_spec n 0); [|lia]. injection H as <- <- <-.
      exists None. split; [done|]. left. split; [done|lia].
    - rewrite H. destruct (Z.ltb_spec 0 cnt).
      + eexists. split; [done|]. by right.
      + eexists. split; [done|]. by left. }
  intros n out Hnd Hn Hpos. unfold _cleanup_now. rewrite Hn.
  intros H. injection H as <-.
  destruct (enforce_storage_limit_result n db Hnd)
    as (db' & counts & -> & [Hoff|Hwithin] & _); [lia|done].
Qed.

Lemma cleanup_follows_limit_witness :
  let db0 :=
    (insert_screenshot "2026-01-05T09:01:00+00:00" "b.jpg" 1200 "B" "Code"
       (insert_screenshot "2026-01-05T09:00:00+00:00" "a.jpg" 1200 "A" "Code"
          empty_store).1).1 in
  _storage_limit_bytes (Ok (Finite (1 # 1000000))) = Returns 1073 /\
  forall out, _cleanup_now (Ok (Finite (1 # 1000000))) db0 = Returns out ->
    total_screenshot_bytes out.1 <= 1073.
Proof.
  cbv zeta.
  pose proof (cleanup_follows_limit (Ok (Finite (1 # 1000000)))
    (insert_screenshot "2026-01-05T09:01:00+00:00" "b.jpg" 1200 "B" "Code"
       (insert_screenshot "2026-01-05T09:00:00+00:00" "a.jpg" 1200 "A" "Code"
          empty_store).1).1) as (_ & _ & _ & _ & _ & Hexact & _ & _ & _ & Hbound).
  assert (_storage_limit_bytes (Ok (Finite (1 # 1000000))) = Returns 1073) as Hn.
  { rewrite (Hexact (1 # 1000000)); [reflexivity|reflexivity|reflexivity|reflexivity]. }
  split; [exact Hn|].
  intros out Hout. apply (Hbound 1073 out); [|exact Hn|lia|exact Hout].
  simpl. apply NoDup_cons. split; [|apply NoDup_singleton].
  rewrite list_elem_of_singleton. discriminate.
Defined.

End Cleanup.

(** ** The window: categories and filters *)

Section Categories.
Import Models PyText App Derived.

Lemma lstrip_lower (s : string) : lstrip (lower s) = lower (lstrip s).
Proof.
  induction s as [|c s IH]; [done|].
  cbn [lower lstrip]. rewrite isspace_lower_char.
  by destruct (isspace c).
Qed.

Lemma rstrip_lower (s : string) : rstrip (lower s) = lower (rstrip s).
Proof.
  induction s as [|c s IH]; [done|].
  cbn [lower rstrip]. rewrite IH.
  destruct (rstrip s) as [|d r]; cbn [lower].
  - rewrite isspace_lower_char. by destruct (isspace c).
  - done.
Qed.

Lemma strip_lower (s : string) : strip (lower s) = lower (strip s).
Proof. unfold strip. by rewrite lstrip_lower, rstrip_lower. Qed.

Lemma normalize_category_cases (raw : string) :
  _normalize_category raw ∈ categories.
Proof.
  unfold _normalize_category, categories.
  repeat (destruct (mem _ _); [set_solver|]). set_solver.
Qed.

Lemma infer_category_cases (p w : string) :
  _infer_category_from_classic p w ∈ categories.
Proof.
  unfold _infer_category_from_classic, categories.
  repeat (match goal with |- context [if ?b then _ else _] => destruct b end;
          [set_solver|]).
  set_solver.
Qed.

(** X17.  Categories of the timeline view.  [_normalize_category] and
    [_infer_category_from_classic] return one of Core, Personal,
    Distractions and Idle; the first ignores surrounding white space and
    letter case, the second letter case.  [_normalize_category] is not a
    projection: applied to its own result it turns Personal into Core and
    keeps the other three. *)
Theorem category_normalization (raw process_name window_title : string) :
  _normalize_category raw ∈ categories /\
  _normalize_category (strip raw) = _normalize_category raw /\
  _normalize_category (lower raw) = _normalize_category raw /\
  _normalize_category (_normalize_category raw)
  = (if String.eqb (_normalize_category raw) "Personal" then "Core"
     else _normalize_category raw) /\
  _infer_category_from_classic process_name window_title ∈ categories /\
  _infer_category_from_classic (lower process_name) (lower window_title)
  = _infer_category_from_classic process_name window_title.
Proof.
  split; [apply normalize_category_cases|].
  split; [unfold _normalize_category; by rewrite strip_idem|].
  split; [unfold _normalize_category; by rewrite strip_lower, lower_idem|].
  split.
  { pose proof (normalize_category_cases raw) as H. unfold categories in H.
    repeat (apply elem_of_cons in H as [-> | H]; [by vm_compute|]).
    by apply elem_of_nil in H. }
  split; [apply infer_category_cases|].
  unfold _infer_category_from_classic. by rewrite !lower_idem.
Qed.

Lemma filter_one_of_four (category : string) :
  category ∈ categories ->
  (Nat.b2n (_filter_matches "core" category)
   + Nat.b2n (_filter_matches "personal" category)
   + Nat.b2n (_filter_matches "distractions" category)
   + Nat.b2n (_filter_matches "idle" category) = 1)%nat.
Proof.
  unfold categories. intros H.
  repeat (apply elem_of_cons in H as [-> | H]; [by vm_compute|]).
  by apply elem_of_nil in H.
Qed.

Lemma filter_other_key (filter_key category : string) :
  filter_key ∉ filter_keys -> _filter_matches filter_key category = true.
Proof.
  unfold filter_keys, _filter_matches. intros H.
  destruct (String.eqb filter_key "all"); [done|].
  destruct (String.eqb_spec filter_key "core") as [->|_];
    [exfalso; apply H; set_solver|].
  destruct (String.eqb_spec filter_key "personal") as [->|_];
    [exfalso; apply H; set_solver|].
  destruct (String.eqb_spec filter_key "distractions") as [->|_];
    [exfalso; apply H; set_solver|].
  destruct (String.eqb_spec filter_key "idle") as [->|_];
    [exfalso; apply H; set_solver|].
  done.
Qed.

Lemma shown_length {A B} (p : A -> bool) (g : A -> B) (l : list A) :
  length (omap (fun a => if negb (p a) then None else Some (g a)) l)
  = foldr (fun a n => (Nat.b2n (p a) + n)%nat) 0%nat l.
Proof.
  induction l as [|a l IH]; [done|].
  cbn [foldr]. rewrite <- IH. clear IH.
  change (omap ?f (a :: l)) with
    (match f a with Some y => y :: omap f l | None => omap f l end).
  cbv beta. destruct (p a); reflexivity.
Qed.

Lemma shown_four {A} (cat : A -> string) (l : list A) :
  (forall a, cat a ∈ categories) ->
  (foldr (fun a n => (Nat.b2n (_filter_matches "core" (cat a)) + n)%nat) 0 l
   + foldr (fun a n => (Nat.b2n (_filter_matches "personal" (cat a)) + n)%nat) 0 l
   + foldr (fun a n => (Nat.b2n (_filter_matches "distractions" (cat a)) + n)%nat) 0 l
   + foldr (fun a n => (Nat.b2n (_filter_matches "idle" (cat a)) + n)%nat) 0 l
   = length l)%nat.
Proof.
  intros Hcat. induction l as [|a l IH]; [done|].
  cbn [foldr length]. pose proof (filter_one_of_four (cat a) (Hcat a)). lia.
Qed.

Lemma shown_all {A} (filter_key : string) (cat : A -> string) (l : list A) :
  filter_key ∉ filter_keys ->
  foldr (fun a n => (Nat.b2n (_filter_matches filter_key (cat a)) + n)%nat) 0%nat l
  = length l.
Proof.
  intros H. induction l as [|a l IH]; [done|].
  cbn [foldr length]. by rewrite IH, filter_other_key.
Qed.

(** X18.  The filters of the timeline view.  The view shows the stored AI
    cards when there are any and the classic cards otherwise.  Under the
    key all, and under any key that is not one of core, personal,
    distractions and idle, every card is shown; each card is shown under
    exactly one of those four keys, so the four filtered views together
    have as many entries as there are cards; every entry shown carries one
    of the four categories. *)
Theorem display_filters_partition (_fmt_time : datetime -> string)
    (filter_key : string) (ai_cards : list AITimelineCard)
    (classic_cards : list TimelineCard) :
  let shown key :=
    _timeline_display_cards _fmt_time key ai_cards classic_cards in
  let total :=
    match ai_cards with [] => length classic_cards | _ => length ai_cards end in
  (filter_key ∉ filter_keys -> length (shown filter_key) = total) /\
  (length (shown "core") + length (shown "personal")
   + length (shown "distractions") + length (shown "idle") = total)%nat /\
  Forall (fun d => exists category,
            d !! "category" = Some category /\ category ∈ categories /\
            _filter_matches filter_key category = true)
    (shown filter_key).
Proof.
  intros shown total. subst shown total. unfold _timeline_display_cards.
  destruct ai_cards as [|c cs].
  - unfold classic_display. split; [|split].
    + intros H. rewrite (shown_length
        (fun card => _filter_matches filter_key
           (_infer_category_from_classic (tc_process_name card)
              (tc_window_title card)))).
      by apply (shown_all filter_key
        (fun card => _infer_category_from_classic (tc_process_name card)
                       (tc_window_title card))).
    + rewrite !(shown_length
        (fun card => _filter_matches _
           (_infer_category_from_classic (tc_process_name card)
              (tc_window_title card)))).
      apply (shown_four
        (fun card => _infer_category_from_classic (tc_process_name card)
                       (tc_window_title card))).
      intros a. apply infer_category_cases.
    + apply Forall_forall. intros d Hd.
      apply list_elem_of_omap in Hd as (card & _ & Hd).
      destruct (_filter_matches _ _) eqn:E; [|done].
      cbn [negb] in Hd. injection Hd as <-.
      eexists. split; [|split; [apply infer_category_cases|exact E]].
      unfold display_dict. by simplify_map_eq.
  - unfold ai_display. split; [|split].
    + intros H. rewrite (shown_length
        (fun card => _filter_matches filter_key
           (_normalize_category (ac_category card)))).
      by apply (shown_all filter_key
        (fun card => _normalize_category (ac_category card))).
    + rewrite !(shown_length
        (fun card => _filter_matches _
           (_normalize_category (ac_category card)))).
      apply (shown_four (fun card => _normalize_category (ac_category card))).
      intros a. apply normalize_category_cases.
    + apply Forall_forall. intros d Hd.
      apply list_elem_of_omap in Hd as (card & _ & Hd).
      destruct (_filter_matches _ _) eqn:E; [|done].
      cbn [negb] in Hd. injection Hd as <-.
      eexists. split; [|split; [apply normalize_category_cases|exact E]].
      unfold display_dict. by simplify_map_eq.
Qed.

Lemma display_filters_partition_witness :
  length (_timeline_display_cards (fun _ => "09:00") "all"
            [mkAITimelineCard 1 "2026-02-20" "09:00" "09:30" "Work" "x" "Coding"]
            [])
  = 1%nat.
Proof.
  refine (proj1 (display_filters_partition (fun _ => "09:00") "all"
            [mkAITimelineCard 1 "2026-02-20" "09:00" "09:30" "Work" "x" "Coding"]
            []) _).
  unfold filter_keys. intros H.
  repeat (apply elem_of_cons in H as [H | H]; [discriminate H|]).
  by apply elem_of_nil in H.
Defined.

End Categories.

(** ** The analyzer: the text of a reply *)

Section ReplyText.
Import Json Ai AiReply.

Lemma uisspace_code (c : ascii) : UText.isspace (PyText.code c) = PyText.isspace c.
Proof. by destruct c as [[] [] [] [] [] [] [] []]. Qed.

Lemma to_string_of_string (u : UText.ustring) : forall s,
  UText.to_string u = Some s -> u = UText.of_string s.
Proof.
  induction u as [|n u IH]; intros s H; simpl in H.
  - by inversion H.
  - destruct (N.ltb_spec n 256) as [Hn|]; [|done].
    destruct (UText.to_string u) as [s'|]; [|done]. inversion H; subst s.
    unfold UText.of_string. cbn [list_ascii_of_string fmap list_fmap].
    fold (UText.of_string s'). rewrite <- (IH s' eq_refl).
    unfold PyText.code. by rewrite N_ascii_embedding.
Qed.

Lemma lstrip_of_string (s : string) :
  UText.lstrip (UText.of_string s) = UText.of_string (PyText.lstrip s).
Proof.
  induction s as [|c s IH]; [done|].
  change (UText.of_string (String c s))
    with (PyText.code c :: UText.of_string s).
  cbn [UText.lstrip PyText.lstrip]. rewrite uisspace_code.
  by destruct (PyText.isspace c).
Qed.

Lemma rstrip_of_string (s : string) :
  UText.rstrip (UText.of_string s) = UText.of_string (PyText.rstrip s).
Proof.
  induction s as [|c s IH]; [done|].
  change (UText.of_string (String c s))
    with (PyText.code c :: UText.of_string s).
  cbn [UText.rstrip PyText.rstrip]. rewrite IH, uisspace_code.
  destruct (PyText.rstrip s) as [|d r]; [by destruct (PyText.isspace c)|].
  done.
Qed.

Lemma strip_of_string (s : string) :
  UText.strip (UText.of_string s) = UText.of_string (PyText.strip s).
Proof.
  unfold UText.strip, PyText.strip. by rewrite lstrip_of_string, rstrip_of_string.
Qed.

Lemma not_blank_string (text : UText.ustring) (s : string) :
  UText.strip text <> [] -> UText.to_string text = Some s ->
  PyText.strip s <> "".
Proof.
  intros Hne Hs E. apply to_string_of_string in Hs as ->.
  rewrite strip_of_string, E in Hne. by apply Hne.
Qed.

Lemma is_blank_false (text : UText.ustring) :
  is_blank text = false -> UText.strip text <> [].
Proof. unfold is_blank. by destruct (UText.strip text). Qed.

Lemma ustrip_idem (u : UText.ustring) : UText.strip (UText.strip u) = UText.strip u.
Proof.
  assert (forall l, UText.rstrip (UText.rstrip l) = UText.rstrip l) as Hr.
  { induction l as [|c l IH]; [done|].
    cbn [UText.rstrip]. destruct (UText.rstrip l) as [|d r] eqn:E.
    - destruct (UText.isspace c) eqn:Ec; [done|]. cbn [UText.rstrip].
      by rewrite Ec.
    - cbn [UText.rstrip]. cbn [UText.rstrip] in IH. by rewrite IH. }
  assert (forall l, UText.lstrip l = [] \/
            exists c r, UText.lstrip l = c :: r /\ UText.isspace c = false) as Hl.
  { induction l as [|c l IH]; [by left|].
    cbn [UText.lstrip]. destruct (UText.isspace c) eqn:Ec; [done|].
    right. by exists c, l. }
  unfold UText.strip. destruct (Hl u) as [-> | (c & r & -> & Hc)]; [done|].
  assert (exists r', UText.rstrip (c :: r) = c :: r') as [r' Hr'].
  { cbn [UText.rstrip]. destruct (UText.rstrip r); [rewrite Hc|]; by eexists. }
  rewrite Hr'. cbn [UText.lstrip]. rewrite Hc, <- Hr'. apply Hr.
Qed.

Lemma first_text_not_blank (parts : list json) (text : UText.ustring) :
  first_text parts = Got text -> UText.strip text <> [].
Proof.
  induction parts as [|part rest IH]; [done|].
  cbn [first_text]. destruct (dict_get part "text" JNull) as [v|]; [|done].
  destruct v; try exact IH.
  destruct (is_blank s) eqn:E; cbn [negb]; [exact IH|].
  intros H. injection H as <-. by apply is_blank_false.
Qed.

Lemma gemini_text_not_blank (data : json) (text : UText.ustring) :
  _extract_gemini_text data = Got text -> UText.strip text <> [].
Proof.
  unfold _extract_gemini_text.
  destruct (dict_get data "candidates" JNull) as [[| | | | |[|c cs]|]|]; try done.
  destruct (dict_get c "content" (JObj [])) as [content|]; [|done].
  destruct (dict_get content "parts" (JArr [])) as [[| | | |[|]|parts|[|]]|];
    try done.
  apply first_text_not_blank.
Qed.

Lemma openai_text_not_blank (data : json) (text : UText.ustring) :
  _extract_openai_text data = Got text -> UText.strip text <> [].
Proof.
  unfold _extract_openai_text, no_text_content.
  destruct (dict_get data "choices" JNull) as [[| | | | |[|c cs]|]|]; try done.
  destruct (dict_get c "message" (JObj [])) as [message|]; [|done].
  destruct (dict_get message "content" JNull) as [[| | | |s|entries|]|];
    try done.
  - destruct (is_blank s) eqn:E; cbn [negb]; [done|].
    intros H. injection H as <-. by apply is_blank_false.
  - destruct (is_blank _) eqn:E; cbn [negb]; [done|].
    intros H. injection H as <-. by apply is_blank_false.
Qed.

(** The failures of the extractors: a value without [get], a value
    that cannot be iterated, or a [RuntimeError] of their own. *)
Lemma first_text_errors (parts : list json) (err : error) :
  first_text parts = Error err ->
  err = AttributeError \/
  exists msg, err = Fails (RuntimeError msg) /\ msg <> "AI response was empty.".
Proof.
  induction parts as [|part rest IH].
  { inversion 1. right. by eexists. }
  cbn [first_text]. destruct part; try (inversion 1; by left). cbn [dict_get].
  destruct (default JNull _); try exact IH. by destruct (negb _).
Qed.

Lemma gemini_errors (data : json) (err : error) :
  _extract_gemini_text data = Error err ->
  err = AttributeError \/ err = TypeError \/
  exists msg, err = Fails (RuntimeError msg) /\ msg <> "AI response was empty.".
Proof.
  unfold _extract_gemini_text. destruct data; try (inversion 1; by left).
  cbn [dict_get].
  destruct (default JNull _) as [| | | | |[|c cs]|];
    try (inversion 1; right; right; by eexists).
  destruct c; try (inversion 1; by left). cbn [dict_get].
  destruct (default (JObj []) _) as [| | | | | |ms];
    try (inversion 1; by left). cbn [dict_get].
  destruct (default (JArr []) _) as [| | | |[|]|parts|[|]];
    try (inversion 1; first [ by left | by right; left
                            | right; right; by eexists ]).
  intros H. apply first_text_errors in H as [->|H]; [by left | by right; right].
Qed.

Lemma openai_errors (data : json) (err : error) :
  _extract_openai_text data = Error err ->
  err = AttributeError \/
  exists msg, err = Fails (RuntimeError msg) /\ msg <> "AI response was empty.".
Proof.
  unfold _extract_openai_text, no_text_content.
  destruct data; try (inversion 1; by left). cbn [dict_get].
  destruct (default JNull _) as [| | | | |[|c cs]|];
    try (inversion 1; right; by eexists).
  destruct c; try (inversion 1; by left). cbn [dict_get].
  destruct (default (JObj []) _) as [| | | | | |ms];
    try (inversion 1; by left). cbn [dict_get].
  destruct (default JNull _) as [| | | |s|entries|];
    try (inversion 1; right; by eexists).
  - destruct (negb _); [done|]. inversion 1; right; by eexists.
  - destruct (negb _); [done|]. inversion 1; right; by eexists.
Qed.

(** X19.  The text taken from a provider's reply is never blank, for
    both reply formats and any code points, so [_parse_ai_json] never
    reports an empty response on it.  A reply that is not a JSON object
    makes both extractors fail with [AttributeError].  Extraction fails
    with [AttributeError], [TypeError] (parts that cannot be iterated) or a
    [RuntimeError] other than the empty response; and on a reply whose
    text holds code points below 256 only, extraction followed by parsing
    fails in five ways and no other: these three, and the decoder's
    [ValueError] and [RecursionError], which neither step catches. *)
Theorem reply_text_is_not_blank (depth : nat) (data : json) :
  (forall text,
     _extract_gemini_text data = Got text \/ _extract_openai_text data = Got text ->
     UText.strip text <> [] /\
     forall s, UText.to_string text = Some s ->
       PyText.strip s <> "" /\
       _parse_ai_json depth s <> Raise (RuntimeError "AI response was empty.")) /\
  (~ is_object data ->
   _extract_gemini_text data = Error AttributeError /\
   _extract_openai_text data = Error AttributeError) /\
  (forall err,
     _extract_gemini_text data = Error err \/
     _extract_openai_text data = Error err ->
     err = AttributeError \/ err = TypeError \/
     exists msg, err = Fails (RuntimeError msg) /\
       msg <> "AI response was empty.") /\
  (forall err,
     parse_reply depth _extract_gemini_text data = Some (Error err) \/
     parse_reply depth _extract_openai_text data = Some (Error err) ->
     err = AttributeError \/ err = TypeError \/
     (exists msg, err = Fails (RuntimeError msg) /\
        msg <> "AI response was empty.") \/
     (exists msg, err = Fails (ValueError msg)) \/
     err = Fails RecursionError).
Proof.
  assert (forall err, _extract_openai_text data = Error err ->
            err = AttributeError \/ err = TypeError \/
            exists msg, err = Fails (RuntimeError msg) /\
              msg <> "AI response was empty.") as Hopenai.
  { intros err0 H0. apply openai_errors in H0 as [->|H0];
      [by left | by right; right]. }
  assert (forall text,
     _extract_gemini_text data = Got text \/ _extract_openai_text data = Got text ->
     UText.strip text <> []) as Htext.
  { intros text [H|H];
      [by eapply gemini_text_not_blank | by eapply openai_text_not_blank]. }
  assert (forall s e, PyText.strip s <> "" -> _parse_ai_json depth s = Raise e ->
            (exists msg, e = RuntimeError msg /\ msg <> "AI response was empty.") \/
            (exists msg, e = ValueError msg) \/ e = RecursionError) as Hparse.
  { intros s e Hne H.
    apply parse_ai_json_error_kinds in H as [(msg & -> & Hmsg)|H]; [|by right].
    left. eexists. split; [done|]. intros ->. by apply Hne, Hmsg. }
  assert (forall extract,
            (forall text, extract data = Got text -> UText.strip text <> []) ->
            (forall err, extract data = Error err ->
               err = AttributeError \/ err = TypeError \/
               exists msg, err = Fails (RuntimeError msg) /\
                 msg <> "AI response was empty.") ->
            forall err, parse_reply depth extract data = Some (Error err) ->
            err = AttributeError \/ err = TypeError \/
            (exists msg, err = Fails (RuntimeError msg) /\
               msg <> "AI response was empty.") \/
            (exists msg, err = Fails (ValueError msg)) \/
            err = Fails RecursionError) as Hreply.
  { intros extract Hgot Herr err H. unfold parse_reply in H.
    destruct (extract data) as [text|err0] eqn:E.
    - destruct (UText.to_string text) as [s|] eqn:Es; [|done].
      destruct (_parse_ai_json depth s) as [v|e] eqn:Ep; [done|].
      injection H as <-.
      destruct (Hparse s e) as [(msg & -> & Hm)|[(msg & ->)| ->]];
        [by eapply not_blank_string; [apply Hgot|] | done | | |].
      + right; right; left. by eexists.
      + right; right; right; left. by eexists.
      + by right; right; right; right.
    - injection H as <-.
      destruct (Herr err0 eq_refl) as [->|[->|H]];
        [by left | by right; left | by right; right; left]. }
  split; [|split; [|split]].
  - intros text H. split; [by apply Htext|]. intros s Hs.
    pose proof (not_blank_string text s (Htext text H) Hs) as Hne.
    split; [done|]. intros Hraise.
    destruct (Hparse s _ Hne Hraise) as [(msg & Heq & Hm)|[(msg & Heq)|Heq]];
      try discriminate Heq.
    injection Heq as <-. by apply Hm.
  - intros Hobj. destruct data; try done.
    exfalso. apply Hobj. by eexists.
  - intros err [H|H];
      [exact (gemini_errors data err H) | exact (Hopenai err H)].
  - intros err [H|H].
    + eapply (Hreply _extract_gemini_text); [| |exact H].
      * intros text Ht. apply Htext. by left.
      * apply gemini_errors.
    + eapply (Hreply _extract_openai_text); [| |exact H].
      * intros text Ht. apply Htext. by right.
      * intros err0 H0. apply openai_errors in H0 as [->|H0];
          [by left | by right; right].
Qed.

Lemma reply_text_is_not_blank_witness :
  let reply (content : json) :=
    JObj [(UText.of_string "choices",
           JArr [JObj [(UText.of_string "message",
                        JObj [(UText.of_string "content", content)])]])] in
  let parts (value : json) :=
    JObj [(UText.of_string "candidates",
           JArr [JObj [(UText.of_string "content",
                        JObj [(UText.of_string "parts", value)])]])] in
  PyText.strip " {} " <> "" /\
  parse_reply 1000 _extract_openai_text
    (reply (JStr (UText.of_string Examples.long_integer)))
  = Some (Error (Fails (ValueError
      "Exceeds the limit (4300 digits) for integer string conversion"))) /\
  parse_reply 1000 _extract_gemini_text (parts JNull) = Some (Error TypeError).
Proof.
  cbv zeta. split; [|split; by vm_compute].
  refine (proj1 (proj2 (proj1 (reply_text_is_not_blank 1000
    (JObj [(UText.of_string "choices",
            JArr [JObj [(UText.of_string "message",
                         JObj [(UText.of_string "content",
                                JStr (UText.of_string " {} "))])]])]))
    (UText.of_string " {} ") _) " {} " _)).
  - right. reflexivity.
  - reflexivity.
Defined.

End ReplyText.

(** ** The analyzer: what is sent *)

Section Requests.
Import Models Ai PyText AiRequest Derived.

Lemma resolve_endpoint_stripped (provider endpoint : string) :
  _resolve_openai_endpoint provider endpoint <> "" /\
  strip (_resolve_openai_endpoint provider endpoint)
  = _resolve_openai_endpoint provider endpoint.
Proof.
  unfold _resolve_openai_endpoint.
  destruct (strip endpoint) eqn:E; cbn [is_empty negb].
  - by destruct (String.eqb provider "local").
  - rewrite <- E. split; [by rewrite E | apply strip_idem].
Qed.

Lemma auth_headers_empty (api_key : string) :
  strip api_key = api_key ->
  _auth_headers api_key = ∅ <-> api_key = "".
Proof.
  intros Hs. unfold _auth_headers. rewrite Hs.
  destruct api_key; cbn [is_empty]; [done|].
  split; [|done]. intros H.
  apply (f_equal (fun m : gmap string string => m !! "Authorization")) in H.
  by rewrite lookup_singleton_eq, lookup_empty in H.
Qed.

(** X20.  What [generate] sends.  Its checks fail only with
    [ValueError].  A request is made only with at least one screenshot; it
    carries a model that is not empty, between 1 and 20 screenshots that
    are a subsequence of those passed, and for gemini and openai a key
    that is not empty; an OpenAI-style request has an endpoint that is not
    empty and carries no surrounding white space, images exactly for
    openai, and no Authorization header exactly when the key is empty.
    The provider local needs no key. *)
Theorem generate_request_valid (provider api_key model : string)
    (screenshots : list ScreenshotRecord) (endpoint : string) :
  (forall e, generate_request provider api_key model screenshots endpoint = Raise e ->
     exists msg, e = ValueError msg) /\
  (forall r, generate_request provider api_key model screenshots endpoint = Ok r ->
     request_ok provider screenshots r) /\
  (provider = "local" -> screenshots <> [] -> strip model <> "" ->
   exists r, generate_request provider api_key model screenshots endpoint = Ok r).
Proof.
  unfold generate_request.
  destruct screenshots as [|s0 rest] eqn:Eshots;
    [split; [inversion 1; by eexists | split; done]|].
  rewrite <- Eshots.
  destruct (sample_within_cap screenshots 20)
    as (sample & -> & Hlen & Hsub & _); [lia|].
  cbn [rbind].
  assert (1 <= length sample <= 20)%nat as Hrange.
  { rewrite Hlen, Eshots. simpl. lia. }
  destruct (strip model) as [|m0 m] eqn:Em; cbn [is_empty].
  { split; [inversion 1; by eexists | split; done]. }
  destruct (String.eqb_spec provider "gemini") as [->|Hg].
  { cbn [orb andb]. destruct (strip api_key) as [|k0 k] eqn:Ek; cbn [is_empty].
    - split; [inversion 1; by eexists | split; done].
    - split; [done|]. split; [|done].
      intros r H. injection H as <-. cbn. done. }
  destruct (String.eqb_spec provider "openai") as [->|Ho].
  { cbn [orb andb]. destruct (strip api_key) as [|k0 k] eqn:Ek; cbn [is_empty].
    - split; [inversion 1; by eexists | split; done].
    - split; [done|]. split; [|done].
      intros r H. injection H as <-. cbn [request_ok].
      destruct (resolve_endpoint_stripped "openai" endpoint) as [? ?].
      split; [left; done|]. do 4 (split; [done|]).
      rewrite <- Ek. apply auth_headers_empty, strip_idem. }
  cbn [orb andb].
  destruct (String.eqb_spec provider "local") as [->|Hl].
  - split; [done|]. split; [|intros; by eexists].
    intros r H. injection H as <-. cbn [request_ok].
    destruct (resolve_endpoint_stripped "local" endpoint) as [? ?].
    split; [right; done|]. split; [done|]. split; [done|].
    split; [done|]. split; [done|].
    apply auth_headers_empty, strip_idem.
  - split; [inversion 1; by eexists|]. split; [done|]. done.
Qed.

Lemma generate_request_valid_witness :
  exists r,
    generate_request "local" "" "llama" [Examples._record 1 0] "" = Ok r.
Proof.
  refine (proj2 (proj2 (generate_request_valid "local" "" "llama"
                          [Examples._record 1 0] "")) _ _ _);
    [reflexivity|discriminate|by vm_compute].
Defined.

End Requests.

(** ** The store: what a day lists after cleanup *)

Section DayListing.
Import Models Database.

Section SortFilter.
Context {A : Type} (leb : A -> A -> bool).
Hypothesis leb_trans : forall a b c,
  leb a b = true -> leb b c = true -> leb a c = true.
Context (P : A -> Prop) `{!forall x, Decision (P x)}.

Lemma filter_insert_sorted (x : A) (s : list A) :
  StronglySorted (fun a b => leb a b = true) s ->
  filter P (insert_sorted leb x s)
  = if decide (P x) then insert_sorted leb x (filter P s) else filter P s.
Proof.
  induction 1 as [|y s Hs IH Hy]; cbn [insert_sorted].
  - rewrite filter_cons, filter_nil. by destruct (decide (P x)).
  - destruct (leb x y) eqn:Exy.
    + rewrite filter_cons. destruct (decide (P x)) as [Hx|Hx]; [|done].
      rewrite filter_cons. destruct (decide (P y)) as [Hpy|Hpy].
      * cbn [insert_sorted]. by rewrite Exy.
      * assert (Forall (fun z => leb x z = true) (filter P s)) as Hall.
        { apply Forall_forall. intros z Hz.
          apply list_elem_of_filter in Hz as [_ Hz].
          rewrite Forall_forall in Hy. eapply leb_trans; [exact Exy|].
          by apply Hy. }
        destruct (filter P s) as [|z r]; [done|].
        cbn [insert_sorted]. apply Forall_cons in Hall as [-> _]. done.
    + rewrite !filter_cons. rewrite IH.
      destruct (decide (P y)), (decide (P x)); cbn [insert_sorted];
        by rewrite ?Exy.
Qed.

End SortFilter.

Lemma filter_stable_sort (P : ScreenshotRow -> Prop)
    `{!forall x, Decision (P x)} (l : list ScreenshotRow) :
  filter P (stable_sort captured_at_leb l)
  = stable_sort captured_at_leb (filter P l).
Proof.
  induction l as [|x l IH]; [done|].
  cbn [stable_sort]. rewrite filter_insert_sorted.
  - rewrite filter_cons. destruct (decide (P x)); [|done].
    cbn [stable_sort]. by rewrite IH.
  - intros a b c. unfold captured_at_leb. apply string_leb_trans.
  - apply order_by_captured_at.
Qed.

(** The table after the sweep: the rows whose id was not swept. *)
Lemma enforce_loop_table max_bytes rows : forall table fs current cnt bytes,
  exists removed kept,
    rows = removed ++ kept /\
    (enforce_loop max_bytes rows table fs current cnt bytes).1.1
    = filter (fun r => ss_id r ∉ ss_id <$> removed) table.
Proof.
  induction rows as [|row rest IH]; intros table fs current cnt bytes.
  - exists [], []. split; [done|]. cbn [enforce_loop fst].
    symmetry. apply filter_all. apply Forall_forall. intros r _.
    rewrite fmap_nil. apply not_elem_of_nil.
  - cbn [enforce_loop]. destruct (current <=? max_bytes).
    + exists [], (row :: rest). split; [done|]. cbn [fst].
      symmetry. apply filter_all. apply Forall_forall. intros r _.
      rewrite fmap_nil. apply not_elem_of_nil.
    + destruct (IH (filter (fun r => ss_id r ≠ ss_id row) table)
                  (fs ∖ {[ss_file_path row]}) (current - ss_file_size row)
                  (cnt + 1) (bytes + ss_file_size row))
        as (removed & kept & -> & ->).
      exists (row :: removed), kept. split; [done|].
      rewrite list_filter_filter. apply list_filter_iff.
      intros r. rewrite fmap_cons, not_elem_of_cons. tauto.
Qed.

Lemma rows_for_day_after_cleanup (max_bytes : Z) (day : string) (db : Store) :
  NoDup (ss_id <$> screenshots db) ->
  rows_for_day day (enforce_storage_limit max_bytes db).1
  `suffix_of` rows_for_day day db.
Proof.
  intros Hnd. unfold enforce_storage_limit.
  destruct (max_bytes <=? 0); [done|].
  destruct (sum_file_size (screenshots db) <=? max_bytes); [done|].
  destruct (enforce_loop_table max_bytes
              (stable_sort captured_at_leb (screenshots db))
              (screenshots db) (files db)
              (sum_file_size (screenshots db)) 0 0)
    as (removed & kept & Hsplit & Htable).
  destruct (enforce_loop _ _ _ _ _ _ _) as [[table fs] counts].
  cbn [fst snd] in *. unfold rows_for_day. cbn [screenshots]. subst table.
  rewrite <- !filter_stable_sort, Hsplit, !filter_app.
  assert (NoDup (ss_id <$> removed ++ kept)) as Hnd'.
  { rewrite <- Hsplit. by rewrite stable_sort_perm. }
  rewrite fmap_app in Hnd'. apply NoDup_app in Hnd' as (_ & Hdisj & _).
  rewrite (filter_none _ removed), (filter_all _ kept).
  - cbn [app]. apply suffix_app_r. done.
  - apply Forall_forall. intros r Hr Hin. apply (Hdisj (ss_id r)); [done|].
    by apply list_elem_of_fmap_2.
  - apply Forall_forall. intros r Hr Hout. apply Hout.
    by apply list_elem_of_fmap_2.
Qed.

(** X21.  What a day lists after cleanup.  On a store with distinct
    screenshot ids, the paths [list_screenshot_paths_for_day] returns after
    [enforce_storage_limit] are a suffix of the paths it returned before,
    and so are the records of [list_screenshots_for_date]: cleanup takes
    entries from the front of a day's listing only and leaves the order of
    the others.  The listing is in the order of the stored captured_at
    texts, which is not the order of the instants when the UTC offsets
    differ. *)
Theorem day_listing_after_cleanup (max_bytes : Z) (day : string) (db : Store)
    (fromisoformat : string -> result datetime) (now : datetime) :
  NoDup (ss_id <$> screenshots db) ->
  let db' := (enforce_storage_limit max_bytes db).1 in
  list_screenshot_paths_for_day day db'
  `suffix_of` list_screenshot_paths_for_day day db /\
  list_screenshots_for_date fromisoformat now day db'
  `suffix_of` list_screenshots_for_date fromisoformat now day db.
Proof.
  intros Hnd db'.
  destruct (rows_for_day_after_cleanup max_bytes day db Hnd) as [older Hrows].
  unfold list_screenshot_paths_for_day, list_screenshots_for_date.
  fold db' in Hrows. rewrite Hrows, !fmap_app.
  split; apply suffix_app_r; done.
Qed.

Lemma day_listing_after_cleanup_witness :
  let db0 :=
    (insert_screenshot "2026-01-05T09:01:00+00:00" "b.jpg" 1200 "B" "Code"
       (insert_screenshot "2026-01-05T09:00:00+00:00" "a.jpg" 1200 "A" "Code"
          empty_store).1).1 in
  list_screenshot_paths_for_day "2026-01-05" (enforce_storage_limit 1500 db0).1
  `suffix_of` list_screenshot_paths_for_day "2026-01-05" db0.
Proof.
  cbv zeta.
  refine (proj1 (day_listing_after_cleanup 1500 "2026-01-05" _
                   (fun _ => Ok 0) 0 _)).
  simpl. apply NoDup_cons. split; [|apply NoDup_singleton].
  rewrite list_elem_of_singleton. discriminate.
Defined.

End DayListing.

(** ** The store: dashboard tiles and the journal *)

Section SideTables.
Import Tables Derived.

Lemma StronglySorted_sublist {B} (R : B -> B -> Prop) (l1 l2 : list B) :
  l1 `sublist_of` l2 -> StronglySorted R l2 -> StronglySorted R l1.
Proof.
  induction 1 as [|x l1 l2 Hsub IH|x l1 l2 Hsub IH]; intros Hs; [done| |].
  - apply StronglySorted_inv in Hs as [Hs Hx]. constructor; [by apply IH|].
    rewrite Forall_forall in *. intros y Hy. apply Hx.
    by eapply elem_of_sublist.
  - apply StronglySorted_inv in Hs as [Hs _]. by apply IH.
Qed.

Lemma insert_sorted_end {B} (leb : B -> B -> bool) (x : B) (s : list B) :
  Forall (fun y => leb x y = false) s -> insert_sorted leb x s = s ++ [x].
Proof.
  induction 1 as [|y s Hy Hs IH]; [done|].
  cbn [insert_sorted]. by rewrite Hy, IH.
Qed.

(** ORDER BY id DESC on rows in rowid order: the rows reversed. *)
Lemma newest_first (l : list DashboardTile) :
  StronglySorted (fun a b => dt_id a < dt_id b) l ->
  stable_sort id_desc_leb l = reverse l.
Proof.
  induction 1 as [|x l Hs IH Hx]; [done|].
  cbn [stable_sort]. rewrite IH, reverse_cons.
  apply insert_sorted_end. apply Forall_forall. intros y Hy.
  rewrite elem_of_reverse in Hy. rewrite Forall_forall in Hx.
  specialize (Hx y Hy). unfold id_desc_leb. lia.
Qed.

Lemma list_tiles_reverse (day : string) (db : Side) :
  tiles_keyed db ->
  list_dashboard_tiles day db
  = reverse (filter (fun r => dt_day r = day) (dashboard_tiles db)).
Proof.
  intros [Hs _]. apply newest_first.
  eapply StronglySorted_sublist; [apply sublist_filter|exact Hs].
Qed.

Lemma insert_tile_keyed day question answer now (db : Side) :
  tiles_keyed db ->
  tiles_keyed (insert_dashboard_tile day question answer now db).1.
Proof.
  intros [Hs Hseq]. split; cbn [insert_dashboard_tile fst dashboard_tiles
                                 dashboard_tiles_seq].
  - apply StronglySorted_app_2; [|done|repeat constructor].
    intros a b Ha Hb. apply list_elem_of_singleton in Hb as ->.
    rewrite Forall_forall in Hseq. specialize (Hseq a Ha). simpl. lia.
  - apply Forall_app. split.
    + eapply Forall_impl; [exact Hseq|]. simpl. intros; lia.
    + constructor; [simpl; lia|constructor].
Qed.

Lemma clear_tiles_keyed day (db : Side) :
  tiles_keyed db -> tiles_keyed (clear_dashboard_tiles day db).
Proof.
  intros [Hs Hseq]. split; cbn [clear_dashboard_tiles dashboard_tiles
                                 dashboard_tiles_seq].
  - eapply StronglySorted_sublist; [apply sublist_filter|exact Hs].
  - apply Forall_forall. intros r Hr.
    apply list_elem_of_filter in Hr as [_ Hr].
    rewrite Forall_forall in Hseq. by apply Hseq.
Qed.

(** X22.  Dashboard tiles, on a table in rowid order (which the empty
    table is, and which inserting and clearing keep).  The tiles of a day
    are listed newest first.  A tile inserted for a day becomes the first
    of that day's list, before the tiles listed so far, and leaves the
    lists of the other days as they were.  Clearing a day empties its list
    and leaves the other days; the id counter is kept, so a tile inserted
    after clearing gets an id above every id used before. *)
Theorem tiles_newest_first (day question answer now : string) (db : Side) :
  tiles_keyed db ->
  let inserted := insert_dashboard_tile day question answer now db in
  let tile := {| dt_id := inserted.2; dt_day := day; dt_question := question;
                 dt_answer := answer; dt_created_at := now |} in
  list_dashboard_tiles day inserted.1 = tile :: list_dashboard_tiles day db /\
  (forall day', day' <> day ->
     list_dashboard_tiles day' inserted.1 = list_dashboard_tiles day' db /\
     list_dashboard_tiles day' (clear_dashboard_tiles day db)
     = list_dashboard_tiles day' db) /\
  list_dashboard_tiles day (clear_dashboard_tiles day db) = [] /\
  Forall (fun r => dt_id r < inserted.2) (dashboard_tiles db) /\
  (insert_dashboard_tile day question answer now
     (clear_dashboard_tiles day db)).2 = inserted.2 /\
  tiles_keyed inserted.1 /\ tiles_keyed (clear_dashboard_tiles day db).
Proof.
  intros Hk inserted tile.
  pose proof (insert_tile_keyed day question answer now db Hk) as Hk'.
  pose proof (clear_tiles_keyed day db Hk) as Hkc.
  fold inserted in Hk'.
  split; [|split; [|split; [|split; [|split; [done|done]]]]].
  - rewrite !list_tiles_reverse by done.
    subst inserted tile. cbn [insert_dashboard_tile fst snd dashboard_tiles].
    rewrite filter_app, reverse_app.
    rewrite filter_cons_True by done. by rewrite filter_nil.
  - intros day' Hne. split.
    + rewrite !list_tiles_reverse by done.
      subst inserted. cbn [insert_dashboard_tile fst dashboard_tiles].
      rewrite filter_app. rewrite filter_cons_False by (simpl; congruence).
      by rewrite filter_nil, app_nil_r.
    + unfold list_dashboard_tiles. cbn [clear_dashboard_tiles dashboard_tiles].
      rewrite list_filter_filter. f_equal. apply list_filter_iff.
      intros r. split; [tauto|]. intros ->. done.
  - unfold list_dashboard_tiles. cbn [clear_dashboard_tiles dashboard_tiles].
    rewrite list_filter_filter.
    rewrite (filter_none _ (dashboard_tiles db)); [done|].
    apply Forall_forall. intros r _. tauto.
  - destruct Hk as [_ Hseq]. eapply Forall_impl; [exact Hseq|].
    subst inserted. simpl. intros; lia.
Qed.

Lemma tiles_newest_first_witness :
  let db1 := (insert_dashboard_tile "2026-02-21" "What did I focus on?"
                "Mostly coding and review." "t1" empty_side).1 in
  list_dashboard_tiles "2026-02-21"
    (insert_dashboard_tile "2026-02-21" "How much distraction?"
       "About 30 minutes." "t2" db1).1
  = {| dt_id := 2; dt_day := "2026-02-21";
       dt_question := "How much distraction?";
       dt_answer := "About 30 minutes."; dt_created_at := "t2" |}
    :: list_dashboard_tiles "2026-02-21" db1.
Proof.
  cbv zeta.
  refine (proj1 (tiles_newest_first "2026-02-21" "How much distraction?"
                   "About 30 minutes." "t2" _ _)).
  apply insert_tile_keyed. split; constructor.
Defined.

Lemma string_leb_strict (a b : string) :
  String.leb a b = true -> a <> b -> String.ltb a b = true.
Proof.
  rewrite string_leb_ltb_eqb. intros H Hne.
  apply orb_true_iff in H as [H|H]; [done|].
  by apply String.eqb_eq in H.
Qed.

Lemma journal_rows (db : Side) :
  journal_keyed db ->
  let rows := stable_sort day_desc_leb (snd <$> map_to_list (journal_entries db)) in
  StronglySorted (fun a b => String.ltb (je_day b) (je_day a) = true) rows /\
  length rows = size (journal_entries db) /\
  (forall e, e ∈ rows <-> journal_entries db !! je_day e = Some e).
Proof.
  intros Hk rows.
  assert (forall e, e ∈ rows <-> journal_entries db !! je_day e = Some e) as Hin.
  { intros e. unfold rows. rewrite stable_sort_perm, list_elem_of_fmap. split.
    - intros ([day row] & -> & Hrow). apply elem_of_map_to_list in Hrow.
      cbn [snd]. by rewrite (Hk day row Hrow).
    - intros He. exists (je_day e, e). split; [done|].
      by apply elem_of_map_to_list. }
  assert (NoDup (je_day <$> rows)) as Hnd.
  { unfold rows. rewrite stable_sort_perm, <- list_fmap_compose.
    rewrite (Forall_fmap_ext_1 (je_day ∘ snd) fst).
    - apply NoDup_fst_map_to_list.
    - apply Forall_forall. intros [day row] Hrow.
      apply elem_of_map_to_list in Hrow. cbn. by apply Hk. }
  split; [|split; [|done]].
  - assert (StronglySorted (fun a b => day_desc_leb a b = true) rows) as Hs.
    { apply Sorted_StronglySorted.
      - intros a b c. unfold day_desc_leb. intros H1 H2.
        eapply string_leb_trans; [exact H2|exact H1].
      - apply stable_sort_Sorted. intros a b. apply String.leb_total. }
    clear Hin. induction Hs as [|x l Hs IH Hx]; [constructor|].
    rewrite fmap_cons in Hnd. apply NoDup_cons in Hnd as [Hx' Hnd].
    constructor; [by apply IH|].
    apply Forall_forall. intros y Hy. rewrite Forall_forall in Hx.
    apply string_leb_strict; [by apply Hx|].
    intros Heq. apply Hx'. rewrite <- Heq. by apply list_elem_of_fmap_2.
  - unfold rows. rewrite stable_sort_length, length_fmap.
    apply length_map_to_list.
Qed.

Lemma upsert_journal_keyed day intentions reflections notes summary now
    (db : Side) :
  journal_keyed db ->
  journal_keyed
    (upsert_journal_entry day intentions reflections notes summary now db).
Proof.
  intros Hk day' row. cbn [upsert_journal_entry journal_entries].
  destruct (decide (day = day')) as [->|Hne].
  - rewrite lookup_insert_eq. by intros [= <-].
  - rewrite lookup_insert_ne by done. apply Hk.
Qed.

(** X23.  The journal, on a table whose rows carry their day (which the
    empty table does, and which [upsert_journal_entry] keeps).
    [list_recent_journal_entries] returns entries of strictly decreasing
    day, [min limit n] of the [n] stored ones, all of them for a negative
    limit; each is the entry [get_journal_entry] returns for its day, and
    every stored entry left out is older than every entry returned.  After
    [upsert_journal_entry] the day reads back as written, the other days
    as before; a day never written reads as a blank entry with an empty
    [updated_at]. *)
Theorem journal_recent_entries (limit : Z) (db : Side)
    (day intentions reflections notes summary now : string) :
  journal_keyed db ->
  let recent := list_recent_journal_entries limit db in
  let db' :=
    upsert_journal_entry day intentions reflections notes summary now db in
  StronglySorted (fun a b => String.ltb (je_day b) (je_day a) = true) recent /\
  length recent
  = (if limit <? 0 then size (journal_entries db)
     else Nat.min (Z.to_nat limit) (size (journal_entries db))) /\
  Forall (fun e => get_journal_entry (je_day e) db = e) recent /\
  (forall row, journal_entries db !! je_day row = Some row -> row ∉ recent ->
     Forall (fun e => String.ltb (je_day row) (je_day e) = true) recent) /\
  get_journal_entry day db'
  = {| je_day := day; je_intentions := intentions;
       je_reflections := reflections; je_notes := notes;
       je_summary := summary; je_updated_at := now |} /\
  (forall day', day' <> day ->
     get_journal_entry day' db' = get_journal_entry day' db) /\
  (journal_entries db !! day = None ->
   get_journal_entry day db
   = {| je_day := day; je_intentions := ""; je_reflections := "";
        je_notes := ""; je_summary := ""; je_updated_at := "" |}) /\
  journal_keyed db'.
Proof.
  intros Hk recent db'.
  destruct (journal_rows db Hk) as (Hs & Hlen & Hin).
  set (rows := stable_sort day_desc_leb
                 (snd <$> map_to_list (journal_entries db))) in *.
  assert (recent `sublist_of` rows) as Hsub.
  { unfold recent, list_recent_journal_entries. fold rows.
    destruct (limit <? 0); [done|apply sublist_take]. }
  split; [by eapply StronglySorted_sublist|].
  split.
  { unfold recent, list_recent_journal_entries. fold rows.
    destruct (limit <? 0); [done|]. by rewrite length_take, Hlen. }
  split.
  { apply Forall_forall. intros e He. unfold get_journal_entry.
    assert (e ∈ rows) as Hr by (by eapply elem_of_sublist).
    apply Hin in Hr. by rewrite Hr. }
  split.
  { intros row Hrow Hout. apply Hin in Hrow.
    unfold recent, list_recent_journal_entries in *. fold rows in Hout |- *.
    destruct (limit <? 0); [done|].
    rewrite <- (take_drop (Z.to_nat limit) rows) in Hs, Hrow.
    apply elem_of_app in Hrow as [Hrow|Hrow]; [done|].
    apply Forall_forall. intros e He.
    exact (StronglySorted_app_1_elem_of _ _ _ _ _ Hs He Hrow). }
  split.
  { unfold get_journal_entry, db'. cbn [upsert_journal_entry journal_entries].
    by rewrite lookup_insert_eq. }
  split.
  { intros day' Hne. unfold get_journal_entry, db'.
    cbn [upsert_journal_entry journal_entries].
    by rewrite lookup_insert_ne. }
  split.
  { intros Hnone. unfold get_journal_entry. by rewrite Hnone. }
  by apply upsert_journal_keyed.
Qed.

Lemma journal_recent_entries_witness :
  let db1 := upsert_journal_entry "2026-02-21" "Ship release" "Good progress"
               "" "Solid day" "t1" empty_side in
  length (list_recent_journal_entries 3 db1)
  = Nat.min 3 (size (journal_entries db1)).
Proof.
  cbv zeta.
  refine (proj1 (proj2 (journal_recent_entries 3 _ "" "" "" "" "" "" _))).
  apply upsert_journal_keyed. intros day row H.
  cbn [empty_side journal_entries] in H. by rewrite lookup_empty in H.
Defined.

End SideTables.

(** ** The store: settings *)

Section Settings.
Import PyFloat Tables.

(** X24.  Settings.  A value written with [set_setting] is the one
    [get_setting] returns, the last write winning, and the other keys are
    not affected.  [get_setting_float] returns the fallback or a parsed
    value that is not [<= 0]: never a finite value of zero or less that is
    not the fallback, but an infinite value or NaN passes. *)
Theorem settings_read_back (float : string -> result pyfloat)
    (key key' value value' : string) (fallback : pyfloat)
    (missing : option string) (db : Side) :
  get_setting key missing (set_setting key value (set_setting key value' db))
  = Some value /\
  (key' <> key ->
   get_setting key' missing (set_setting key value db)
   = get_setting key' missing db) /\
  (get_setting key None db = None ->
   get_setting key missing db = missing /\
   get_setting_float float key fallback db = fallback) /\
  (get_setting_float float key fallback db = fallback \/
   fle (get_setting_float float key fallback db) (Finite 0) = false /\
   exists text, get_setting key None db = Some text /\
     float text = Ok (get_setting_float float key fallback db)) /\
  (forall parsed, float value = Ok parsed ->
   get_setting_float float key fallback (set_setting key value db)
   = match parsed with
     | Finite q => if Qle_bool q 0 then fallback else parsed
     | NegInf => fallback
     | _ => parsed
     end).
Proof.
  unfold get_setting_float, get_setting.
  cbn [set_setting app_settings].
  split; [by rewrite lookup_insert_eq|].
  split; [intros Hne; by rewrite lookup_insert_ne|].
  split.
  { destruct (app_settings db !! key); [done|]. done. }
  split.
  { destruct (app_settings db !! key) as [text|]; [|by left].
    destruct (float text) as [parsed|] eqn:E; [|by left].
    destruct (fle parsed (Finite 0)) eqn:E'; [by left|].
    right. split; [done|]. by exists text. }
  intros parsed Hp. rewrite lookup_insert_eq, Hp.
  by destruct parsed.
Qed.

Lemma settings_read_back_witness :
  get_setting_float (fun _ => Ok NaN) "capture_interval_seconds" (Finite 10)
    (set_setting "capture_interval_seconds" "nan" empty_side)
  = NaN.
Proof.
  exact (proj2 (proj2 (proj2 (proj2
    (settings_read_back (fun _ => Ok NaN) "capture_interval_seconds" ""
       "nan" "" (Finite 10) None empty_side)))) NaN eq_refl).
Defined.

End Settings.

(** ** The analyzer: the context of a question *)

Section Context.
Import Models AiRequest.

Lemma context_lines_first_cards (day : string) (cards : list AITimelineCard)
    (daily_summary : string) (captured_timeline : option (list string))
    (range_label : option string) :
  context_lines day (firstn 40 cards) daily_summary captured_timeline range_label
  = context_lines day cards daily_summary captured_timeline range_label.
Proof.
  unfold context_lines. destruct cards as [|c cs]; [done|].
  cbn [firstn]. by rewrite take_take, Nat.min_id.
Qed.

(** X25.  [_timeline_context] is capped: it has between 3 and 164
    lines before joining, whatever it is given; cards after the 40th do
    not change it, nor does white space around the daily summary; an
    absent list of captured lines and an empty one give the same text. *)
Theorem timeline_context_is_capped (day : string) (cards extra : list AITimelineCard)
    (daily_summary : string) (captured_timeline : option (list string))
    (range_label : option string) :
  (3 <= length (context_lines day cards daily_summary captured_timeline
                  range_label) <= 164)%nat /\
  ((40 <= length cards)%nat ->
   _timeline_context day (cards ++ extra) daily_summary captured_timeline
     range_label
   = _timeline_context day cards daily_summary captured_timeline range_label) /\
  _timeline_context day cards (PyText.strip daily_summary) captured_timeline range_label
  = _timeline_context day cards daily_summary captured_timeline range_label /\
  _timeline_context day cards daily_summary (Some []) range_label
  = _timeline_context day cards daily_summary None range_label.
Proof.
  split; [|split; [|split]].
  - unfold context_lines.
    set (captured := PyText.strip <$> filter _ _).
    assert (length (take 120 captured) <= 120)%nat by (rewrite length_take; lia).
    assert (length (take 40 cards) <= 40)%nat by (rewrite length_take; lia).
    destruct (negb _), cards as [|c cs], captured as [|l ls];
      rewrite ?length_app, ?length_fmap; cbn [length];
      rewrite ?length_app, ?length_fmap; cbn [length];
      rewrite ?length_fmap; lia.
  - intros Hlen. unfold _timeline_context.
    rewrite <- (context_lines_first_cards day (cards ++ extra)).
    rewrite take_app_le by lia. by rewrite context_lines_first_cards.
  - unfold _timeline_context, context_lines. by rewrite strip_idem.
  - done.
Qed.

Lemma timeline_context_is_capped_witness :
  let card := mkAITimelineCard 1 "2026-02-20" "09:00" "09:30" "Work" "x" "Coding" in
  _timeline_context "2026-02-20" (replicate 40 card ++ [card]) "" None None
  = _timeline_context "2026-02-20" (replicate 40 card) "" None None.
Proof.
  cbv zeta.
  refine (proj1 (proj2 (timeline_context_is_capped _ _ _ _ _ _)) _).
  rewrite length_replicate. lia.
Defined.

End Context.

(** ** The window: the days of a question *)

Section QueryDays.
Import PyText App.

(** X26.  [_dashboard_query_days] returns the day before the selected
    one, the seven days ending with the selected one, or the selected day
    alone: never an empty list, never a day after the selected one or more
    than six days before it, always in increasing order; it ignores letter
    case and surrounding white space, and yesterday wins over week. *)
Theorem dashboard_query_days_window (question : string) (selected_day : Z) :
  let days := _dashboard_query_days question selected_day in
  (days = [selected_day - 1] \/ days = [selected_day] \/
   days = (fun k => selected_day - 6 + Z.of_nat k) <$> seq 0 7) /\
  StronglySorted Z.lt days /\
  Forall (fun day => selected_day - 6 <= day <= selected_day) days /\
  _dashboard_query_days (lower question) selected_day = days /\
  _dashboard_query_days (strip question) selected_day = days /\
  (contains "yesterday" (lower (strip question)) = true ->
   days = [selected_day - 1]).
Proof.
  intros days.
  assert (days = [selected_day - 1] \/ days = [selected_day] \/
          days = (fun k => selected_day - 6 + Z.of_nat k) <$> seq 0 7) as Hcases.
  { unfold days, _dashboard_query_days.
    destruct (contains "yesterday" _); [by left|].
    destruct (_ || _); [|right; by left].
    right; right. cbn. repeat f_equal; lia. }
  split; [exact Hcases|].
  split.
  { destruct Hcases as [-> | [-> | ->]]; cbn;
      repeat (constructor; [|repeat (constructor; [lia|]); constructor]);
      constructor. }
  split.
  { destruct Hcases as [-> | [-> | ->]]; cbn;
      repeat (constructor; [lia|]); constructor. }
  split.
  { unfold days, _dashboard_query_days. by rewrite strip_lower, lower_idem. }
  split.
  { unfold days, _dashboard_query_days. by rewrite strip_idem. }
  intros H. unfold days, _dashboard_query_days. by rewrite H.
Qed.

Lemma dashboard_query_days_window_witness :
  _dashboard_query_days "Compare YESTERDAY with last week" 100 = [99].
Proof.
  refine (proj2 (proj2 (proj2 (proj2 (proj2
    (dashboard_query_days_window "Compare YESTERDAY with last week" 100)))))
    _).
  by vm_compute.
Defined.

End QueryDays.
